(** * Retrieval fusion, reranking, expansion and grounding guardrails

    A shallow embedding of the core of the RAG pipeline:

      - [src/rag/guardrails.py]: citation verification, topic presence
        check (the evidence gate) and the entity check;
      - [src/rag/retriever.py]: hybrid retrieval (score fusion) and chunk
        expansion;
      - [src/rag/reranker.py]: the LLM reranker;
      - [src/rag/pipeline.py]: the orchestration of one query;
      - [src/eval/evaluator.py]: the citation precision and no-evidence
        scores of one query.

    Modelling conventions.

      - A Python [str] is a [string]; a character is a code point below
        256 (Latin-1), and the character classes of [re] and of the [str]
        methods are Python's on that range.  The members of the source's
        character classes that lie above 255 cannot occur in such a
        string and are left out of the classes.  Every statement about text
        is therefore a statement about Latin-1 text; above that range
        [str.lower] is no longer a map on single characters (the Greek
        final sigma), and what is proved from that here does not carry
        over.
      - An [int] is a [Z].  CPython refuses to convert between [str] and
        [int] beyond 4300 decimal digits: [int] raises [ValueError] there,
        which [int_of] models; formatting such a number raises as well,
        and that exception is outside the model ([format_03d] is total).
      - A [dict] keyed by strings is a [gmap string _], a [set] of strings
        a [gset string].  Where the code iterates over a set and the order
        can be observed, the order is a parameter ([SetOrder]): any
        enumeration of the elements.
      - The scores are Python floats.  The arithmetic on them is kept
        abstract ([PyFloat]): an arbitrary carrier with the operations the
        code uses, and the one law on comparisons that IEEE floats obey.
        The single place where a float decides control flow on integers
        ([len(answer) * 0.3]) is modelled exactly, with the binary64 value
        of the literal and round-to-nearest-even.
      - Objects mutated in place and returned ([RAGResponse],
        [RetrievalResult]) are passed and returned as values.
      - External services (vector store, BM25 retriever, the two LLM
        calls) are parameters; a call that raises is [None]. *)

From Stdlib Require Import ZArith NArith Ascii String List Bool Lia Permutation Sorted.
From Stdlib Require QArith.
From stdpp Require Import base option list gmap strings sets.

Local Open Scope string_scope.
Local Open Scope list_scope.

(** ** Python strings *)

Module PyStr.

Definition code (c : ascii) : N := N_of_ascii c.

Definition between (lo hi : N) (c : ascii) : bool :=
  ((lo <=? code c) && (code c <=? hi))%N.

Definition is_code (n : N) (c : ascii) : bool := (code c =? n)%N.

(** [\d] *)
Definition is_digit (c : ascii) : bool := between 48 57 c.

(** [[A-Z]] and [[a-z]] *)
Definition is_AZ (c : ascii) : bool := between 65 90 c.
Definition is_az (c : ascii) : bool := between 97 122 c.

(** [str.isspace], [\s] *)
Definition is_space (c : ascii) : bool :=
  between 9 13 c || between 28 32 c || is_code 133 c || is_code 160 c.

(** [\w]: alphanumeric (in the Unicode sense) or underscore *)
Definition is_word (c : ascii) : bool :=
  is_digit c || is_AZ c || is_az c || is_code 95 c
  || is_code 170 c || is_code 178 c || is_code 179 c || is_code 181 c
  || is_code 185 c || is_code 186 c || between 188 190 c
  || between 192 214 c || between 216 246 c || between 248 255 c.

(** [str.lower] on one character *)
Definition lower_char (c : ascii) : ascii :=
  if is_AZ c || (between 192 222 c && negb (is_code 215 c))
  then ascii_of_N (code c + 32) else c.

Definition chars (s : string) : list ascii := list_ascii_of_string s.
Definition str (l : list ascii) : string := string_of_list_ascii l.

Definition len (s : string) : nat := String.length s.

(** [str.lower]: on Latin-1 text, the map of [lower_char] over the
    characters *)
Definition lower (s : string) : string := str (map lower_char (chars s)).

(** truthiness of a [str] *)
Definition truthy (s : string) : bool := negb (String.eqb s "").

Fixpoint lstrip_chars (l : list ascii) : list ascii :=
  match l with
  | c :: l' => if is_space c then lstrip_chars l' else l
  | [] => []
  end.

(** [str.strip()] *)
Definition strip (s : string) : string :=
  str (rev (lstrip_chars (rev (lstrip_chars (chars s))))).

Fixpoint prefix_chars (p l : list ascii) : bool :=
  match p, l with
  | [], _ => true
  | a :: p', b :: l' => Ascii.eqb a b && prefix_chars p' l'
  | _ :: _, [] => false
  end.

(** [s.endswith(suffix)] *)
Definition endswith (s suffix : string) : bool :=
  prefix_chars (rev (chars suffix)) (rev (chars s)).

Fixpoint contains_chars (sub l : list ascii) : bool :=
  prefix_chars sub l ||
  match l with
  | [] => false
  | _ :: l' => contains_chars sub l'
  end.

(** [sub in s] *)
Definition contains (sub s : string) : bool := contains_chars (chars sub) (chars s).

(** [sep.join(parts)] *)
Fixpoint join (sep : string) (parts : list string) : string :=
  match parts with
  | [] => ""
  | [p] => p
  | p :: rest => p +:+ sep +:+ join sep rest
  end.

(** splitting at every occurrence of one character: [s.split("\n")] *)
Fixpoint split_on_aux (sep : ascii) (l cur : list ascii) : list string :=
  match l with
  | [] => [str (rev cur)]
  | c :: l' =>
      if Ascii.eqb c sep then str (rev cur) :: split_on_aux sep l' []
      else split_on_aux sep l' (c :: cur)
  end.

Definition split_on (sep : ascii) (s : string) : list string :=
  split_on_aux sep (chars s) [].

(** [s.replace(a, b)] for one-character [a] and [b] *)
Definition replace_char (a b : ascii) (s : string) : string :=
  str (map (fun c => if Ascii.eqb c a then b else c) (chars s)).

(** [xs[:k]] for any integer [k] *)
Definition slice_to {A} (k : Z) (xs : list A) : list A :=
  if (0 <=? k)%Z then firstn (Z.to_nat k) xs
  else firstn (length xs - Z.to_nat (- k)) xs.

Definition str_slice_to (k : Z) (s : string) : string := str (slice_to k (chars s)).

(** the order of [str]: lexicographic on code points *)
Fixpoint lt_chars (a b : list ascii) : bool :=
  match a, b with
  | [], [] => false
  | [], _ :: _ => true
  | _ :: _, [] => false
  | x :: a', y :: b' =>
      if (code x <? code y)%N then true
      else if (code y <? code x)%N then false
      else lt_chars a' b'
  end.

Definition lt (a b : string) : bool := lt_chars (chars a) (chars b).

(** [sorted(xs)] on strings: stable insertion into ascending order *)
Fixpoint insert_sorted (x : string) (l : list string) : list string :=
  match l with
  | [] => [x]
  | y :: l' => if lt y x then y :: insert_sorted x l' else x :: l
  end.

Definition sorted (l : list string) : list string :=
  fold_right insert_sorted [] (rev l).

(** [str(n)] for a natural number *)
Definition digit_char (d : nat) : ascii := ascii_of_nat (48 + d).

Fixpoint nat_digits (fuel n : nat) (acc : list ascii) : list ascii :=
  match fuel with
  | O => acc
  | S fuel' =>
      let acc' := digit_char (n mod 10) :: acc in
      if (n / 10 =? 0)%nat then acc' else nat_digits fuel' (n / 10) acc'
  end.

Definition of_nat (n : nat) : string := str (nat_digits (S n) n []).

(** [format(z, "03d")]: zero padding to width 3, the sign counted in.
    (For a number of more than 4300 digits Python raises [ValueError]
    instead.) *)
Definition zeros (n : nat) : string := str (repeat "0"%char n).

Definition format_03d (z : Z) : string :=
  if (z <? 0)%Z then
    let d := of_nat (Z.to_nat (- z)) in "-" +:+ zeros (2 - len d) +:+ d
  else
    let d := of_nat (Z.to_nat z) in zeros (3 - len d) +:+ d.

(** [repr] of a string and of a list of strings *)
Definition quote1 : ascii := ascii_of_nat 39.
Definition quote2 : ascii := ascii_of_nat 34.
Definition backslash : ascii := ascii_of_nat 92.

Definition hex_digit (n : N) : ascii :=
  if (n <? 10)%N then ascii_of_N (48 + n) else ascii_of_N (87 + n).

Definition printable (c : ascii) : bool :=
  negb (between 0 31 c || between 127 160 c || is_code 173 c).

Definition repr_char (q : ascii) (c : ascii) : list ascii :=
  if Ascii.eqb c q || Ascii.eqb c backslash then [backslash; c]
  else if is_code 9 c then [backslash; "t"%char]
  else if is_code 10 c then [backslash; "n"%char]
  else if is_code 13 c then [backslash; "r"%char]
  else if printable c then [c]
  else [backslash; "x"%char; hex_digit (code c / 16); hex_digit (code c mod 16)].

Definition repr (s : string) : string :=
  let cs := chars s in
  let q := if existsb (Ascii.eqb quote1) cs && negb (existsb (Ascii.eqb quote2) cs)
           then quote2 else quote1 in
  str ((q :: concat (map (repr_char q) cs)) ++ [q]).

Definition repr_list (l : list string) : string :=
  "[" +:+ join ", " (map repr l) +:+ "]".

(** [s.rsplit(sep, maxsplit)]: the occurrences of [sep] are looked for
    from the right end; computed on the reversed string *)
Fixpoint lsplit_aux (sep : list ascii) (seplen : nat) (l : list ascii)
    (n skip : nat) (cur : list ascii) : list (list ascii) :=
  match l with
  | [] => [rev cur]
  | c :: l' =>
      match skip with
      | S k => lsplit_aux sep seplen l' n k cur
      | O =>
          match n with
          | O => lsplit_aux sep seplen l' n 0 (c :: cur)
          | S n' =>
              if prefix_chars sep l
              then rev cur :: lsplit_aux sep seplen l' n' (seplen - 1) []
              else lsplit_aux sep seplen l' n 0 (c :: cur)
          end
      end
  end.

Definition rsplit (sep : string) (maxsplit : nat) (s : string) : list string :=
  let pieces := lsplit_aux (rev (chars sep)) (len sep) (rev (chars s)) maxsplit 0 [] in
  rev (map (fun p => str (rev p)) pieces).

(** [int(s)]: surrounding white space, an optional sign, decimal digits
    with single underscores between them, at most [int_max_str_digits]
    digits; [None] for [ValueError] *)
Definition is_int_space (c : ascii) : bool :=
  between 9 13 c || is_code 32 c || is_code 133 c || is_code 160 c.

Fixpoint lstrip_int (l : list ascii) : list ascii :=
  match l with
  | c :: l' => if is_int_space c then lstrip_int l' else l
  | [] => []
  end.

(** digits after the first one; [us] tells that the previous character
    was an underscore *)
Fixpoint int_digits (l : list ascii) (us : bool) (acc : N) : option N :=
  match l with
  | [] => if us then None else Some acc
  | c :: l' =>
      if is_digit c then int_digits l' false (acc * 10 + (code c - 48))%N
      else if is_code 95 c then (if us then None else int_digits l' true acc)
      else None
  end.

Definition int_unsigned (l : list ascii) : option N :=
  match l with
  | c :: l' => if is_digit c then int_digits l' false (code c - 48)%N else None
  | [] => None
  end.

(** [sys.get_int_max_str_digits()]: [int] raises [ValueError] on a
    string with more digit characters than this, leading zeros counted,
    underscores, sign and white space not *)
Definition int_max_str_digits : nat := 4300.

Definition int_of (s : string) : option Z :=
  let body := rev (lstrip_int (rev (lstrip_int (chars s)))) in
  if (int_max_str_digits <? length (List.filter is_digit body))%nat then None
  else
    match body with
    | c :: l' =>
        if is_code 45 c then option_map (fun n => (- Z.of_N n)%Z) (int_unsigned l')
        else if is_code 43 c then option_map Z.of_N (int_unsigned l')
        else option_map Z.of_N (int_unsigned body)
    | [] => None
    end.

End PyStr.


(** ** Regular expressions

    The fragment of Python's [re] that the guardrails use, with the
    semantics of its backtracking matcher: ordered alternation, greedy
    repetition, the word boundary [\b] and a one-character look-behind. *)

Module Re.
Import PyStr.

Inductive regex : Type :=
| Eps : regex
| CharIn : (ascii -> bool) -> regex
| Cat : regex -> regex -> regex
| Alt : regex -> regex -> regex
| Star : regex -> regex
| WordB : regex
| Behind : (ascii -> bool) -> regex.

Definition Plus (r : regex) : regex := Cat r (Star r).
Definition Opt (r : regex) : regex := Alt r Eps.

Definition one_of (cs : string) (c : ascii) : bool :=
  existsb (Ascii.eqb c) (chars cs).

(** a literal, matched case-insensitively (flag [re.IGNORECASE]) *)
Definition ichar (c : ascii) : regex :=
  CharIn (fun x => Ascii.eqb (lower_char x) (lower_char c)).

Fixpoint ilit_chars (l : list ascii) : regex :=
  match l with
  | [] => Eps
  | [c] => ichar c
  | c :: l' => Cat (ichar c) (ilit_chars l')
  end.

Definition ILit (s : string) : regex := ilit_chars (chars s).

Definition word_opt (c : option ascii) : bool :=
  match c with Some x => is_word x | None => false end.

(** [rmatch r prev s k]: match [r] at the front of [s], the character
    before it being [prev], and hand what is left to [k]; the first
    success in the matcher's order of preference is the result. *)
Fixpoint rmatch {A} (r : regex) (prev : option ascii) (s : list ascii)
    (k : option ascii -> list ascii -> option A) : option A :=
  match r with
  | Eps => k prev s
  | CharIn p =>
      match s with
      | c :: s' => if p c then k (Some c) s' else None
      | [] => None
      end
  | Cat r1 r2 => rmatch r1 prev s (fun p' s' => rmatch r2 p' s' k)
  | Alt r1 r2 =>
      match rmatch r1 prev s k with
      | Some x => Some x
      | None => rmatch r2 prev s k
      end
  | Star r1 =>
      (fix loop (fuel : nat) (prev : option ascii) (s : list ascii) : option A :=
         match fuel with
         | O => k prev s
         | S fuel' =>
             match rmatch r1 prev s
                     (fun p' s' =>
                        if (length s' <? length s)%nat then loop fuel' p' s' else None)
             with
             | Some x => Some x
             | None => k prev s
             end
         end) (length s) prev s
  | WordB => if xorb (word_opt prev) (word_opt (head s)) then k prev s else None
  | Behind p =>
      match prev with
      | Some c => if p c then k prev s else None
      | None => None
      end
  end.

(** the text left after a match of [r] at this position *)
Definition match_at (r : regex) (prev : option ascii) (s : list ascii)
    : option (list ascii) :=
  rmatch r prev s (fun _ rest => Some rest).

(** [pattern.finditer(text)], as the list of the [m.group()]: the
    non-overlapping matches from left to right.  [skip] counts the
    characters of the current match still to be passed over.  None of
    the patterns below matches the empty string. *)
Fixpoint finditer_aux (r : regex) (prev : option ascii) (s : list ascii)
    (skip : nat) : list string :=
  match s with
  | [] => []
  | c :: s' =>
      match skip with
      | S n => finditer_aux r (Some c) s' n
      | O =>
          match match_at r prev s with
          | Some rest =>
              let n := (length s - length rest)%nat in
              match n with
              | O => finditer_aux r (Some c) s' 0
              | S n' => str (firstn n s) :: finditer_aux r (Some c) s' n'
              end
          | None => finditer_aux r (Some c) s' 0
          end
      end
  end.

Definition findall (r : regex) (text : string) : list string :=
  finditer_aux r None (chars text) 0.

(** [re.split(pattern, text)] for a pattern without groups that does
    not match the empty string *)
Fixpoint split_aux (r : regex) (prev : option ascii) (s : list ascii)
    (skip : nat) (cur : list ascii) : list string :=
  match s with
  | [] => [str (rev cur)]
  | c :: s' =>
      match skip with
      | S n => split_aux r (Some c) s' n cur
      | O =>
          match match_at r prev s with
          | Some rest =>
              let n := (length s - length rest)%nat in
              match n with
              | O => split_aux r (Some c) s' 0 (c :: cur)
              | S n' => str (rev cur) :: split_aux r (Some c) s' n' []
              end
          | None => split_aux r (Some c) s' 0 (c :: cur)
          end
      end
  end.

Definition split (r : regex) (text : string) : list string :=
  split_aux r None (chars text) 0 [].

End Re.

(** ** The one float comparison on lengths

    [len(cleaned_answer) >= len(response.answer) * 0.3] multiplies an
    [int] by the binary64 literal [0.3] and compares an [int] with the
    product.  Finite non-negative binary64 values are kept as
    [mant * 2^expo]; conversion and multiplication round to 53
    significant bits, to nearest, ties to even; the comparison of an
    [int] with a [float] is exact, as in Python.  (Overflow to infinity
    starts at 2^1024, far above any length.) *)

Module Binary64.

Record t : Type := mk { mant : Z; expo : Z }.

(** [0.3 = 0x1.3333333333333p-2] *)
Definition lit_0_3 : t := {| mant := 5404319552844595; expo := -54 |}.

Definition round53 (m e : Z) : t :=
  if (m <? 2 ^ 53)%Z then {| mant := m; expo := e |}
  else
    let s := (Z.log2 m - 52)%Z in
    let q := (m / 2 ^ s)%Z in
    let r := (m mod 2 ^ s)%Z in
    let half := (2 ^ (s - 1))%Z in
    let up := (half <? r)%Z || ((r =? half)%Z && Z.odd q) in
    {| mant := if up then (q + 1)%Z else q; expo := (e + s)%Z |}.

(** [float(n)] for a length [n] *)
Definition of_nat (n : nat) : t := round53 (Z.of_nat n) 0.

Definition mul (x y : t) : t := round53 (mant x * mant y) (expo x + expo y).

(** [c >= x] for an [int] [c] and a [float] [x] *)
Definition int_ge (c : nat) (x : t) : bool :=
  if (0 <=? expo x)%Z then (mant x * 2 ^ expo x <=? Z.of_nat c)%Z
  else (mant x <=? Z.of_nat c * 2 ^ (- expo x))%Z.

End Binary64.

(** ** Floats and set iteration *)

(** The float operations the retrieval code uses.  [flt], [fge] and [feq]
    are [<], [>=] and [==]. *)
Class PyFloat (F : Type) : Type := {
  f0 : F;                       (* 0.0 *)
  f1 : F;                       (* 1.0 *)
  f08 : F;                      (* 0.8 *)
  f_of_nat : nat -> F;          (* float(n) *)
  fadd : F -> F -> F;
  fmul : F -> F -> F;
  fdiv : F -> F -> F;
  flt : F -> F -> bool;
  fge : F -> F -> bool;
  feq : F -> F -> bool;
  flt_fge : forall a b, flt a b = true -> fge a b = false
}.

(** The order in which a [for] loop visits a set of strings. *)
Class SetOrder : Type := {
  set_iter : gset string -> list string;
  set_iter_perm : forall s, set_iter s ≡ₚ elements s
}.

(** [xs.sort(key=..., reverse=True)] and [sorted(xs, key=..., reverse=True)]:
    a stable sort into descending order, [klt a b] being [key(a) < key(b)].
    Written as an insertion sort; Python's merge sort returns the same
    list whenever [<] is a strict weak order on the keys. *)
Fixpoint insert_desc {A} (klt : A -> A -> bool) (x : A) (l : list A) : list A :=
  match l with
  | [] => [x]
  | y :: l' => if klt x y then y :: insert_desc klt x l' else x :: l
  end.

Definition sort_desc {A} (klt : A -> A -> bool) (l : list A) : list A :=
  fold_right (insert_desc klt) [] l.

(** ** Data model ([src/schemas.py]) *)

Module Citation.
Record t : Type := mk {
  source_id : string;
  chunk_id : string;
  relevant_quote : string
}.

(** [cite.chunk_id = v] *)
Definition set_chunk_id (c : t) (v : string) : t :=
  {| source_id := source_id c; chunk_id := v; relevant_quote := relevant_quote c |}.
End Citation.

Module RAGResponse.
Record t : Type := mk {
  answer : string;
  citations : list Citation.t;
  confidence : string;
  evidence_quality : string;
  no_evidence : bool;
  caveats : list string
}.

Definition set_answer (r : t) (v : string) : t :=
  mk v (citations r) (confidence r) (evidence_quality r) (no_evidence r) (caveats r).
Definition set_citations (r : t) (v : list Citation.t) : t :=
  mk (answer r) v (confidence r) (evidence_quality r) (no_evidence r) (caveats r).
Definition set_confidence (r : t) (v : string) : t :=
  mk (answer r) (citations r) v (evidence_quality r) (no_evidence r) (caveats r).
(** [response.caveats.append(v)] *)
Definition append_caveat (r : t) (v : string) : t :=
  mk (answer r) (citations r) (confidence r) (evidence_quality r) (no_evidence r)
     (caveats r ++ [v]).
End RAGResponse.

Module RetrievedChunk.
Record t {F : Type} : Type := mk {
  chunk_id : string;
  source_id : string;
  section : string;
  page_start : Z;
  page_end : Z;
  text : string;
  vector_score : F;
  bm25_score : F;
  combined_score : F
}.
Arguments t : clear implicits.
Arguments mk {F}.
End RetrievedChunk.

Module RetrievalResult.
Record t {F : Type} : Type := mk {
  query : string;
  chunks : list (RetrievedChunk.t F);
  all_candidates : nat;
  above_threshold : nat;
  has_sufficient_evidence : bool
}.
Arguments t : clear implicits.
Arguments mk {F}.

Definition set_chunks {F} (r : t F) (v : list (RetrievedChunk.t F)) : t F :=
  mk (query r) v (all_candidates r) (above_threshold r) (has_sufficient_evidence r).
Definition set_has_sufficient_evidence {F} (r : t F) (v : bool) : t F :=
  mk (query r) (chunks r) (all_candidates r) (above_threshold r) v.

(** [{c.chunk_id for c in retrieval.chunks}] *)
Definition chunk_ids {F} (r : t F) : gset string :=
  list_to_set (map RetrievedChunk.chunk_id (chunks r)).
End RetrievalResult.

(** The retrieval settings of [src/config.py]. *)
Module Config.
Record t {F : Type} : Type := mk {
  vector_k : Z;
  bm25_k : Z;
  rerank_candidates : Z;
  final_k : Z;
  similarity_threshold : F;
  vector_weight : F;
  bm25_weight : F;
  chunk_expand_window : Z;
  max_chunks_after_expand : Z
}.
Arguments t : clear implicits.
Arguments mk {F}.
End Config.

(** ** Guardrails ([src/rag/guardrails.py]) *)

Module Guardrails.
Import PyStr Re.

Definition _STOP_WORDS : gset string := list_to_set [
  "a"; "an"; "the"; "is"; "are"; "was"; "were"; "be"; "been"; "being";
  "have"; "has"; "had"; "do"; "does"; "did"; "will"; "would"; "shall";
  "should"; "may"; "might"; "can"; "could"; "must"; "about"; "above";
  "after"; "again"; "all"; "also"; "and"; "any"; "as"; "at"; "because";
  "before"; "between"; "both"; "but"; "by"; "could"; "did"; "do"; "does";
  "doing"; "down"; "during"; "each"; "few"; "for"; "from"; "further";
  "get"; "got"; "he"; "her"; "here"; "hers"; "herself"; "him"; "himself";
  "his"; "how"; "i"; "if"; "in"; "into"; "it"; "its"; "itself"; "just";
  "know"; "let"; "like"; "make"; "me"; "might"; "more"; "most"; "much";
  "my"; "myself"; "no"; "nor"; "not"; "now"; "of"; "off"; "on"; "once";
  "only"; "or"; "other"; "our"; "ours"; "ourselves"; "out"; "over"; "own";
  "same"; "she"; "so"; "some"; "such"; "take"; "than"; "that"; "the";
  "their"; "theirs"; "them"; "themselves"; "then"; "there"; "these";
  "they"; "this"; "those"; "through"; "to"; "too"; "under"; "until";
  "up"; "us"; "very"; "we"; "what"; "when"; "where"; "which"; "while";
  "who"; "whom"; "why"; "with"; "you"; "your"; "yours"; "yourself";
  "yourselves"; "according"; "across"; "describe"; "described"; "does";
  "effect"; "find"; "findings"; "key"; "main"; "role"; "say"; "suggest";
  "what"; "associated"; "evidence"; "corpus"
].

(** *** Citation verification *)

Definition _resolve_chunk_id `{SetOrder} (raw_id : string)
    (retrieved_ids : gset string) : option string :=
  if bool_decide (raw_id ∈ retrieved_ids) then Some raw_id
  else
    List.find
      (fun rid => endswith rid ("__" +:+ raw_id) || endswith rid raw_id)
      (set_iter retrieved_ids).

(** the loop of [verify_citations]: the lists [valid] and [removed] *)
Fixpoint partition_citations `{SetOrder} (retrieved_ids : gset string)
    (cites : list Citation.t) : list Citation.t * list Citation.t :=
  match cites with
  | [] => ([], [])
  | cite :: rest =>
      let '(valid, removed) := partition_citations retrieved_ids rest in
      match _resolve_chunk_id (Citation.chunk_id cite) retrieved_ids with
      | Some resolved =>
          if truthy resolved
          then (Citation.set_chunk_id cite resolved :: valid, removed)
          else (valid, cite :: removed)
      | None => (valid, cite :: removed)
      end
  end.

Definition removed_caveat (removed : list Citation.t) : string :=
  "Removed " +:+ of_nat (length removed) +:+ " unverified citation(s): "
    +:+ repr_list (map Citation.chunk_id removed).

(** [if response.confidence == "high": response.confidence = "medium"] *)
Definition downgrade (response : RAGResponse.t) : RAGResponse.t :=
  if String.eqb (RAGResponse.confidence response) "high"
  then RAGResponse.set_confidence response "medium"
  else response.

Definition verify_citations `{SetOrder} {F} (response : RAGResponse.t)
    (retrieval : RetrievalResult.t F) : RAGResponse.t :=
  let retrieved_ids := RetrievalResult.chunk_ids retrieval in
  let '(valid, removed) :=
    partition_citations retrieved_ids (RAGResponse.citations response) in
  let response :=
    match removed with
    | [] => response
    | _ :: _ => downgrade (RAGResponse.append_caveat response (removed_caveat removed))
    end in
  RAGResponse.set_citations response valid.

(** *** Topic presence check *)

(** [[A-Za-z0-9α-ωΑ-Ω][\w\-/]*]; the two Greek ranges lie above code
    point 255 and have no member in Latin-1 text *)
Definition token_pattern : regex :=
  Cat (CharIn (fun c => is_AZ c || is_az c || is_digit c))
      (Star (CharIn (fun c => is_word c || one_of "-/" c))).

Definition _extract_query_keywords (query : string) : gset string :=
  fold_left
    (fun keywords tok =>
       let low := lower tok in
       if negb (bool_decide (low ∈ _STOP_WORDS)) && (3 <=? len low)%nat
       then keywords ∪ {[ low ]} else keywords)
    (findall token_pattern query) ∅.

Definition topic_presence_check {F} (query : string)
    (chunks : list (RetrievedChunk.t F)) (min_keyword_hits : Z) : bool :=
  let keywords := _extract_query_keywords query in
  if bool_decide (keywords = ∅) then true
  else
    let context_lower := join " " (map (fun c => lower (RetrievedChunk.text c)) chunks) in
    let hits :=
      length (List.filter (fun kw => contains kw context_lower) (elements keywords)) in
    let threshold :=
      Z.min min_keyword_hits (Z.max 1 (Z.of_nat (size keywords) / 3)) in
    (threshold <=? Z.of_nat hits)%Z.

(** *** Post-generation entity check *)

Definition digits : regex := Plus (CharIn is_digit).

(** [\d+[\.\,]?\d*] *)
Definition number : regex :=
  Cat digits (Cat (Opt (CharIn (one_of ".,"))) (Star (CharIn is_digit))).

(** [(?:mg|kg|ml|min|hour|week|year|day|month)] *)
Definition unit_names : regex :=
  Alt (ILit "mg") (Alt (ILit "kg") (Alt (ILit "ml") (Alt (ILit "min")
    (Alt (ILit "hour") (Alt (ILit "week") (Alt (ILit "year")
      (Alt (ILit "day") (ILit "month")))))))).

(** the percent sign and the degree sign (code point 176) *)
Definition is_percent_or_degree (c : ascii) : bool :=
  one_of "%" c || is_code 176 c.

(** the three alternatives of [_NUMBER_PATTERN], compiled with
    [re.IGNORECASE] *)
Definition _NUMBER_PATTERN : regex :=
  Alt (Cat WordB (Cat number (Cat (Star (CharIn is_space)) (CharIn is_percent_or_degree))))
 (Alt (Cat WordB (Cat number (Cat (Star (CharIn is_space)) (Cat unit_names WordB))))
      (Cat WordB (Cat number (Cat (CharIn (one_of "-")) (Cat number WordB))))).

Definition is_AZ09 (c : ascii) : bool := is_AZ c || is_digit c.

(** [\b[A-Z][A-Z0-9]{1,}[-/]?[A-Z0-9α-ω]*\b] *)
Definition _GENE_PATTERN : regex :=
  Cat WordB (Cat (CharIn is_AZ) (Cat (Plus (CharIn is_AZ09))
    (Cat (Opt (CharIn (one_of "-/"))) (Cat (Star (CharIn is_AZ09)) WordB)))).

(** [[A-Z][a-z]+] *)
Definition capitalised : regex := Cat (CharIn is_AZ) (Plus (CharIn is_az)).

(** [\b(?:[A-Z][a-z]+(?:\s+[A-Z][a-z]+)+)\b] *)
Definition _PROPER_NOUN_PATTERN : regex :=
  Cat WordB
    (Cat (Cat capitalised (Plus (Cat (Plus (CharIn is_space)) capitalised))) WordB).

Definition common_abbreviations : gset string := list_to_set [
  "NOT"; "AND"; "BUT"; "THE"; "FOR"; "ARE"; "WAS"; "HAS"; "HAD"; "ALL";
  "CAN"; "MAY"; "USE"; "SET"
].

Definition _extract_entities (text : string) : gset string :=
  let entities : gset string :=
    fold_left (fun ents m => ents ∪ {[ strip m ]}) (findall _NUMBER_PATTERN text) ∅ in
  let entities :=
    fold_left
      (fun ents m =>
         let val := strip m in
         if (3 <=? len val)%nat && negb (bool_decide (val ∈ common_abbreviations))
         then ents ∪ {[ val ]} else ents)
      (findall _GENE_PATTERN text) entities in
  fold_left (fun ents m => ents ∪ {[ strip m ]})
    (findall _PROPER_NOUN_PATTERN text) entities.

(** the entities of the answer found neither literally nor lower-cased
    in the context *)
Definition ungrounded_entities (answer context_text : string) : gset string :=
  let context_lower := lower context_text in
  list_to_set
    (List.filter
       (fun ent => negb (contains ent context_text)
                   && negb (contains (lower ent) context_lower))
       (elements (_extract_entities answer))).

(** [(?<=[.!?])\s+] *)
Definition sentence_break : regex :=
  Cat (Behind (one_of ".!?")) (Plus (CharIn is_space)).

(** whether [sentence_ungrounded] is non-empty *)
Definition mentions_ungrounded (ungrounded : gset string) (sentence : string) : bool :=
  existsb
    (fun ent => contains ent sentence || contains (lower ent) (lower sentence))
    (elements ungrounded).

(** one iteration of the loop over the lines: the sentences of the
    line that are stripped, and what the line adds to [kept_lines] *)
Definition strip_line (ungrounded : gset string) (line : string)
    : list string * list string :=
  let sentences := Re.split sentence_break line in
  let stripped :=
    map strip (List.filter (mentions_ungrounded ungrounded) sentences) in
  let kept_in_line :=
    List.filter (fun s => negb (mentions_ungrounded ungrounded s)) sentences in
  let kept :=
    match kept_in_line with
    | _ :: _ => [join " " kept_in_line]
    | [] => if String.eqb (strip line) "" then [""] else []
    end in
  (stripped, kept).

(** the whole loop: [(stripped_sentences, kept_lines)] *)
Definition strip_sentences (ungrounded : gset string) (answer : string)
    : list string * list string :=
  let per_line := map (strip_line ungrounded) (split_on (ascii_of_nat 10) answer) in
  (concat (map fst per_line), concat (map snd per_line)).

(** [sorted(ungrounded)[:5]] as it is printed *)
Definition first_terms (ungrounded : gset string) : string :=
  repr_list (slice_to 5 (sorted (elements ungrounded))).

Definition removed_sentences_caveat (stripped_sentences : list string)
    (ungrounded : gset string) : string :=
  "Entity guard: removed " +:+ of_nat (length stripped_sentences)
    +:+ " sentence(s) containing terms not found in context: "
    +:+ first_terms ungrounded.

Definition flagged_terms_caveat (ungrounded : gset string) : string :=
  "Entity check: " +:+ of_nat (size ungrounded)
    +:+ " term(s) in the answer may not appear in the retrieved context: "
    +:+ first_terms ungrounded.

(** [len(cleaned_answer) >= len(response.answer) * 0.3] *)
Definition keeps_enough (cleaned_answer answer : string) : bool :=
  Binary64.int_ge (len cleaned_answer)
    (Binary64.mul (Binary64.of_nat (len answer)) Binary64.lit_0_3).

Definition entity_check (response : RAGResponse.t) (context_text : string)
    : RAGResponse.t :=
  if RAGResponse.no_evidence response then response
  else
    let answer_entities := _extract_entities (RAGResponse.answer response) in
    if bool_decide (answer_entities = ∅) then response
    else
      let ungrounded := ungrounded_entities (RAGResponse.answer response) context_text in
      if bool_decide (ungrounded = ∅) then response
      else
        let '(stripped_sentences, kept_lines) :=
          strip_sentences ungrounded (RAGResponse.answer response) in
        match stripped_sentences with
        | [] => response
        | _ :: _ =>
            let cleaned_answer := strip (join (String (ascii_of_nat 10) "") kept_lines) in
            let response :=
              if keeps_enough cleaned_answer (RAGResponse.answer response)
              then
                RAGResponse.append_caveat
                  (RAGResponse.set_answer response cleaned_answer)
                  (removed_sentences_caveat stripped_sentences ungrounded)
              else
                RAGResponse.append_caveat response (flagged_terms_caveat ungrounded) in
            downgrade response
        end.

End Guardrails.

(** ** External data *)

(** A langchain [Document] as the retriever reads it: [page_content] and
    the keys of [metadata].  [metadata["chunk_id"]] is read with a plain
    subscript, the other keys with [.get(key, default)]. *)
Module Document.
Record t : Type := mk {
  page_content : string;
  chunk_id : string;
  source_id : option string;
  section : option string;
  page_start : option Z;
  page_end : option Z
}.
End Document.

(** One line of [chunks.jsonl], a value of [_chunk_index]; every key is
    read with [.get(key, default)]. *)
Module StoredChunk.
Record t : Type := mk {
  source_id : option string;
  section : option string;
  page_start : option Z;
  page_end : option Z;
  text : option string
}.
End StoredChunk.

(** ** Hybrid retriever ([src/rag/retriever.py]) *)

Module HybridRetriever.
Import PyStr.

Section WithFloat.
Context {F : Type} `{PyFloat F} `{SetOrder}.

Record t : Type := mk {
  config : Config.t F;
  (** [vectorstore.similarity_search_with_score(query, k)] *)
  vectorstore : string -> Z -> list (Document.t * F);
  (** [bm25_retriever.invoke(query)] *)
  bm25_retriever : string -> list Document.t;
  _chunk_index : gmap string StoredChunk.t
}.

(** step 1: FAISS distances to similarities *)
Definition vector_scored (vector_results : list (Document.t * F))
    : gmap string (Document.t * F) :=
  fold_left
    (fun scored '(doc, dist) =>
       let cid := Document.chunk_id doc in
       let sim := fdiv f1 (fadd f1 dist) in
       <[cid := (doc, sim)]> scored)
    vector_results ∅.

(** [enumerate(xs)] *)
Definition enumerate {A} (xs : list A) : list (nat * A) :=
  combine (seq 0 (length xs)) xs.

(** step 2: BM25 ranks to scores *)
Definition bm25_scored (bm25_results : list Document.t)
    : gmap string (Document.t * F) :=
  fold_left
    (fun scored '(rank, doc) =>
       let cid := Document.chunk_id doc in
       let score := fdiv f1 (f_of_nat (rank + 1)) in
       <[cid := (doc, score)]> scored)
    (enumerate bm25_results) ∅.

(** the body of the fusion loop; [None] stands for the attribute
    error on [doc = None], which no member of [all_ids] meets *)
Definition fuse_one (vw bw : F) (vs bs : gmap string (Document.t * F))
    (cid : string) : option (RetrievedChunk.t F) :=
  let '(vec_doc, vec_score) :=
    match vs !! cid with Some (d, s) => (Some d, s) | None => (None, f0) end in
  let '(bm25_doc, bm25_score) :=
    match bs !! cid with Some (d, s) => (Some d, s) | None => (None, f0) end in
  let combined := fadd (fmul vw vec_score) (fmul bw bm25_score) in
  let doc := match vec_doc with Some d => Some d | None => bm25_doc end in
  match doc with
  | Some doc =>
      Some (RetrievedChunk.mk cid
              (default "" (Document.source_id doc))
              (default "" (Document.section doc))
              (default 0%Z (Document.page_start doc))
              (default 0%Z (Document.page_end doc))
              (Document.page_content doc)
              vec_score bm25_score combined)
  | None => None
  end.

Definition combined_lt (a b : RetrievedChunk.t F) : bool :=
  flt (RetrievedChunk.combined_score a) (RetrievedChunk.combined_score b).

(** steps 1 to 3: the list [fused], sorted *)
Definition fuse (vw bw : F) (vector_results : list (Document.t * F))
    (bm25_results : list Document.t) : list (RetrievedChunk.t F) :=
  let vs := vector_scored vector_results in
  let bs := bm25_scored bm25_results in
  let all_ids := dom vs ∪ dom bs in
  let fused := omap (fuse_one vw bw vs bs) (set_iter all_ids) in
  sort_desc combined_lt fused.

Definition retrieve (self : t) (query : string)
    (vector_weight bm25_weight : option F) (top_k : option Z)
    : RetrievalResult.t F :=
  let vw := default (Config.vector_weight (config self)) vector_weight in
  let bw := default (Config.bm25_weight (config self)) bm25_weight in
  let k := default (Config.rerank_candidates (config self)) top_k in
  let vector_results := vectorstore self query (Config.vector_k (config self)) in
  let bm25_results := bm25_retriever self query in
  let fused := fuse vw bw vector_results bm25_results in
  (* 4. Apply similarity threshold *)
  let above :=
    List.filter
      (fun c => fge (RetrievedChunk.vector_score c)
                    (Config.similarity_threshold (config self)))
      fused in
  (* 5. Take top-k *)
  let final := slice_to k above in
  RetrievalResult.mk query final (length fused) (length above)
    (0 <? length final)%nat.

(** *** Chunk expansion *)

Definition _parse_chunk_id (chunk_id : string) : option (string * string * Z) :=
  match rsplit "__" 2 chunk_id with
  | [p0; p1; p2] =>
      match int_of p2 with
      | Some n => Some (p0, p1, n)
      | None => None
      end
  | _ => None
  end.

(** [range(lo, hi)] *)
Definition range (lo hi : Z) : list Z :=
  map (fun i => (lo + Z.of_nat i)%Z) (seq 0 (Z.to_nat (hi - lo))).

(** the body of the loop over the offsets; the state is
    [(existing_ids, expanded)] *)
Definition add_neighbour (index : gmap string StoredChunk.t)
    (chunk : RetrievedChunk.t F) (source_id section : string) (num : Z)
    (st : gset string * list (RetrievedChunk.t F)) (offset : Z)
    : gset string * list (RetrievedChunk.t F) :=
  let '(existing_ids, expanded) := st in
  if (offset =? 0)%Z then st
  else
    let adj_id := source_id +:+ "__" +:+ section +:+ "__" +:+ format_03d (num + offset) in
    if bool_decide (adj_id ∈ existing_ids) then st
    else
      match index !! adj_id with
      | None => st
      | Some adj_data =>
          let neighbour :=
            RetrievedChunk.mk adj_id
              (default source_id (StoredChunk.source_id adj_data))
              (default section (StoredChunk.section adj_data))
              (default 0%Z (StoredChunk.page_start adj_data))
              (default 0%Z (StoredChunk.page_end adj_data))
              (default "" (StoredChunk.text adj_data))
              (fmul (RetrievedChunk.vector_score chunk) f08)
              f0
              (fmul (RetrievedChunk.combined_score chunk) f08) in
          (existing_ids ∪ {[ adj_id ]}, expanded ++ [neighbour])
      end.

(** the loop over [retrieval.chunks], with its [continue] and [break] *)
Fixpoint expand_loop (self : t) (todo : list (RetrievedChunk.t F))
    (st : gset string * list (RetrievedChunk.t F))
    : gset string * list (RetrievedChunk.t F) :=
  match todo with
  | [] => st
  | chunk :: rest =>
      match _parse_chunk_id (RetrievedChunk.chunk_id chunk) with
      | None => expand_loop self rest st
      | Some (source_id, section, num) =>
          let w := Config.chunk_expand_window (config self) in
          let st' :=
            fold_left (add_neighbour (_chunk_index self) chunk source_id section num)
              (range (- w) (w + 1)) st in
          if (Config.max_chunks_after_expand (config self) <=? Z.of_nat (length (snd st')))%Z
          then st'
          else expand_loop self rest st'
      end
  end.

Definition expand_chunks (self : t) (retrieval : RetrievalResult.t F)
    : RetrievalResult.t F :=
  if bool_decide (_chunk_index self = ∅)
     || (Config.chunk_expand_window (config self) <=? 0)%Z
  then retrieval
  else
    let existing_ids := RetrievalResult.chunk_ids retrieval in
    let expanded := RetrievalResult.chunks retrieval in
    let '(_, expanded) :=
      expand_loop self (RetrievalResult.chunks retrieval) (existing_ids, expanded) in
    RetrievalResult.set_chunks retrieval
      (slice_to (Config.max_chunks_after_expand (config self)) expanded).

End WithFloat.
Arguments t : clear implicits.
End HybridRetriever.

(** ** LLM reranker ([src/rag/reranker.py]) *)

Module ChunkScore.
Record t : Type := mk { chunk_id : string; relevance : Z }.
End ChunkScore.

Module LLMReranker.
Import PyStr.

Definition newline : string := String (ascii_of_nat 10) "".

(** [RERANK_PROMPT.format(query=query, passages=passages)] *)
Definition RERANK_PROMPT (query passages : string) : string :=
  "You are a relevance judge for a research retrieval system.

Given the QUERY and a set of candidate PASSAGES, rate each passage's relevance
to the query on a scale of 0-10:
  10 = directly and specifically answers the query
   7 = contains relevant information but not a direct answer
   4 = tangentially related to the topic
   1 = mentions a keyword but is otherwise irrelevant
   0 = completely irrelevant

QUERY: " +:+ query +:+ "

PASSAGES:
" +:+ passages +:+ "

Return a relevance score for EVERY passage listed above.".

Section WithFloat.
Context {F : Type} `{PyFloat F}.

(** the structured-output call [self.llm.invoke(prompt)]: the scores
    of the response, or [None] when the call or the reading of its
    result raises *)
Definition t : Type := string -> option (list ChunkScore.t).

Definition passage_line (c : RetrievedChunk.t F) : string :=
  let preview :=
    replace_char (ascii_of_nat 10) " "%char
      (str_slice_to 400 (RetrievedChunk.text c)) in
  "[" +:+ RetrievedChunk.chunk_id c +:+ "]: " +:+ preview.

Definition build_prompt (query : string) (chunks : list (RetrievedChunk.t F)) : string :=
  RERANK_PROMPT query (join (newline +:+ newline) (map passage_line chunks)).

(** [{s.chunk_id: s.relevance for s in result.scores}] *)
Definition score_map (scores : list ChunkScore.t) : gmap string Z :=
  fold_left
    (fun m s => <[ChunkScore.chunk_id s := ChunkScore.relevance s]> m)
    scores ∅.

(** the first component of the sort key *)
Definition relevance_of (m : gmap string Z) (c : RetrievedChunk.t F) : Z :=
  default 0%Z (m !! RetrievedChunk.chunk_id c).

(** [<] on the keys [(score_map.get(c.chunk_id, 0), c.combined_score)]:
    tuples compare at their first differing component *)
Definition key_lt (m : gmap string Z) (a b : RetrievedChunk.t F) : bool :=
  if negb (relevance_of m a =? relevance_of m b)%Z
  then (relevance_of m a <? relevance_of m b)%Z
  else if feq (RetrievedChunk.combined_score a) (RetrievedChunk.combined_score b)
       then false
       else flt (RetrievedChunk.combined_score a) (RetrievedChunk.combined_score b).

(** [rerank] returns the list and, beside it, the prompts that were
    sent to the service *)
Definition rerank (self : t) (query : string) (chunks : list (RetrievedChunk.t F))
    : list (RetrievedChunk.t F) * list string :=
  if (length chunks <=? 1)%nat then (chunks, [])
  else
    let prompt := build_prompt query chunks in
    match self prompt with
    | None => (chunks, [prompt])
    | Some scores => (sort_desc (key_lt (score_map scores)) chunks, [prompt])
    end.

End WithFloat.
End LLMReranker.

(** ** Generator ([src/rag/generator.py]) *)

Module RAGGenerator.

Section WithFloat.
Context {F : Type}.

(** [structured_llm.invoke(messages)]: the messages are the query and
    the system prompt filled with the rendering of [retrieval.chunks];
    the service is given the retrieval result itself *)
Definition t : Type := string -> RetrievalResult.t F -> RAGResponse.t.

Definition generate (self : t) (query : string) (retrieval : RetrievalResult.t F)
    : RAGResponse.t :=
  if negb (RetrievalResult.has_sufficient_evidence retrieval) then
    RAGResponse.mk
      "I could not find sufficient evidence in the research corpus to answer this question.  You may want to expand the corpus or try rephrasing the query."
      [] "low" "No chunks met the similarity threshold." true []
  else self query retrieval.

End WithFloat.
End RAGGenerator.

(** ** Pipeline ([src/rag/pipeline.py]) *)

Module RAGPipeline.
Import PyStr Guardrails.

Section WithFloat.
Context {F : Type} `{PyFloat F} `{SetOrder}.

Record t : Type := mk {
  retriever : HybridRetriever.t F;
  reranker : LLMReranker.t;
  generator : @RAGGenerator.t F
}.

Definition config (self : t) : Config.t F := HybridRetriever.config (retriever self).

(** [reason or "..."] takes the default for [None] and for the empty
    string *)
Definition _no_evidence_response (reason : option string) : RAGResponse.t :=
  RAGResponse.mk
    (match reason with
     | Some r =>
         if truthy r then r
         else "I could not find sufficient evidence in the research corpus to answer this question.  You may want to expand the corpus or try rephrasing the query."
     | None =>
         "I could not find sufficient evidence in the research corpus to answer this question.  You may want to expand the corpus or try rephrasing the query."
     end)
    [] "low" "Insufficient evidence in retrieved context." true [].

Definition gate_reason : string :=
  "The retrieved passages do not appear to cover the key concepts in your query.  The corpus may not contain relevant information on this topic.".

(** What one call of [query] leaves behind: the response, the value of
    [_last_retrieval], and the retrieval result handed to
    [generator.generate] when generation was reached. *)
Record run : Type := mk_run {
  response : RAGResponse.t;
  _last_retrieval : RetrievalResult.t F;
  generated_from : option (RetrievalResult.t F)
}.

Definition query (self : t) (question : string)
    (vector_weight bm25_weight : option F) : run :=
  (* 1. Retrieve *)
  let retrieval :=
    HybridRetriever.retrieve (retriever self) question vector_weight bm25_weight None in
  if negb (RetrievalResult.has_sufficient_evidence retrieval) then
    mk_run (_no_evidence_response None) retrieval None
  else
    (* 2. Rerank and keep top final_k *)
    let retrieval :=
      RetrievalResult.set_chunks retrieval
        (fst (LLMReranker.rerank (reranker self) question
                (RetrievalResult.chunks retrieval))) in
    let retrieval :=
      RetrievalResult.set_chunks retrieval
        (slice_to (Config.final_k (config self)) (RetrievalResult.chunks retrieval)) in
    (* 3. Expand with adjacent chunks *)
    let retrieval := HybridRetriever.expand_chunks (retriever self) retrieval in
    (* 4. Topic presence check *)
    if negb (topic_presence_check question (RetrievalResult.chunks retrieval) 2) then
      let retrieval := RetrievalResult.set_has_sufficient_evidence retrieval false in
      mk_run (_no_evidence_response (Some gate_reason)) retrieval None
    else
      (* 5. Generate *)
      let response := RAGGenerator.generate (generator self) question retrieval in
      (* 6. Citation verification *)
      let response := verify_citations response retrieval in
      (* 7. Entity check *)
      let context_text :=
        join LLMReranker.newline (map RetrievedChunk.text (RetrievalResult.chunks retrieval)) in
      let response := entity_check response context_text in
      mk_run response retrieval (Some retrieval).

End WithFloat.
Arguments t : clear implicits.
Arguments run : clear implicits.
End RAGPipeline.

(** ** Evaluation metrics ([src/eval/evaluator.py]) *)

Module Evaluator.

Section WithFloat.
Context {F : Type} `{PyFloat F} `{SetOrder}.

(** [sum(1 for c in response.citations if c.chunk_id in retrieved_ids)] *)
Definition valid_citations (response : RAGResponse.t) (retrieved_ids : gset string)
    : nat :=
  length (List.filter (fun c => bool_decide (Citation.chunk_id c ∈ retrieved_ids))
            (RAGResponse.citations response)).

(** [valid / len(response.citations)] divides two [int]s into a float;
    both are lengths of lists, which a float holds exactly, so the
    quotient is the float division of the converted operands *)
Definition citation_precision (response : RAGResponse.t) (retrieved_ids : gset string)
    : F :=
  match RAGResponse.citations response with
  | [] => if RAGResponse.no_evidence response then f1 else f0
  | _ :: _ =>
      fdiv (f_of_nat (valid_citations response retrieved_ids))
           (f_of_nat (length (RAGResponse.citations response)))
  end.

Definition no_evidence_accuracy (response : RAGResponse.t)
    (expected_no_evidence : bool) : bool :=
  Bool.eqb (RAGResponse.no_evidence response) expected_no_evidence.

(** The scores [cp] and [ne_acc] of [evaluate_single]: the query is run,
    and the response is scored against the chunks that the run left in
    [_last_retrieval].  [expected_no_evidence] is the value read from
    [query_info], [False] when the key is missing. *)
Definition evaluate_single (pipeline : RAGPipeline.t F) (question : string)
    (expected_no_evidence : bool) (vector_weight bm25_weight : option F) : F * bool :=
  let run := RAGPipeline.query pipeline question vector_weight bm25_weight in
  let response := RAGPipeline.response run in
  let retrieval := RAGPipeline._last_retrieval run in
  let retrieved_ids := RetrievalResult.chunk_ids retrieval in
  let cp := citation_precision response retrieved_ids in
  let ne_acc := no_evidence_accuracy response expected_no_evidence in
  (cp, ne_acc).

End WithFloat.
End Evaluator.

(** ** Instances *)

(** The order of [elements] is one iteration order. *)
Definition elements_order : SetOrder :=
  {| set_iter := elements; set_iter_perm := fun s => Permutation_refl (elements s) |}.

(** Exact rational arithmetic is one model of the float interface; the
    examples are computed in it. *)
Module QFloat.
Import QArith_base.

Definition lt (a b : Q) : bool := negb (Qle_bool b a).
Definition ge (a b : Q) : bool := Qle_bool b a.

Definition lt_ge (a b : Q) : lt a b = true -> ge a b = false :=
  fun h => proj1 (negb_true_iff (Qle_bool b a)) h.

Definition instance : PyFloat Q :=
  {| f0 := Qmake 0 1;
     f1 := Qmake 1 1;
     f08 := Qmake 4 5;
     f_of_nat := fun n => inject_Z (Z.of_nat n);
     fadd := fun a b => Qreduction.Qred (Qplus a b);
     fmul := fun a b => Qreduction.Qred (Qmult a b);
     fdiv := fun a b => Qreduction.Qred (Qdiv a b);
     flt := lt;
     fge := ge;
     feq := Qeq_bool;
     flt_fge := lt_ge |}.
End QFloat.

(** ** Vocabulary of the specification *)

Module Spec.
Import PyStr Guardrails.

Section WithFloat.
Context {F : Type} `{PyFloat F}.

(** the distance the semantic index reports for [cid]; an identifier
    listed more than once counts at its last position *)
Fixpoint distance_of (cid : string) (vector_results : list (Document.t * F))
    : option F :=
  match vector_results with
  | [] => None
  | (doc, dist) :: rest =>
      match distance_of cid rest with
      | Some d => Some d
      | None => if String.eqb (Document.chunk_id doc) cid then Some dist else None
      end
  end.

(** the 0-indexed rank of [cid] in the lexical list, counted from
    [rank]; an identifier listed more than once counts at its last
    position *)
Fixpoint rank_from (rank : nat) (cid : string) (bm25_results : list Document.t)
    : option nat :=
  match bm25_results with
  | [] => None
  | doc :: rest =>
      match rank_from (S rank) cid rest with
      | Some r => Some r
      | None => if String.eqb (Document.chunk_id doc) cid then Some rank else None
      end
  end.

Definition rank_of : string -> list Document.t -> option nat := rank_from 0.

(** [sim = 1 / (1 + distance)] in the semantic list, 0 otherwise *)
Definition sim_of (vector_results : list (Document.t * F)) (cid : string) : F :=
  match distance_of cid vector_results with
  | Some dist => fdiv f1 (fadd f1 dist)
  | None => f0
  end.

(** [lex_score = 1 / (rank + 1)] in the lexical list, 0 otherwise *)
Definition lex_of (bm25_results : list Document.t) (cid : string) : F :=
  match rank_of cid bm25_results with
  | Some rank => fdiv f1 (f_of_nat (rank + 1))
  | None => f0
  end.

Definition semantic_ids (vector_results : list (Document.t * F)) : list string :=
  map (fun p => Document.chunk_id (fst p)) vector_results.

Definition lexical_ids (bm25_results : list Document.t) : list string :=
  map Document.chunk_id bm25_results.

(** the lower-cased chunk texts, joined by single spaces *)
Definition gate_context (chunks : list (RetrievedChunk.t F)) : string :=
  join " " (map (fun c => lower (RetrievedChunk.text c)) chunks).

End WithFloat.

(** the keywords of the evidence gate, in the words of the
    specification: tokenise, lower-case, remove the stop words, drop the
    tokens shorter than 3 characters *)
Definition gate_keywords (query : string) : gset string :=
  list_to_set
    (List.filter (fun low => (3 <=? len low)%nat)
       (List.filter (fun low => negb (bool_decide (low ∈ _STOP_WORDS)))
          (map lower (Re.findall token_pattern query)))).

(** the distinct keywords that occur in the context *)
Definition gate_hits (keywords : gset string) (context : string) : nat :=
  size (filter (fun kw => contains kw context = true) keywords).

(** what the entity check computes on the way: the ungrounded terms,
    the sentences that contain one, the answer without them *)
Definition ungrounded_of (response : RAGResponse.t) (context_text : string) : gset string :=
  ungrounded_entities (RAGResponse.answer response) context_text.

Definition stripped_sentences_of (response : RAGResponse.t) (context_text : string)
    : list string :=
  fst (strip_sentences (ungrounded_of response context_text) (RAGResponse.answer response)).

Definition cleaned_answer_of (response : RAGResponse.t) (context_text : string) : string :=
  strip (join (String (ascii_of_nat 10) "")
           (snd (strip_sentences (ungrounded_of response context_text)
                   (RAGResponse.answer response)))).

(** what the filter returns once a sentence with an ungrounded term
    has been found *)
Definition after_detection (response : RAGResponse.t) (context_text : string)
    : RAGResponse.t :=
  downgrade
    (if keeps_enough (cleaned_answer_of response context_text) (RAGResponse.answer response)
     then
       RAGResponse.append_caveat
         (RAGResponse.set_answer response (cleaned_answer_of response context_text))
         (removed_sentences_caveat (stripped_sentences_of response context_text)
            (ungrounded_of response context_text))
     else
       RAGResponse.append_caveat response
         (flagged_terms_caveat (ungrounded_of response context_text))).

(** the relevance order of a reranked list *)
Definition by_relevance {F} (m : gmap string Z) (a b : RetrievedChunk.t F) : Prop :=
  (LLMReranker.relevance_of m b <= LLMReranker.relevance_of m a)%Z.

End Spec.

(** ** Vocabulary of the chunk expander *)

Module Expansion.
Import PyStr.

Section WithFloat.
Context {F : Type} `{PyFloat F}.

(** [c] is a chunk that the expander adds next to [parent]: its
    identifier is the one of [parent] with the number moved by an offset
    within the window, the offset 0 excluded; the data come from the chunk
    store, the scores from [parent] at 0.8, the lexical score is 0 *)
Definition neighbour (self : HybridRetriever.t F) (parent c : RetrievedChunk.t F) : Prop :=
  exists (source_id section : string) (num offset : Z) (adj_data : StoredChunk.t),
    HybridRetriever._parse_chunk_id (RetrievedChunk.chunk_id parent)
      = Some (source_id, section, num) /\
    offset <> 0%Z /\
    (- Config.chunk_expand_window (HybridRetriever.config self) <= offset
     <= Config.chunk_expand_window (HybridRetriever.config self))%Z /\
    HybridRetriever._chunk_index self !! RetrievedChunk.chunk_id c = Some adj_data /\
    c = RetrievedChunk.mk
          (source_id +:+ "__" +:+ section +:+ "__" +:+ format_03d (num + offset))
          (default source_id (StoredChunk.source_id adj_data))
          (default section (StoredChunk.section adj_data))
          (default 0%Z (StoredChunk.page_start adj_data))
          (default 0%Z (StoredChunk.page_end adj_data))
          (default "" (StoredChunk.text adj_data))
          (fmul (RetrievedChunk.vector_score parent) f08)
          f0
          (fmul (RetrievedChunk.combined_score parent) f08).

(** what the expander may return for [originals]: an original, or a
    neighbour of an original under an identifier no original has *)
Definition expanded_from (self : HybridRetriever.t F)
    (originals : list (RetrievedChunk.t F)) (c : RetrievedChunk.t F) : Prop :=
  c ∈ originals \/
  ((RetrievedChunk.chunk_id c ∉ map RetrievedChunk.chunk_id originals) /\
   exists parent, parent ∈ originals /\ neighbour self parent c).

(** the invariant of the loop of [expand_chunks] on its state
    [(existing_ids, expanded)] *)
Definition invariant (self : HybridRetriever.t F)
    (originals : list (RetrievedChunk.t F))
    (st : gset string * list (RetrievedChunk.t F)) : Prop :=
  fst st = list_to_set (map RetrievedChunk.chunk_id (snd st)) /\
  (forall c, c ∈ originals -> RetrievedChunk.chunk_id c ∈ fst st) /\
  (NoDup (map RetrievedChunk.chunk_id originals) ->
   NoDup (map RetrievedChunk.chunk_id (snd st))) /\
  Forall (expanded_from self originals) (snd st).

End WithFloat.
End Expansion.

(** ** A small corpus for the examples *)

Module Demo.
Import QArith_base.

#[local] Existing Instance QFloat.instance.
#[local] Existing Instance elements_order.

Definition config : Config.t Q :=
  Config.mk 10 10 10 6 (Qmake 1 4) (Qmake 3 5) (Qmake 2 5) 1 10.

Definition doc1 : Document.t :=
  Document.mk "Sirtuin activation extends lifespan in mice."
    "cells_2022__body__001" (Some "cells_2022") (Some "body") (Some 1%Z) (Some 2%Z).

(** found by the lexical index only *)
Definition doc2 : Document.t :=
  Document.mk "Lifespan of batteries." "volt_2019__intro__004"
    (Some "volt_2019") (Some "intro") (Some 1%Z) (Some 1%Z).

Definition stored2 : StoredChunk.t :=
  StoredChunk.mk (Some "cells_2022") (Some "body") (Some 2%Z) (Some 3%Z)
    (Some "Sirtuin dosage is discussed.").

Definition chunk_index : gmap string StoredChunk.t :=
  {[ "cells_2022__body__002" := stored2 ]}.

Definition retriever : HybridRetriever.t Q :=
  HybridRetriever.mk config
    (fun _ _ => [(doc1, Qmake 1 2)])
    (fun _ => [doc1; doc2])
    chunk_index.

Definition cite (source_id chunk_id : string) : Citation.t :=
  Citation.mk source_id chunk_id "".

(** the generator abbreviates one identifier and invents another *)
Definition generated : RAGResponse.t :=
  RAGResponse.mk "Sirtuin activation extends lifespan in mice."
    [cite "cells_2022" "body__001"; cite "ghost_2020" "ghost_2020__body__009"]
    "high" "direct" false [].

Definition pipeline : RAGPipeline.t Q :=
  RAGPipeline.mk retriever (fun _ => None) (fun _ _ => generated).

Definition question : string := "Does sirtuin activation extend lifespan?".

Definition chunk (chunk_id text : string) (score : Q) : RetrievedChunk.t Q :=
  RetrievedChunk.mk chunk_id "src" "body" 1 1 text score score score.

Definition retrieval_of (chunks : list (RetrievedChunk.t Q)) : RetrievalResult.t Q :=
  RetrievalResult.mk "q" chunks (length chunks) (length chunks) true.

(** eleven chunks, one more than the default cap *)
Definition eleven : list (RetrievedChunk.t Q) :=
  map (fun i => chunk ("src__body__" +:+ PyStr.format_03d (Z.of_nat i)) "text" (Qmake 1 2))
      (seq 0 11).

(** expansion switched off by a zero window *)
Definition retriever_no_window : HybridRetriever.t Q :=
  HybridRetriever.mk (Config.mk 10 10 10 6 (Qmake 1 4) (Qmake 3 5) (Qmake 2 5) 0 10)
    (fun _ _ => []) (fun _ => []) chunk_index.

Definition response_of (answer confidence : string) : RAGResponse.t :=
  RAGResponse.mk answer [] confidence "" false [].

(** the semantic index finds [doc1] at distance 2, the lexical index
    finds [doc2] only: the similarity of [doc1] is 1/3, above the floor of
    1/4, and its combined score is 0.6 * 1/3 = 1/5, below it *)
Definition retriever_far : HybridRetriever.t Q :=
  HybridRetriever.mk config
    (fun _ _ => [(doc1, Qmake 2 1)])
    (fun _ => [doc2])
    chunk_index.

Definition far_chunk : RetrievedChunk.t Q :=
  RetrievedChunk.mk "cells_2022__body__001" "cells_2022" "body" 1 2
    "Sirtuin activation extends lifespan in mice."
    (Qmake 1 3) (Qmake 0 1) (Qmake 1 5).

End Demo.

(** * Properties *)

(** ** The text primitives on sample inputs *)

Example number_pattern_sample :
  Re.findall Guardrails._NUMBER_PATTERN
    "took 150 MIN and 31% of 7.2-8.0, 5 Years, 10mg/kg 3 days"
  = ["150 MIN"; "31%"; "7.2-8.0"; "10mg"].
Proof. vm_compute. reflexivity. Qed.

Example gene_pattern_sample :
  Re.findall Guardrails._GENE_PATTERN "PGC-1a and HbA1c SIRT1 A1 AB- X/Y2 ABC-DEF-G"
  = ["PGC-"; "SIRT1"; "A1"; "AB"; "Y2"; "ABC-DEF"].
Proof. vm_compute. reflexivity. Qed.

Example proper_noun_pattern_sample :
  Re.findall Guardrails._PROPER_NOUN_PATTERN
    "The Comprehensive Meta Analysis tool. New York City is"
  = ["The Comprehensive Meta Analysis"; "New York City"].
Proof. vm_compute. reflexivity. Qed.

Example sentence_break_sample :
  Re.split Guardrails.sentence_break "A.  B! C?D. " = ["A."; "B!"; "C?D."; ""].
Proof. vm_compute. reflexivity. Qed.

Example token_pattern_sample :
  Re.findall Guardrails.token_pattern
    "What is the role of mTOR/AMPK-signalling in _aging_ (p53)? 3d"
  = ["What"; "is"; "the"; "role"; "of"; "mTOR/AMPK-signalling"; "in"; "aging_"; "p53"; "3d"].
Proof. vm_compute. reflexivity. Qed.

Example keywords_sample :
  elements (Guardrails._extract_query_keywords
              "What is the role of mTOR/AMPK-signalling in _aging_ (p53)? 3d")
  ≡ₚ ["mtor/ampk-signalling"; "aging_"; "p53"].
Proof. vm_compute. reflexivity. Qed.

Example rsplit_sample :
  PyStr.rsplit "__" 2 "a__b__c__x1" = ["a__b"; "c"; "x1"] /\
  PyStr.rsplit "__" 1 "a___b" = ["a_"; "b"] /\
  PyStr.int_of " +1_0 " = Some 10%Z /\
  PyStr.int_of "1__0" = None /\
  PyStr.format_03d (-5) = "-05".
Proof. vm_compute. repeat split; reflexivity. Qed.

(** [int] converts 4300 digits and refuses 4301, leading zeros counted *)
Example int_limit_sample :
  PyStr.int_of (PyStr.str (repeat "1"%char 4300)) <> None /\
  PyStr.int_of (PyStr.str (repeat "1"%char 4301)) = None /\
  PyStr.int_of (PyStr.zeros 4301) = None /\
  PyStr.int_of ("-" +:+ PyStr.zeros 4299 +:+ "7") = Some (-7)%Z.
Proof.
  split; [vm_compute; discriminate|]. vm_compute. repeat split; reflexivity.
Qed.

Example parse_chunk_id_sample :
  HybridRetriever._parse_chunk_id "cells_2022__body__001" = Some ("cells_2022", "body", 1%Z) /\
  HybridRetriever._parse_chunk_id "cells_2022__body" = None /\
  HybridRetriever._parse_chunk_id "cells_2022__body__x1" = None.
Proof. vm_compute. repeat split; reflexivity. Qed.

Example repr_list_sample : PyStr.repr_list ["a'b"; "x\y"] = "[" +:+ PyStr.repr "a'b" +:+ ", 'x\\y']".
Proof. vm_compute. reflexivity. Qed.

(** [10 * 0.3 == 3.0], and [3 * 0.3 == 0x1.cccccccccccccp-1] *)
Example float_product_sample :
  Binary64.mul (Binary64.of_nat 10) Binary64.lit_0_3
    = Binary64.mk 6755399441055744 (-51) /\
  (6755399441055744 = 3 * 2 ^ 51)%Z /\
  Binary64.mul (Binary64.of_nat 3) Binary64.lit_0_3
    = Binary64.mk 8106479329266892 (-53) /\
  (8106479329266892 = 0x1ccccccccccccc)%Z /\
  Binary64.int_ge 3 (Binary64.mul (Binary64.of_nat 10) Binary64.lit_0_3) = true /\
  Binary64.int_ge 2 (Binary64.mul (Binary64.of_nat 10) Binary64.lit_0_3) = false.
Proof. vm_compute. repeat split; reflexivity. Qed.

(** One query on the small corpus: fusion at weights 0.6 and 0.4, the
    lexical-only candidate filtered out, the neighbour of the kept chunk
    added, the invented citation removed and the abbreviated one
    repaired. *)
Example pipeline_sample :
  let run :=
    @RAGPipeline.query _ QFloat.instance elements_order
      Demo.pipeline Demo.question None None in
  map (fun c => (RetrievedChunk.chunk_id c, RetrievedChunk.combined_score c))
      (RetrievalResult.chunks (RAGPipeline._last_retrieval run))
    = [("cells_2022__body__001", QArith_base.Qmake 4 5);
       ("cells_2022__body__002", QArith_base.Qmake 16 25)] /\
  RetrievalResult.all_candidates (RAGPipeline._last_retrieval run) = 2 /\
  RetrievalResult.above_threshold (RAGPipeline._last_retrieval run) = 1 /\
  map Citation.chunk_id (RAGResponse.citations (RAGPipeline.response run))
    = ["cells_2022__body__001"] /\
  RAGResponse.confidence (RAGPipeline.response run) = "medium" /\
  RAGResponse.caveats (RAGPipeline.response run)
    = ["Removed 1 unverified citation(s): ['ghost_2020__body__009']"].
Proof. vm_compute. repeat split; reflexivity. Qed.

(** ** The float comparison on lengths *)

Section Binary64Facts.
Import Binary64.
Local Open Scope Z_scope.

Lemma round53_small m e : m < 2 ^ 53 -> round53 m e = {| mant := m; expo := e |}.
Proof.
  intros Hm. unfold round53.
  destruct (m <? 2 ^ 53) eqn:E; [reflexivity | apply Z.ltb_ge in E; lia].
Qed.

(** rounding to nearest never crosses a multiple of the unit in the
    last place, and moves by at most half a unit *)
Lemma round53_large m e :
  2 ^ 53 <= m ->
  exists s q',
    round53 m e = {| mant := q'; expo := e + s |} /\
    1 <= s /\ 2 ^ (s + 52) <= m /\
    2 * m - 2 ^ s <= 2 * (q' * 2 ^ s) <= 2 * m + 2 ^ s /\
    (forall k, m <= k * 2 ^ s -> q' <= k).
Proof.
  intros Hm. unfold round53.
  destruct (m <? 2 ^ 53) eqn:E; [apply Z.ltb_lt in E; lia | clear E].
  set (s := Z.log2 m - 52).
  assert (Hlog : 53 <= Z.log2 m) by (apply Z.log2_le_pow2; lia).
  assert (Hs : 1 <= s) by (unfold s; lia).
  assert (Hlo : 2 ^ (s + 52) <= m).
  { unfold s. replace (Z.log2 m - 52 + 52) with (Z.log2 m) by lia.
    apply Z.log2_spec. lia. }
  assert (Hpos : 0 < 2 ^ s) by (apply Z.pow_pos_nonneg; lia).
  assert (Hhalf : 2 ^ s = 2 * 2 ^ (s - 1)).
  { replace s with (Z.succ (s - 1)) at 1 by lia. rewrite Z.pow_succ_r by lia. reflexivity. }
  pose proof (Z.div_mod m (2 ^ s) ltac:(lia)) as Hdm.
  pose proof (Z.mod_pos_bound m (2 ^ s) Hpos) as Hr.
  set (q := m / 2 ^ s) in *. set (r := m mod 2 ^ s) in *.
  set (h := 2 ^ (s - 1)) in *.
  exists s.
  destruct ((h <? r) || ((r =? h) && Z.odd q)) eqn:Eup.
  - exists (q + 1). split; [reflexivity|]. split; [lia|]. split; [exact Hlo|].
    assert (h <= r).
    { apply orb_true_iff in Eup as [Eup|Eup].
      - apply Z.ltb_lt in Eup. lia.
      - apply andb_true_iff in Eup as [Eup _]. apply Z.eqb_eq in Eup. lia. }
    split; [nia|].
    intros k Hk. assert (q * 2 ^ s < k * 2 ^ s) by lia. nia.
  - exists q. split; [reflexivity|]. split; [lia|]. split; [exact Hlo|].
    assert (r <= h).
    { apply orb_false_iff in Eup as [Eup _]. apply Z.ltb_ge in Eup. exact Eup. }
    split; [nia|].
    intros k Hk. nia.
Qed.

(** On lengths up to 2^50 the float test is the exact test
    [3 * n <= 10 * c]. *)
Lemma int_ge_mul_0_3 (c n : nat) :
  Z.of_nat n <= 2 ^ 50 ->
  int_ge c (mul (of_nat n) lit_0_3) = true <-> 3 * Z.of_nat n <= 10 * Z.of_nat c.
Proof.
  intros Hn. unfold of_nat. rewrite round53_small by lia.
  unfold mul, lit_0_3. cbn [mant expo].
  set (N := Z.of_nat n) in *. set (C := Z.of_nat c).
  assert (HN : 0 <= N) by (unfold N; lia).
  assert (HC : 0 <= C) by (unfold C; lia).
  destruct (Z_lt_le_dec (N * 5404319552844595) (2 ^ 53)) as [Hsmall|Hbig].
  - rewrite round53_small by exact Hsmall.
    unfold int_ge. cbn [mant expo]. change (0 <=? 0 + -54) with false.
    change (- (0 + -54)) with 54. fold C. rewrite Z.leb_le. lia.
  - destruct (round53_large (N * 5404319552844595) (0 + -54) Hbig)
      as (s & q' & -> & Hs & Hlo & [Hdn Hup] & Hmono).
    assert (Hpos : 0 < 2 ^ s) by (apply Z.pow_pos_nonneg; lia).
    assert (Hs52 : 2 ^ (s + 52) = 2 ^ s * 2 ^ 52) by (apply Z.pow_add_r; lia).
    assert (HsN : 2 ^ s < 2 * N) by lia.
    assert (Hs54 : s < 54).
    { destruct (Z_lt_le_dec s 54) as [|Hge]; [assumption|].
      assert (2 ^ 54 <= 2 ^ s) by (apply Z.pow_le_mono_r; lia). lia. }
    assert (Hsplit : 2 ^ 54 = 2 ^ (54 - s) * 2 ^ s).
    { rewrite <- Z.pow_add_r by lia. f_equal. lia. }
    unfold int_ge. cbn [mant expo].
    destruct (0 <=? 0 + -54 + s) eqn:E; [apply Z.leb_le in E; lia | clear E].
    replace (- (0 + -54 + s)) with (54 - s) by lia. fold C.
    rewrite Z.leb_le.
    set (T := 2 ^ s) in *. set (U := 2 ^ (54 - s)) in *.
    assert (HU : 0 < U) by (apply Z.pow_pos_nonneg; lia).
    split.
    + intros Hq.
      assert (q' * T <= C * 2 ^ 54) by (rewrite Hsplit; nia).
      lia.
    + intros H3. apply Hmono. rewrite <- Z.mul_assoc, <- Hsplit. lia.
Qed.

End Binary64Facts.

(** ** Strings *)

Section StringFacts.
Import PyStr.

Lemma chars_append (a b : string) : chars (a +:+ b) = chars a ++ chars b.
Proof.
  unfold chars. induction a as [|c a IH]; simpl; [reflexivity | now rewrite IH].
Qed.

Lemma prefix_chars_refl (l : list ascii) : prefix_chars l l = true.
Proof.
  induction l as [|c l IH]; simpl; [reflexivity|].
  rewrite Ascii.eqb_refl. exact IH.
Qed.

Lemma prefix_chars_app_l (a b l : list ascii) :
  prefix_chars (a ++ b) l = true -> prefix_chars a l = true.
Proof.
  revert l. induction a as [|x a IH]; intros l; simpl; [reflexivity|].
  destruct l as [|y l]; [discriminate|].
  intros [-> Hp]%andb_true_iff. simpl. now apply IH.
Qed.

Lemma endswith_refl (s : string) : endswith s s = true.
Proof. apply prefix_chars_refl. Qed.

Lemma endswith_empty (s : string) : endswith s "" = true.
Proof. reflexivity. Qed.

Lemma endswith_longer (s p raw : string) :
  endswith s (p +:+ raw) = true -> endswith s raw = true.
Proof.
  unfold endswith. rewrite chars_append, rev_app_distr. apply prefix_chars_app_l.
Qed.

Lemma truthy_true (s : string) : truthy s = true <-> s <> "".
Proof.
  unfold truthy. rewrite negb_true_iff. split.
  - intros E ->. discriminate.
  - intros Hs. destruct (String.eqb_spec s ""); [contradiction | reflexivity].
Qed.

End StringFacts.

(** ** Citation verifier *)

Section CitationFacts.
Import PyStr Guardrails.

Lemma set_iter_elem `{SetOrder} (ids : gset string) (x : string) :
  x ∈ set_iter ids <-> x ∈ ids.
Proof. rewrite (set_iter_perm ids). apply elem_of_elements. Qed.

Lemma resolve_member `{SetOrder} (raw : string) (ids : gset string) :
  raw ∈ ids -> _resolve_chunk_id raw ids = Some raw.
Proof.
  intros Hin. unfold _resolve_chunk_id. now rewrite bool_decide_eq_true_2.
Qed.

Lemma resolve_some `{SetOrder} (raw rid : string) (ids : gset string) :
  _resolve_chunk_id raw ids = Some rid -> rid ∈ ids /\ endswith rid raw = true.
Proof.
  unfold _resolve_chunk_id. case_bool_decide as Hin.
  - intros [= <-]. split; [exact Hin | apply endswith_refl].
  - intros [Hr Hs]%find_some. split.
    + apply set_iter_elem. now apply list_elem_of_In.
    + apply orb_true_iff in Hs as [Hs|Hs]; [now apply endswith_longer in Hs | exact Hs].
Qed.

Lemma resolve_none `{SetOrder} (raw : string) (ids : gset string) :
  _resolve_chunk_id raw ids = None <->
  forall rid, rid ∈ ids -> rid <> raw /\ endswith rid raw = false.
Proof.
  split.
  - unfold _resolve_chunk_id. case_bool_decide as Hin; [discriminate|].
    intros Hnone rid Hrid. split; [congruence|].
    apply set_iter_elem, list_elem_of_In in Hrid.
    pose proof (find_none _ _ Hnone rid Hrid) as Hf. simpl in Hf.
    now apply orb_false_iff in Hf as [_ Hf].
  - intros Hall. destruct (_resolve_chunk_id raw ids) as [rid|] eqn:E; [|reflexivity].
    apply resolve_some in E as [Hin Hs]. destruct (Hall rid Hin) as [_ Hf]. congruence.
Qed.

(** Every kept citation carries a retrieved, non-empty identifier, and
    nothing but [chunk_id] is rewritten. *)
Lemma partition_valid `{SetOrder} (ids : gset string) (cites : list Citation.t) :
  Forall (fun c => Citation.chunk_id c ∈ ids /\ Citation.chunk_id c <> "")
    (fst (partition_citations ids cites)).
Proof.
  induction cites as [|cite rest IH]; simpl; [constructor|].
  destruct (partition_citations ids rest) as [valid removed]. simpl in IH.
  destruct (_resolve_chunk_id (Citation.chunk_id cite) ids) as [resolved|] eqn:E;
    [|exact IH].
  destruct (truthy resolved) eqn:T; [|exact IH].
  simpl. constructor; [|exact IH]. simpl. split.
  - now apply resolve_some in E as [? _].
  - now apply truthy_true.
Qed.

(** A list of citations with retrieved, non-empty identifiers passes
    unchanged, whatever the iteration order. *)
Lemma partition_fixed `{SetOrder} (ids : gset string) (cites : list Citation.t) :
  Forall (fun c => Citation.chunk_id c ∈ ids /\ Citation.chunk_id c <> "") cites ->
  partition_citations ids cites = (cites, []).
Proof.
  induction 1 as [|cite rest [Hin Hne] _ IH]; simpl; [reflexivity|].
  rewrite IH, (resolve_member _ _ Hin).
  apply truthy_true in Hne. rewrite Hne. now destruct cite.
Qed.

Lemma verify_citations_members `{SetOrder} {F} (response : RAGResponse.t)
    (retrieval : RetrievalResult.t F) (cite : Citation.t) :
  cite ∈ RAGResponse.citations (verify_citations response retrieval) ->
  Citation.chunk_id cite ∈ RetrievalResult.chunk_ids retrieval.
Proof.
  unfold verify_citations.
  pose proof (partition_valid (RetrievalResult.chunk_ids retrieval)
                (RAGResponse.citations response)) as Hv.
  destruct (partition_citations _ _) as [valid removed]. simpl in *.
  intros Hin. rewrite Forall_forall in Hv.
  now destruct (Hv cite Hin).
Qed.

(** C7.  Running the citation verifier on its own output, against the
    same retrieval result, returns that output unchanged -- citations,
    caveats and confidence included -- whatever order the two runs
    iterate the retrieved identifiers in. *)
Theorem verify_citations_idempotent (first second : SetOrder) {F}
    (response : RAGResponse.t) (retrieval : RetrievalResult.t F) :
  @verify_citations second F (@verify_citations first F response retrieval) retrieval
  = @verify_citations first F response retrieval.
Proof.
  unfold verify_citations at 2 3.
  pose proof (@partition_valid first (RetrievalResult.chunk_ids retrieval)
                (RAGResponse.citations response)) as Hv.
  destruct (@partition_citations first _ _) as [valid removed]. simpl in Hv.
  unfold verify_citations. cbn [RAGResponse.citations RAGResponse.set_citations].
  now rewrite (@partition_fixed second _ _ Hv).
Qed.

End CitationFacts.

Section EmptyCitation.
Import PyStr Guardrails.

(** [_resolve_chunk_id] returns [None] exactly when the raw identifier
    neither equals nor is a suffix of any retrieved identifier.  When the
    retrieved set is not empty and does not hold the empty string -- as
    with the identifiers the ingestion builds, which all hold a double
    underscore -- a citation whose [chunk_id] is empty is resolved to the
    first identifier in the iteration order of the set, kept, and rewritten
    to that identifier. *)
Theorem empty_citation_resolution (order : SetOrder) (ids : gset string) :
  (forall raw,
      _resolve_chunk_id raw ids = None <->
      forall rid, rid ∈ ids -> rid <> raw /\ endswith rid raw = false) /\
  (ids <> ∅ -> "" ∉ ids ->
   exists rid,
     head (set_iter ids) = Some rid /\ rid ∈ ids /\
     _resolve_chunk_id "" ids = Some rid /\
     forall cite, Citation.chunk_id cite = "" ->
       partition_citations ids [cite] = ([Citation.set_chunk_id cite rid], [])).
Proof.
  split; [intros raw; apply resolve_none|].
  intros Hne Hempty.
  destruct (set_iter ids) as [|rid rest] eqn:Eiter.
  - exfalso. apply Hne. apply leibniz_equiv, elements_empty_iff.
    apply Permutation_nil_r. rewrite <- (set_iter_perm ids), Eiter. reflexivity.
  - assert (Hrid : rid ∈ ids) by (apply set_iter_elem; rewrite Eiter; left).
    assert (Hres : _resolve_chunk_id "" ids = Some rid).
    { unfold _resolve_chunk_id. rewrite bool_decide_eq_false_2 by exact Hempty.
      rewrite Eiter. simpl. now rewrite endswith_empty, orb_true_r. }
    exists rid. repeat split; [exact Hrid | exact Hres |].
    intros cite Hc. simpl. rewrite Hc, Hres.
    assert (Ht : truthy rid = true) by (apply truthy_true; congruence).
    now rewrite Ht.
Qed.

End EmptyCitation.

Lemma empty_citation_resolution_witness :
  let ids : gset string := {[ "cells_2022__body__001" ]} in
  exists rid,
    head (@set_iter elements_order ids) = Some rid /\ rid ∈ ids /\
    @Guardrails._resolve_chunk_id elements_order "" ids = Some rid /\
    forall cite, Citation.chunk_id cite = "" ->
      @Guardrails.partition_citations elements_order ids [cite]
      = ([Citation.set_chunk_id cite rid], []).
Proof.
  intros ids.
  apply (proj2 (empty_citation_resolution elements_order ids)).
  - intros E. assert (H : "cells_2022__body__001" ∈ ids) by (apply elem_of_singleton; reflexivity).
    rewrite E in H. now apply not_elem_of_empty in H.
  - intros H. apply elem_of_singleton in H. discriminate.
Defined.


(** ** Entity grounding filter *)

Section EntityFacts.
Import PyStr Guardrails Spec.

Lemma filter_none {A} (f : A -> bool) (l : list A) :
  (forall x, f x = false) -> List.filter f l = [].
Proof.
  intros Hf. induction l as [|x l IH]; simpl; [reflexivity|]. now rewrite Hf.
Qed.

Lemma mentions_ungrounded_empty (sentence : string) :
  mentions_ungrounded ∅ sentence = false.
Proof. unfold mentions_ungrounded. now rewrite elements_empty. Qed.

Lemma strip_sentences_empty (answer : string) :
  fst (strip_sentences ∅ answer) = [].
Proof.
  unfold strip_sentences. simpl.
  induction (split_on (ascii_of_nat 10) answer) as [|line lines IH]; [reflexivity|].
  simpl. rewrite IH, app_nil_r.
  now rewrite (filter_none _ _ mentions_ungrounded_empty).
Qed.

Lemma ungrounded_of_no_entities (answer context_text : string) :
  _extract_entities answer = ∅ -> ungrounded_entities answer context_text = ∅.
Proof. intros E. unfold ungrounded_entities. now rewrite E, elements_empty. Qed.

Lemma downgrade_answer r : RAGResponse.answer (downgrade r) = RAGResponse.answer r.
Proof. unfold downgrade. now destruct (String.eqb _ _). Qed.

Lemma downgrade_caveats r : RAGResponse.caveats (downgrade r) = RAGResponse.caveats r.
Proof. unfold downgrade. now destruct (String.eqb _ _). Qed.

Lemma downgrade_citations r : RAGResponse.citations (downgrade r) = RAGResponse.citations r.
Proof. unfold downgrade. now destruct (String.eqb _ _). Qed.

Lemma downgrade_no_evidence r :
  RAGResponse.no_evidence (downgrade r) = RAGResponse.no_evidence r.
Proof. unfold downgrade. now destruct (String.eqb _ _). Qed.

Lemma downgrade_confidence r :
  RAGResponse.confidence (downgrade r)
  = if String.eqb (RAGResponse.confidence r) "high" then "medium"
    else RAGResponse.confidence r.
Proof. unfold downgrade. now destruct (String.eqb _ _). Qed.

Lemma entity_check_detected (response : RAGResponse.t) (context_text : string) :
  RAGResponse.no_evidence response = false ->
  stripped_sentences_of response context_text <> [] ->
  entity_check response context_text = after_detection response context_text.
Proof.
  intros Hev Hs. unfold entity_check, after_detection. rewrite Hev.
  unfold stripped_sentences_of, cleaned_answer_of, ungrounded_of in *.
  case_bool_decide as He.
  { rewrite (ungrounded_of_no_entities _ _ He), strip_sentences_empty in Hs. congruence. }
  case_bool_decide as Hu.
  { rewrite Hu, strip_sentences_empty in Hs. congruence. }
  destruct (strip_sentences _ _) as [stripped kept]. simpl in *.
  destruct stripped as [|s stripped]; [congruence | reflexivity].
Qed.

Lemma entity_check_cases (response : RAGResponse.t) (context_text : string) :
  entity_check response context_text = response \/
  (RAGResponse.no_evidence response = false /\
   stripped_sentences_of response context_text <> [] /\
   entity_check response context_text = after_detection response context_text).
Proof.
  destruct (RAGResponse.no_evidence response) eqn:Hev.
  { left. unfold entity_check. now rewrite Hev. }
  destruct (stripped_sentences_of response context_text) as [|s l] eqn:Hs.
  - left. unfold entity_check. rewrite Hev.
    unfold stripped_sentences_of, ungrounded_of in Hs.
    repeat case_bool_decide; try reflexivity.
    destruct (strip_sentences _ _) as [stripped kept]. simpl in Hs. now subst.
  - right. split; [reflexivity|]. split; [congruence|].
    apply entity_check_detected; [exact Hev | congruence].
Qed.

Lemma entity_check_citations (response : RAGResponse.t) (context_text : string) :
  RAGResponse.citations (entity_check response context_text)
  = RAGResponse.citations response.
Proof.
  destruct (entity_check_cases response context_text) as [-> | (_ & _ & ->)];
    [reflexivity|].
  unfold after_detection. rewrite downgrade_citations. now destruct (keeps_enough _ _).
Qed.

Lemma entity_check_no_evidence (response : RAGResponse.t) (context_text : string) :
  RAGResponse.no_evidence (entity_check response context_text)
  = RAGResponse.no_evidence response.
Proof.
  destruct (entity_check_cases response context_text) as [-> | (_ & _ & ->)];
    [reflexivity|].
  unfold after_detection. rewrite downgrade_no_evidence. now destruct (keeps_enough _ _).
Qed.

Lemma keeps_enough_exact (cleaned answer : string) :
  (Z.of_nat (len answer) <= 2 ^ 50)%Z ->
  keeps_enough cleaned answer = true <-> 3 * len answer <= 10 * len cleaned.
Proof.
  intros Hn. unfold keeps_enough. rewrite (int_ge_mul_0_3 _ _ Hn). lia.
Qed.

End EntityFacts.

Section EntityClaims.
Import PyStr Guardrails Spec.

(** C3 (amended).  For an answer of at most 2^50 characters, the
    entity grounding filter never leaves less than 30% of the original
    length.  Once a sentence with an ungrounded term is found: if the
    cleaned answer is shorter than 30% of the original, the answer text
    is left unchanged and the caveat flagging the ungrounded terms is
    appended; if it has at least 30% of the original length -- exactly
    30% included -- the answer is replaced by the cleaned answer and the
    caveat naming the removed sentences is appended. *)
Theorem entity_filter_safety_floor (response : RAGResponse.t) (context_text : string) :
  (Z.of_nat (len (RAGResponse.answer response)) <= 2 ^ 50)%Z ->
  3 * len (RAGResponse.answer response)
    <= 10 * len (RAGResponse.answer (entity_check response context_text)) /\
  (RAGResponse.no_evidence response = false ->
   stripped_sentences_of response context_text <> [] ->
   (10 * len (cleaned_answer_of response context_text)
      < 3 * len (RAGResponse.answer response) ->
    RAGResponse.answer (entity_check response context_text)
      = RAGResponse.answer response /\
    RAGResponse.caveats (entity_check response context_text)
      = RAGResponse.caveats response
        ++ [flagged_terms_caveat (ungrounded_of response context_text)]) /\
   (3 * len (RAGResponse.answer response)
      <= 10 * len (cleaned_answer_of response context_text) ->
    RAGResponse.answer (entity_check response context_text)
      = cleaned_answer_of response context_text /\
    RAGResponse.caveats (entity_check response context_text)
      = RAGResponse.caveats response
        ++ [removed_sentences_caveat (stripped_sentences_of response context_text)
              (ungrounded_of response context_text)])).
Proof.
  intros Hlen.
  pose proof (keeps_enough_exact (cleaned_answer_of response context_text) _ Hlen) as Hk.
  split.
  - destruct (entity_check_cases response context_text) as [-> | (_ & _ & ->)]; [lia|].
    unfold after_detection. rewrite downgrade_answer.
    destruct (keeps_enough _ _); simpl; [apply Hk; reflexivity | lia].
  - intros Hev Hs. rewrite (entity_check_detected _ _ Hev Hs).
    unfold after_detection. rewrite downgrade_answer, downgrade_caveats.
    split; intros Hc.
    + destruct (keeps_enough _ _); [|split; reflexivity].
      assert (3 * len (RAGResponse.answer response)
              <= 10 * len (cleaned_answer_of response context_text))
        by (apply Hk; reflexivity).
      lia.
    + apply Hk in Hc. rewrite Hc. split; reflexivity.
Qed.

(** C10.  Whenever the filter finds a sentence with an ungrounded term,
    [confidence] goes from high to medium (and is otherwise kept), also
    on the path where too much would be removed: there the answer text
    is unchanged and only the flagging caveat is appended. *)
Theorem entity_downgrade_without_stripping (response : RAGResponse.t)
    (context_text : string) :
  RAGResponse.no_evidence response = false ->
  stripped_sentences_of response context_text <> [] ->
  RAGResponse.confidence (entity_check response context_text)
    = (if String.eqb (RAGResponse.confidence response) "high" then "medium"
       else RAGResponse.confidence response) /\
  (keeps_enough (cleaned_answer_of response context_text)
     (RAGResponse.answer response) = false ->
   RAGResponse.answer (entity_check response context_text)
     = RAGResponse.answer response /\
   RAGResponse.caveats (entity_check response context_text)
     = RAGResponse.caveats response
       ++ [flagged_terms_caveat (ungrounded_of response context_text)]).
Proof.
  intros Hev Hs. rewrite (entity_check_detected _ _ Hev Hs).
  unfold after_detection.
  rewrite downgrade_confidence, downgrade_answer, downgrade_caveats.
  split.
  - now destruct (keeps_enough _ _).
  - intros ->. split; reflexivity.
Qed.

End EntityClaims.

Lemma entity_filter_safety_floor_witness :
  let response := Demo.response_of "AMPK rocks." "high" in
  RAGResponse.answer (Guardrails.entity_check response "") = "AMPK rocks." /\
  RAGResponse.caveats (Guardrails.entity_check response "")
    = RAGResponse.caveats response
      ++ [Guardrails.flagged_terms_caveat (Spec.ungrounded_of response "")].
Proof.
  intros response.
  assert (Hlen : (Z.of_nat (PyStr.len (RAGResponse.answer response)) <= 2 ^ 50)%Z)
    by (vm_compute; discriminate).
  destruct (entity_filter_safety_floor response "" Hlen) as [_ H].
  apply H.
  - reflexivity.
  - vm_compute. discriminate.
  - vm_compute. lia.
Defined.

(** C3 (counterexample).  The answer has 10 characters and the cleaned
    answer 3, exactly 30%; stripping is applied. *)
Lemma safety_floor_boundary_strips :
  let response := Demo.response_of "Hi. ZZZZZZ" "high" in
  Spec.stripped_sentences_of response "" = ["ZZZZZZ"] /\
  Spec.cleaned_answer_of response "" = "Hi." /\
  10 * PyStr.len (Spec.cleaned_answer_of response "")
    = 3 * PyStr.len (RAGResponse.answer response) /\
  RAGResponse.answer (Guardrails.entity_check response "") = "Hi." /\
  RAGResponse.answer (Guardrails.entity_check response "") <> RAGResponse.answer response.
Proof.
  repeat split; try (vm_compute; reflexivity). vm_compute. discriminate.
Qed.

Lemma entity_downgrade_without_stripping_witness :
  let response := Demo.response_of "AMPK rocks." "high" in
  RAGResponse.confidence (Guardrails.entity_check response "") = "medium" /\
  RAGResponse.answer (Guardrails.entity_check response "") = "AMPK rocks.".
Proof.
  intros response.
  assert (Hev : RAGResponse.no_evidence response = false) by reflexivity.
  assert (Hs : Spec.stripped_sentences_of response "" <> []) by (vm_compute; discriminate).
  destruct (entity_downgrade_without_stripping response "" Hev Hs) as [Hc Hfloor].
  split; [exact Hc|].
  apply Hfloor. vm_compute. reflexivity.
Defined.

(** ** Evidence gate *)

Section GateFacts.
Import PyStr Guardrails Spec.

Lemma bool_filter_as_filter {A} (f : A -> bool) (l : list A) :
  List.filter f l = filter (fun x => f x = true) l.
Proof.
  induction l as [|x l IH]; [reflexivity|]. simpl.
  rewrite filter_cons. destruct (f x) eqn:E.
  - rewrite decide_True by reflexivity. now rewrite IH.
  - rewrite decide_False by discriminate. exact IH.
Qed.

Lemma hits_as_size (keywords : gset string) (context : string) :
  length (List.filter (fun kw => contains kw context) (elements keywords))
  = gate_hits keywords context.
Proof.
  unfold gate_hits, filter, set_filter.
  rewrite size_list_to_set.
  - now rewrite bool_filter_as_filter.
  - apply NoDup_filter, NoDup_elements.
Qed.

Lemma keywords_fold (tokens : list string) (acc : gset string) :
  fold_left
    (fun keywords tok =>
       let low := lower tok in
       if negb (bool_decide (low ∈ _STOP_WORDS)) && (3 <=? len low)%nat
       then keywords ∪ {[ low ]} else keywords)
    tokens acc
  = acc ∪ list_to_set
            (List.filter (fun low => (3 <=? len low)%nat)
               (List.filter (fun low => negb (bool_decide (low ∈ _STOP_WORDS)))
                  (map lower tokens))).
Proof.
  revert acc. induction tokens as [|tok tokens IH]; intros acc.
  - cbn [fold_left map List.filter]. now rewrite list_to_set_nil, (right_id_L ∅ (∪)).
  - cbn [fold_left map List.filter]. rewrite IH.
    destruct (negb (bool_decide (lower tok ∈ _STOP_WORDS))); cbn [andb List.filter];
      [destruct (3 <=? len (lower tok))%nat|]; try reflexivity.
    now rewrite list_to_set_cons, (assoc_L (∪)).
Qed.

Lemma extract_query_keywords_spec (query : string) :
  _extract_query_keywords query = gate_keywords query.
Proof.
  unfold _extract_query_keywords, gate_keywords. rewrite keywords_fold.
  apply (left_id_L ∅ (∪)).
Qed.

(** C6.  The keywords the gate extracts are the tokens of the query,
    lower-cased, without the stop words and without the tokens shorter
    than 3 characters.  The gate passes iff no keyword remains or the
    number of distinct keywords occurring in the lower-cased chunk texts
    (joined by single spaces) reaches [min(2, max(1, count // 3))]. *)
Theorem evidence_gate_rule {F} (query : string) (chunks : list (RetrievedChunk.t F)) :
  _extract_query_keywords query = gate_keywords query /\
  (topic_presence_check query chunks 2 = true <->
   gate_keywords query = ∅ \/
   (Z.min 2 (Z.max 1 (Z.of_nat (size (gate_keywords query)) / 3))
      <= Z.of_nat (gate_hits (gate_keywords query) (gate_context chunks)))%Z).
Proof.
  split; [apply extract_query_keywords_spec|].
  unfold topic_presence_check. rewrite extract_query_keywords_spec.
  fold (gate_context chunks). rewrite hits_as_size.
  case_bool_decide as Hk.
  - split; [now left | reflexivity].
  - rewrite Z.leb_le. split; [now right | intros [?|?]; [contradiction | assumption]].
Qed.

End GateFacts.

(** ** Sorting *)

Section SortFacts.
Context {A : Type} (klt : A -> A -> bool).

Lemma insert_desc_perm (x : A) (l : list A) : insert_desc klt x l ≡ₚ x :: l.
Proof.
  induction l as [|y l IH]; simpl; [reflexivity|].
  destruct (klt x y); [|reflexivity].
  rewrite IH. apply perm_swap.
Qed.

Lemma sort_desc_perm (l : list A) : sort_desc klt l ≡ₚ l.
Proof.
  induction l as [|x l IH]; simpl; [reflexivity|].
  fold (sort_desc klt l). now rewrite insert_desc_perm, IH.
Qed.

(** Sortedness for a preorder [R] that the comparison respects. *)
Context (R : A -> A -> Prop).
Hypothesis R_trans : forall a b c, R a b -> R b c -> R a c.
Hypothesis klt_true : forall a b, klt a b = true -> R b a.
Hypothesis klt_false : forall a b, klt a b = false -> R a b.

Lemma insert_desc_sorted (x : A) (l : list A) :
  StronglySorted R l -> StronglySorted R (insert_desc klt x l).
Proof.
  induction 1 as [|y l Hs IH Hy]; simpl; [repeat constructor|].
  destruct (klt x y) eqn:E.
  - constructor; [exact IH|].
    rewrite insert_desc_perm. constructor; [now apply klt_true | exact Hy].
  - apply klt_false in E. constructor; [now constructor|].
    constructor; [exact E|].
    eapply Forall_impl; [exact Hy|]. intros z Hz. now apply (R_trans x y z).
Qed.

Lemma sort_desc_sorted (l : list A) : StronglySorted R (sort_desc klt l).
Proof.
  induction l as [|x l IH]; simpl; [constructor|]. now apply insert_desc_sorted.
Qed.

End SortFacts.

(** ** Reranker *)

Section RerankFacts.
Context {F : Type} `{PyFloat F}.
Import LLMReranker Spec.

Lemma score_map_fold (scores : list ChunkScore.t) (acc : gmap string Z) (cid : string) :
  cid ∉ map ChunkScore.chunk_id scores ->
  fold_left
    (fun m s => <[ChunkScore.chunk_id s := ChunkScore.relevance s]> m) scores acc !! cid
  = acc !! cid.
Proof.
  revert acc. induction scores as [|s scores IH]; intros acc Hnot; [reflexivity|].
  simpl in *. rewrite not_elem_of_cons in Hnot. destruct Hnot as [Hne Hnot].
  rewrite IH by exact Hnot. now rewrite lookup_insert_ne.
Qed.

Lemma relevance_of_absent (scores : list ChunkScore.t) (c : RetrievedChunk.t F) :
  RetrievedChunk.chunk_id c ∉ map ChunkScore.chunk_id scores ->
  relevance_of (score_map scores) c = 0%Z.
Proof.
  intros Hnot. unfold relevance_of, score_map.
  now rewrite (score_map_fold _ _ _ Hnot), lookup_empty.
Qed.

Lemma key_lt_true (m : gmap string Z) (a b : RetrievedChunk.t F) :
  key_lt m a b = true -> by_relevance m b a.
Proof.
  unfold key_lt, by_relevance.
  destruct (relevance_of m a =? relevance_of m b)%Z eqn:E; simpl.
  - apply Z.eqb_eq in E. lia.
  - rewrite Z.ltb_lt. lia.
Qed.

Lemma key_lt_false (m : gmap string Z) (a b : RetrievedChunk.t F) :
  key_lt m a b = false -> by_relevance m a b.
Proof.
  unfold key_lt, by_relevance.
  destruct (relevance_of m a =? relevance_of m b)%Z eqn:E; simpl.
  - apply Z.eqb_eq in E. lia.
  - rewrite Z.ltb_ge. lia.
Qed.

(** C5.  With one candidate or none the reranker returns its input and
    sends nothing to the service.  When the scoring call raises, the
    list comes back in its original order.  When it succeeds, the result
    is a rearrangement of the input -- nothing is dropped -- in
    descending order of relevance, where a candidate the response does
    not mention counts with relevance 0. *)
Theorem reranker_degradation (self : LLMReranker.t) (query : string)
    (chunks : list (RetrievedChunk.t F)) :
  (length chunks <= 1 -> rerank self query chunks = (chunks, [])) /\
  (self (build_prompt query chunks) = None ->
   fst (rerank self query chunks) = chunks) /\
  (forall scores,
      1 < length chunks ->
      self (build_prompt query chunks) = Some scores ->
      fst (rerank self query chunks) ≡ₚ chunks /\
      StronglySorted (by_relevance (score_map scores)) (fst (rerank self query chunks)) /\
      forall c, c ∈ chunks ->
        RetrievedChunk.chunk_id c ∉ map ChunkScore.chunk_id scores ->
        relevance_of (score_map scores) c = 0%Z /\ c ∈ fst (rerank self query chunks)).
Proof.
  unfold rerank. split; [|split].
  - intros Hlen. apply Nat.leb_le in Hlen. now rewrite Hlen.
  - intros Hnone. destruct (length chunks <=? 1)%nat; [reflexivity|]. now rewrite Hnone.
  - intros scores Hlen Hsome.
    destruct (length chunks <=? 1)%nat eqn:E; [apply Nat.leb_le in E; lia|].
    rewrite Hsome. simpl. split; [apply sort_desc_perm|]. split.
    + apply sort_desc_sorted.
      * unfold by_relevance. intros a b c ? ?. lia.
      * apply key_lt_true.
      * apply key_lt_false.
    + intros c Hc Hnot. split; [now apply relevance_of_absent|].
      now rewrite sort_desc_perm.
Qed.

End RerankFacts.

Lemma reranker_degradation_witness :
  let chunks :=
    [Demo.chunk "a__body__001" "alpha" (QArith_base.Qmake 1 2);
     Demo.chunk "b__body__001" "beta" (QArith_base.Qmake 1 3)] in
  let llm : LLMReranker.t := fun _ => Some [ChunkScore.mk "b__body__001" 7] in
  fst (@LLMReranker.rerank _ QFloat.instance llm "q" chunks) ≡ₚ chunks /\
  StronglySorted
    (Spec.by_relevance (LLMReranker.score_map [ChunkScore.mk "b__body__001" 7]))
    (fst (@LLMReranker.rerank _ QFloat.instance llm "q" chunks)) /\
  forall c, c ∈ chunks ->
    RetrievedChunk.chunk_id c ∉ map ChunkScore.chunk_id [ChunkScore.mk "b__body__001" 7] ->
    LLMReranker.relevance_of (LLMReranker.score_map [ChunkScore.mk "b__body__001" 7]) c = 0%Z
    /\ c ∈ fst (@LLMReranker.rerank _ QFloat.instance llm "q" chunks).
Proof.
  intros chunks llm.
  apply (proj2 (proj2 (@reranker_degradation _ QFloat.instance llm "q" chunks))).
  - simpl. lia.
  - reflexivity.
Defined.

(** ** Score fusion *)

Section FusionFacts.
Context {F : Type} `{PyFloat F} `{SetOrder}.
Import HybridRetriever Spec.

Lemma vector_fold_lookup (vector_results : list (Document.t * F))
    (acc : gmap string (Document.t * F)) (cid : string) :
  snd <$> (fold_left
             (fun scored '(doc, dist) =>
                <[Document.chunk_id doc := (doc, fdiv f1 (fadd f1 dist))]> scored)
             vector_results acc !! cid)
  = match distance_of cid vector_results with
    | Some dist => Some (fdiv f1 (fadd f1 dist))
    | None => snd <$> (acc !! cid)
    end.
Proof.
  revert acc. induction vector_results as [|[doc dist] rest IH]; intros acc; [reflexivity|].
  cbn [fold_left distance_of]. rewrite IH.
  destruct (distance_of cid rest); [reflexivity|].
  destruct (String.eqb_spec (Document.chunk_id doc) cid) as [->|Hne].
  - now rewrite lookup_insert_eq.
  - now rewrite lookup_insert_ne.
Qed.

Lemma distance_of_none (vector_results : list (Document.t * F)) (cid : string) :
  distance_of cid vector_results = None <-> cid ∉ semantic_ids vector_results.
Proof.
  induction vector_results as [|[doc dist] rest IH]; simpl.
  - split; [intros _; apply not_elem_of_nil | reflexivity].
  - rewrite not_elem_of_cons, <- IH.
    destruct (distance_of cid rest); [split; [discriminate | intros [_ ?]; discriminate]|].
    destruct (String.eqb_spec (Document.chunk_id doc) cid) as [->|Hne].
    + split; [discriminate | intros [? _]; congruence].
    + split; [intros _; split; [congruence | reflexivity] | reflexivity].
Qed.

Lemma vector_scored_lookup (vector_results : list (Document.t * F)) (cid : string) :
  default f0 (snd <$> (vector_scored vector_results !! cid)) = sim_of vector_results cid.
Proof.
  unfold vector_scored, sim_of. rewrite vector_fold_lookup, lookup_empty.
  now destruct (distance_of cid vector_results).
Qed.

Lemma vector_scored_dom (vector_results : list (Document.t * F)) (cid : string) :
  is_Some (vector_scored vector_results !! cid) <-> cid ∈ semantic_ids vector_results.
Proof.
  rewrite <- (fmap_is_Some snd). unfold vector_scored.
  rewrite vector_fold_lookup, lookup_empty.
  pose proof (distance_of_none vector_results cid) as Hn.
  destruct (distance_of cid vector_results).
  - split; [intros _ | intros _; eexists; reflexivity].
    destruct (decide (cid ∈ semantic_ids vector_results)) as [|Hnot]; [assumption|].
    apply Hn in Hnot. discriminate.
  - simpl. split; [intros [? ?]; discriminate|].
    intros Hin. exfalso. now apply (proj1 Hn).
Qed.

Lemma bm25_fold_lookup (bm25_results : list Document.t) (start : nat)
    (acc : gmap string (Document.t * F)) (cid : string) :
  snd <$> (fold_left
             (fun scored '(rank, doc) =>
                <[Document.chunk_id doc := (doc, fdiv f1 (f_of_nat (rank + 1)))]> scored)
             (combine (seq start (length bm25_results)) bm25_results) acc !! cid)
  = match rank_from start cid bm25_results with
    | Some rank => Some (fdiv f1 (f_of_nat (rank + 1)))
    | None => snd <$> (acc !! cid)
    end.
Proof.
  revert start acc.
  induction bm25_results as [|doc rest IH]; intros start acc; [reflexivity|].
  cbn [length seq combine fold_left rank_from]. rewrite IH.
  destruct (rank_from (S start) cid rest); [reflexivity|].
  destruct (String.eqb_spec (Document.chunk_id doc) cid) as [->|Hne].
  - now rewrite lookup_insert_eq.
  - now rewrite lookup_insert_ne.
Qed.

Lemma rank_from_none (bm25_results : list Document.t) (start : nat) (cid : string) :
  rank_from start cid bm25_results = None <-> cid ∉ lexical_ids bm25_results.
Proof.
  revert start. induction bm25_results as [|doc rest IH]; intros start; simpl.
  - split; [intros _; apply not_elem_of_nil | reflexivity].
  - rewrite not_elem_of_cons, <- (IH (S start)).
    destruct (rank_from (S start) cid rest);
      [split; [discriminate | intros [_ ?]; discriminate]|].
    destruct (String.eqb_spec (Document.chunk_id doc) cid) as [->|Hne].
    + split; [discriminate | intros [? _]; congruence].
    + split; [intros _; split; [congruence | reflexivity] | reflexivity].
Qed.

Lemma bm25_scored_lookup (bm25_results : list Document.t) (cid : string) :
  default f0 (snd <$> (bm25_scored bm25_results !! cid)) = lex_of bm25_results cid.
Proof.
  unfold bm25_scored, enumerate, lex_of, rank_of.
  rewrite bm25_fold_lookup, lookup_empty.
  now destruct (rank_from 0 cid bm25_results).
Qed.

Lemma bm25_scored_dom (bm25_results : list Document.t) (cid : string) :
  is_Some (bm25_scored bm25_results !! cid) <-> cid ∈ lexical_ids bm25_results.
Proof.
  rewrite <- (fmap_is_Some snd). unfold bm25_scored, enumerate.
  rewrite bm25_fold_lookup, lookup_empty.
  pose proof (rank_from_none bm25_results 0 cid) as Hn.
  destruct (rank_from 0 cid bm25_results).
  - split; [intros _ | intros _; eexists; reflexivity].
    destruct (decide (cid ∈ lexical_ids bm25_results)) as [|Hnot]; [assumption|].
    apply Hn in Hnot. discriminate.
  - simpl. split; [intros [? ?]; discriminate|].
    intros Hin. exfalso. now apply (proj1 Hn).
Qed.

End FusionFacts.

Section FusionClaims.
Context {F : Type} `{PyFloat F} `{SetOrder}.
Import HybridRetriever Spec.

Lemma fuse_one_some (vw bw : F) (vs bs : gmap string (Document.t * F))
    (cid : string) (c : RetrievedChunk.t F) :
  fuse_one vw bw vs bs cid = Some c ->
  RetrievedChunk.chunk_id c = cid /\
  RetrievedChunk.vector_score c = default f0 (snd <$> (vs !! cid)) /\
  RetrievedChunk.bm25_score c = default f0 (snd <$> (bs !! cid)) /\
  RetrievedChunk.combined_score c
    = fadd (fmul vw (RetrievedChunk.vector_score c))
           (fmul bw (RetrievedChunk.bm25_score c)).
Proof.
  unfold fuse_one.
  destruct (vs !! cid) as [[vd vsc]|]; destruct (bs !! cid) as [[bd bsc]|];
    simpl; intros [= <-]; simpl; repeat split; reflexivity.
Qed.

Lemma fuse_one_total (vw bw : F) (vs bs : gmap string (Document.t * F)) (cid : string) :
  cid ∈ dom vs ∪ dom bs -> is_Some (fuse_one vw bw vs bs cid).
Proof.
  rewrite elem_of_union, !elem_of_dom. unfold fuse_one.
  destruct (vs !! cid) as [[vd vsc]|]; destruct (bs !! cid) as [[bd bsc]|];
    simpl; intros [[? ?]|[? ?]]; try discriminate; eexists; reflexivity.
Qed.

(** the identifiers of the fused list, before sorting, are the
    iteration of [all_ids] *)
Lemma fused_ids (vw bw : F) (vs bs : gmap string (Document.t * F)) (ids : list string) :
  (forall cid, cid ∈ ids -> cid ∈ dom vs ∪ dom bs) ->
  map RetrievedChunk.chunk_id (omap (fuse_one vw bw vs bs) ids) = ids.
Proof.
  induction ids as [|cid ids IH]; intros Hall; [reflexivity|].
  cbn [omap list_omap].
  destruct (fuse_one_total vw bw vs bs cid) as [c Hc]; [apply Hall; left|].
  rewrite Hc. cbn [map]. apply fuse_one_some in Hc as [-> _].
  f_equal. apply IH. intros x Hx. apply Hall. now right.
Qed.

Lemma fuse_perm (vw bw : F) (vector_results : list (Document.t * F))
    (bm25_results : list Document.t) :
  fuse vw bw vector_results bm25_results
  ≡ₚ omap (fuse_one vw bw (vector_scored vector_results) (bm25_scored bm25_results))
       (set_iter (dom (vector_scored vector_results) ∪ dom (bm25_scored bm25_results))).
Proof. unfold fuse. apply sort_desc_perm. Qed.

Lemma fuse_ids_perm (vw bw : F) (vector_results : list (Document.t * F))
    (bm25_results : list Document.t) :
  map RetrievedChunk.chunk_id (fuse vw bw vector_results bm25_results)
  ≡ₚ elements (dom (vector_scored vector_results) ∪ dom (bm25_scored bm25_results)).
Proof.
  rewrite fuse_perm, fused_ids; [apply set_iter_perm|].
  intros cid Hcid. now apply set_iter_elem in Hcid.
Qed.

Lemma fuse_member (vw bw : F) (vector_results : list (Document.t * F))
    (bm25_results : list Document.t) (c : RetrievedChunk.t F) :
  c ∈ fuse vw bw vector_results bm25_results ->
  RetrievedChunk.vector_score c = sim_of vector_results (RetrievedChunk.chunk_id c) /\
  RetrievedChunk.bm25_score c = lex_of bm25_results (RetrievedChunk.chunk_id c) /\
  RetrievedChunk.combined_score c
    = fadd (fmul vw (RetrievedChunk.vector_score c))
           (fmul bw (RetrievedChunk.bm25_score c)).
Proof.
  rewrite fuse_perm. intros Hc. apply list_elem_of_omap in Hc as (cid & _ & Hc).
  apply fuse_one_some in Hc as (<- & Hv & Hb & Hcomb).
  rewrite vector_scored_lookup in Hv. rewrite bm25_scored_lookup in Hb.
  repeat split; assumption.
Qed.

(** C2.  The identifiers of the fused candidates are the union of the
    identifiers of the semantic and of the lexical results, each once.
    For every candidate, [vector_score] is [1 / (1 + distance)] when it
    is in the semantic list and 0 otherwise, [bm25_score] is
    [1 / (rank + 1)] for its 0-indexed rank when it is in the lexical
    list and 0 otherwise, and [combined_score] is
    [w_vec * vector_score + w_lex * bm25_score]. *)
Theorem fusion_correct (vw bw : F) (vector_results : list (Document.t * F))
    (bm25_results : list Document.t) :
  (forall cid,
      cid ∈ map RetrievedChunk.chunk_id (fuse vw bw vector_results bm25_results) <->
      cid ∈ semantic_ids vector_results \/ cid ∈ lexical_ids bm25_results) /\
  NoDup (map RetrievedChunk.chunk_id (fuse vw bw vector_results bm25_results)) /\
  (forall c, c ∈ fuse vw bw vector_results bm25_results ->
     RetrievedChunk.vector_score c = sim_of vector_results (RetrievedChunk.chunk_id c) /\
     RetrievedChunk.bm25_score c = lex_of bm25_results (RetrievedChunk.chunk_id c) /\
     RetrievedChunk.combined_score c
       = fadd (fmul vw (sim_of vector_results (RetrievedChunk.chunk_id c)))
              (fmul bw (lex_of bm25_results (RetrievedChunk.chunk_id c))) /\
     (RetrievedChunk.chunk_id c ∉ semantic_ids vector_results ->
      RetrievedChunk.vector_score c = f0) /\
     (RetrievedChunk.chunk_id c ∉ lexical_ids bm25_results ->
      RetrievedChunk.bm25_score c = f0)).
Proof.
  split; [|split].
  - intros cid. rewrite fuse_ids_perm, elem_of_elements, elem_of_union, !elem_of_dom.
    now rewrite vector_scored_dom, bm25_scored_dom.
  - rewrite fuse_ids_perm. apply NoDup_elements.
  - intros c Hc. destruct (fuse_member _ _ _ _ _ Hc) as (Hv & Hb & Hcomb).
    split; [exact Hv|]. split; [exact Hb|]. split; [now rewrite Hcomb, Hv, Hb|]. split.
    + intros Hnot. rewrite Hv. unfold sim_of.
      now rewrite (proj2 (distance_of_none _ _) Hnot).
    + intros Hnot. rewrite Hb. unfold lex_of, rank_of.
      now rewrite (proj2 (rank_from_none _ _ _) Hnot).
Qed.

Lemma slice_to_subset {A} (k : Z) (l : list A) (x : A) :
  x ∈ PyStr.slice_to k l -> x ∈ l.
Proof.
  unfold PyStr.slice_to. destruct (0 <=? k)%Z; intros Hx;
    exact (subseteq_take _ _ _ Hx).
Qed.

Lemma bool_filter_elem {A} (f : A -> bool) (l : list A) (x : A) :
  x ∈ List.filter f l <-> x ∈ l /\ f x = true.
Proof. rewrite !list_elem_of_In. apply filter_In. Qed.

Lemma slice_to_all {A} (k : Z) (l : list A) :
  (Z.of_nat (length l) <= k)%Z -> PyStr.slice_to k l = l.
Proof.
  intros Hk. unfold PyStr.slice_to.
  destruct (0 <=? k)%Z eqn:E; [|apply Z.leb_gt in E; lia].
  apply firstn_all2. lia.
Qed.

(** C4.  The similarity floor is a test on [vector_score] and on
    nothing else.  Every chunk that [retrieve] returns passed
    [vector_score >= similarity_threshold], so none has
    [vector_score < similarity_threshold]; a candidate that only the
    lexical index returned has [vector_score] 0 and is not returned when
    the threshold is above 0.  Conversely the candidates that pass the
    floor are exactly the fused candidates with
    [vector_score >= similarity_threshold], in the fused order, whatever
    their [combined_score]: [above_threshold] counts them, the chunks
    returned are the first [k] of them, and each of them is returned when
    the limit [k] does not cut the list. *)
Theorem threshold_invariant (self : HybridRetriever.t F) (query : string)
    (vector_weight bm25_weight : option F) (top_k : option Z) :
  (forall c,
      c ∈ RetrievalResult.chunks (retrieve self query vector_weight bm25_weight top_k) ->
      fge (RetrievedChunk.vector_score c)
          (Config.similarity_threshold (config self)) = true /\
      flt (RetrievedChunk.vector_score c)
          (Config.similarity_threshold (config self)) = false) /\
  (forall cid,
      cid ∉ semantic_ids (vectorstore self query (Config.vector_k (config self))) ->
      flt f0 (Config.similarity_threshold (config self)) = true ->
      cid ∉ map RetrievedChunk.chunk_id
              (RetrievalResult.chunks
                 (retrieve self query vector_weight bm25_weight top_k))) /\
  (exists above,
      sublist above
        (fuse (default (Config.vector_weight (config self)) vector_weight)
              (default (Config.bm25_weight (config self)) bm25_weight)
              (vectorstore self query (Config.vector_k (config self)))
              (bm25_retriever self query)) /\
      (forall c,
          c ∈ fuse (default (Config.vector_weight (config self)) vector_weight)
                (default (Config.bm25_weight (config self)) bm25_weight)
                (vectorstore self query (Config.vector_k (config self)))
                (bm25_retriever self query) ->
          (c ∈ above <->
           fge (RetrievedChunk.vector_score c)
               (Config.similarity_threshold (config self)) = true)) /\
      RetrievalResult.above_threshold
        (retrieve self query vector_weight bm25_weight top_k) = length above /\
      RetrievalResult.chunks (retrieve self query vector_weight bm25_weight top_k)
      = PyStr.slice_to (default (Config.rerank_candidates (config self)) top_k) above) /\
  (forall c,
      c ∈ fuse (default (Config.vector_weight (config self)) vector_weight)
            (default (Config.bm25_weight (config self)) bm25_weight)
            (vectorstore self query (Config.vector_k (config self)))
            (bm25_retriever self query) ->
      fge (RetrievedChunk.vector_score c)
          (Config.similarity_threshold (config self)) = true ->
      (Z.of_nat (RetrievalResult.above_threshold
                   (retrieve self query vector_weight bm25_weight top_k))
       <= default (Config.rerank_candidates (config self)) top_k)%Z ->
      c ∈ RetrievalResult.chunks (retrieve self query vector_weight bm25_weight top_k)).
Proof.
  assert (Hmem : forall c,
    c ∈ RetrievalResult.chunks (retrieve self query vector_weight bm25_weight top_k) ->
    fge (RetrievedChunk.vector_score c) (Config.similarity_threshold (config self)) = true /\
    RetrievedChunk.vector_score c
      = sim_of (vectorstore self query (Config.vector_k (config self)))
          (RetrievedChunk.chunk_id c)).
  { intros c Hc. unfold retrieve in Hc. cbn [RetrievalResult.chunks] in Hc.
    apply slice_to_subset, bool_filter_elem in Hc as [Hc Hge].
    split; [exact Hge|]. now apply fuse_member in Hc as [Hv _]. }
  split; [|split; [|split]].
  - intros c Hc. destruct (Hmem c Hc) as [Hge _]. split; [exact Hge|].
    destruct (flt _ _) eqn:E; [|reflexivity].
    apply flt_fge in E. congruence.
  - intros cid Hnot Hpos Hin.
    apply list_elem_of_fmap in Hin as (c & -> & Hc).
    destruct (Hmem c Hc) as [Hge Hv].
    unfold sim_of in Hv. rewrite (proj2 (distance_of_none _ _) Hnot) in Hv.
    rewrite Hv in Hge. apply flt_fge in Hpos. congruence.
  - exists (List.filter
              (fun c => fge (RetrievedChunk.vector_score c)
                            (Config.similarity_threshold (config self)))
              (fuse (default (Config.vector_weight (config self)) vector_weight)
                    (default (Config.bm25_weight (config self)) bm25_weight)
                    (vectorstore self query (Config.vector_k (config self)))
                    (bm25_retriever self query))).
    split; [rewrite bool_filter_as_filter; apply sublist_filter|].
    split; [|split; reflexivity].
    intros c Hc. rewrite bool_filter_elem. tauto.
  - intros c Hc Hge Hk. unfold retrieve in *.
    cbn [RetrievalResult.chunks RetrievalResult.above_threshold] in *.
    rewrite (slice_to_all _ _ Hk). apply bool_filter_elem. now split.
Qed.

End FusionClaims.

Lemma fusion_correct_witness :
  let vector_results := [(Demo.doc1, QArith_base.Qmake 1 2)] in
  let bm25_results := [Demo.doc1; Demo.doc2] in
  let c :=
    RetrievedChunk.mk "cells_2022__body__001" "cells_2022" "body" 1 2
      "Sirtuin activation extends lifespan in mice."
      (QArith_base.Qmake 2 3) (QArith_base.Qmake 1 1) (QArith_base.Qmake 4 5) in
  RetrievedChunk.vector_score c
    = @Spec.sim_of _ QFloat.instance vector_results (RetrievedChunk.chunk_id c) /\
  RetrievedChunk.bm25_score c
    = @Spec.lex_of _ QFloat.instance bm25_results (RetrievedChunk.chunk_id c) /\
  RetrievedChunk.combined_score c
    = @fadd _ QFloat.instance
        (@fmul _ QFloat.instance (QArith_base.Qmake 3 5)
           (@Spec.sim_of _ QFloat.instance vector_results (RetrievedChunk.chunk_id c)))
        (@fmul _ QFloat.instance (QArith_base.Qmake 2 5)
           (@Spec.lex_of _ QFloat.instance bm25_results (RetrievedChunk.chunk_id c))) /\
  (RetrievedChunk.chunk_id c ∉ Spec.semantic_ids vector_results ->
   RetrievedChunk.vector_score c = @f0 _ QFloat.instance) /\
  (RetrievedChunk.chunk_id c ∉ Spec.lexical_ids bm25_results ->
   RetrievedChunk.bm25_score c = @f0 _ QFloat.instance).
Proof.
  intros vector_results bm25_results c.
  apply (proj2 (proj2 (@fusion_correct _ QFloat.instance elements_order
                         (QArith_base.Qmake 3 5) (QArith_base.Qmake 2 5)
                         vector_results bm25_results)) c).
  vm_compute. apply list_elem_of_here.
Defined.

Lemma threshold_invariant_witness :
  ("volt_2019__intro__004"
     ∉ map RetrievedChunk.chunk_id
         (RetrievalResult.chunks
            (@HybridRetriever.retrieve _ QFloat.instance elements_order
               Demo.retriever Demo.question None None None))) /\
  (QFloat.lt (RetrievedChunk.combined_score Demo.far_chunk) (QArith_base.Qmake 1 4) = true /\
   Demo.far_chunk
     ∈ RetrievalResult.chunks
         (@HybridRetriever.retrieve _ QFloat.instance elements_order
            Demo.retriever_far Demo.question None None None)).
Proof.
  split.
  - apply (proj1 (proj2 (@threshold_invariant _ QFloat.instance elements_order
                           Demo.retriever Demo.question None None None))).
    + vm_compute. intros Hin. apply list_elem_of_singleton in Hin. discriminate.
    + reflexivity.
  - split; [reflexivity|].
    apply (proj2 (proj2 (proj2 (@threshold_invariant _ QFloat.instance elements_order
                                  Demo.retriever_far Demo.question None None None)))).
    + vm_compute. right. left.
    + reflexivity.
    + vm_compute. discriminate.
Defined.

(** ** Chunk expander *)

Section ExpandFacts.
Context {F : Type} `{PyFloat F}.
Import HybridRetriever.

Lemma add_neighbour_appends (index : gmap string StoredChunk.t)
    (chunk : RetrievedChunk.t F) (source_id section : string) (num : Z)
    (st : gset string * list (RetrievedChunk.t F)) (offset : Z) :
  exists added,
    snd (add_neighbour index chunk source_id section num st offset) = snd st ++ added.
Proof.
  unfold add_neighbour. destruct st as [existing expanded].
  destruct (offset =? 0)%Z; [exists []; now rewrite app_nil_r|].
  case_bool_decide; [exists []; now rewrite app_nil_r|].
  destruct (index !! _); [eexists; reflexivity | exists []; now rewrite app_nil_r].
Qed.

Lemma fold_neighbours_appends (index : gmap string StoredChunk.t)
    (chunk : RetrievedChunk.t F) (source_id section : string) (num : Z)
    (offsets : list Z) (st : gset string * list (RetrievedChunk.t F)) :
  exists added,
    snd (fold_left (add_neighbour index chunk source_id section num) offsets st)
    = snd st ++ added.
Proof.
  revert st. induction offsets as [|offset offsets IH]; intros st.
  - exists []. now rewrite app_nil_r.
  - cbn [fold_left].
    destruct (IH (add_neighbour index chunk source_id section num st offset)) as [a2 ->].
    destruct (add_neighbour_appends index chunk source_id section num st offset)
      as [a1 ->].
    exists (a1 ++ a2). now rewrite app_assoc.
Qed.

Lemma expand_loop_appends (self : HybridRetriever.t F)
    (todo : list (RetrievedChunk.t F)) (st : gset string * list (RetrievedChunk.t F)) :
  exists added, snd (expand_loop self todo st) = snd st ++ added.
Proof.
  revert st. induction todo as [|chunk rest IH]; intros st.
  - exists []. now rewrite app_nil_r.
  - cbn [expand_loop].
    destruct (_parse_chunk_id (RetrievedChunk.chunk_id chunk)) as [[[source_id section] num]|];
      [|apply IH].
    destruct (fold_neighbours_appends (_chunk_index self) chunk source_id section num
                (range (- Config.chunk_expand_window (config self))
                       (Config.chunk_expand_window (config self) + 1)) st)
      as [a1 Ha1].
    destruct (_ <=? _)%Z; [exists a1; exact Ha1|].
    destruct (IH (fold_left (add_neighbour (_chunk_index self) chunk source_id section num)
                    (range (- Config.chunk_expand_window (config self))
                           (Config.chunk_expand_window (config self) + 1)) st))
      as [a2 ->].
    rewrite Ha1. exists (a1 ++ a2). now rewrite app_assoc.
Qed.

Lemma slice_to_length {A} (k : Z) (l : list A) :
  (0 <= k)%Z -> (Z.of_nat (length (PyStr.slice_to k l)) <= k)%Z.
Proof.
  intros Hk. unfold PyStr.slice_to.
  destruct (0 <=? k)%Z eqn:E; [|apply Z.leb_gt in E; lia].
  rewrite length_take. lia.
Qed.

(** C8 (amended).  When the chunk store is empty or the window is not
    positive, the expander returns its argument unchanged.  Otherwise
    the returned chunks are the first [max_chunks_after_expand] of the
    original chunks followed by the neighbours appended so far, and,
    the cap being non-negative, there are at most
    [max_chunks_after_expand] of them. *)
Theorem expansion_cap (self : HybridRetriever.t F) (retrieval : RetrievalResult.t F) :
  (_chunk_index self = ∅ \/ (Config.chunk_expand_window (config self) <= 0)%Z ->
   expand_chunks self retrieval = retrieval) /\
  (_chunk_index self <> ∅ ->
   (0 < Config.chunk_expand_window (config self))%Z ->
   (exists neighbours,
       RetrievalResult.chunks (expand_chunks self retrieval)
       = PyStr.slice_to (Config.max_chunks_after_expand (config self))
           (RetrievalResult.chunks retrieval ++ neighbours)) /\
   ((0 <= Config.max_chunks_after_expand (config self))%Z ->
    (Z.of_nat (length (RetrievalResult.chunks (expand_chunks self retrieval)))
     <= Config.max_chunks_after_expand (config self))%Z)).
Proof.
  unfold expand_chunks. split.
  - intros [Hidx | Hw].
    + now rewrite bool_decide_eq_true_2.
    + apply Z.leb_le in Hw. now rewrite Hw, orb_true_r.
  - intros Hidx Hw.
    rewrite bool_decide_eq_false_2 by exact Hidx.
    destruct (_ <=? 0)%Z eqn:E; [apply Z.leb_le in E; lia | clear E]. cbn [orb].
    destruct (expand_loop_appends self (RetrievalResult.chunks retrieval)
                (RetrievalResult.chunk_ids retrieval, RetrievalResult.chunks retrieval))
      as [added Hadded].
    destruct (expand_loop _ _ _) as [ids expanded]. cbn [snd] in Hadded. subst expanded.
    cbn [RetrievalResult.chunks RetrievalResult.set_chunks]. split.
    + now exists added.
    + apply slice_to_length.
Qed.

End ExpandFacts.

Lemma expansion_cap_witness :
  let retrieval :=
    Demo.retrieval_of
      [Demo.chunk "cells_2022__body__001" "Sirtuin activation." (QArith_base.Qmake 1 2)] in
  (Z.of_nat (length (RetrievalResult.chunks
                       (@HybridRetriever.expand_chunks _ QFloat.instance
                          Demo.retriever retrieval)))
   <= 10)%Z.
Proof.
  intros retrieval.
  apply (proj2 (@expansion_cap _ QFloat.instance Demo.retriever retrieval)).
  - intros E.
    assert (Hl : Demo.chunk_index !! "cells_2022__body__002" = Some Demo.stored2)
      by apply lookup_singleton_eq.
    change (HybridRetriever._chunk_index Demo.retriever) with Demo.chunk_index in E.
    rewrite E in Hl. discriminate.
  - reflexivity.
  - discriminate.
Defined.

(** C8 (counterexample).  The window is 0, so the expander returns at
    once; the result it was given holds eleven chunks and the cap is 10. *)
Lemma expansion_disabled_exceeds_cap :
  let result :=
    @HybridRetriever.expand_chunks _ QFloat.instance
      Demo.retriever_no_window (Demo.retrieval_of Demo.eleven) in
  Config.max_chunks_after_expand (HybridRetriever.config Demo.retriever_no_window) = 10%Z /\
  length (RetrievalResult.chunks result) = 11 /\
  ~ (Z.of_nat (length (RetrievalResult.chunks result))
     <= Config.max_chunks_after_expand (HybridRetriever.config Demo.retriever_no_window))%Z.
Proof.
  split; [reflexivity|]. split; [vm_compute; reflexivity|].
  vm_compute. intros Hle. apply Hle. reflexivity.
Qed.

(** ** Pipeline *)

Section PipelineFacts.
Context {F : Type} `{PyFloat F} `{SetOrder}.
Import RAGPipeline Guardrails.

(** C1.  When [query] returns an answer with [no_evidence] false, the
    generator was called, with the retrieval result that [query] also
    leaves in [_last_retrieval], and after citation verification and
    entity check every citation of the answer carries the [chunk_id] of
    one of the chunks of that retrieval result. *)
Theorem citation_soundness (self : RAGPipeline.t F) (question : string)
    (vector_weight bm25_weight : option F) :
  RAGResponse.no_evidence (response (query self question vector_weight bm25_weight))
    = false ->
  exists retrieval,
    generated_from (query self question vector_weight bm25_weight) = Some retrieval /\
    _last_retrieval (query self question vector_weight bm25_weight) = retrieval /\
    forall cite,
      cite ∈ RAGResponse.citations
               (response (query self question vector_weight bm25_weight)) ->
      Citation.chunk_id cite
        ∈ map RetrievedChunk.chunk_id (RetrievalResult.chunks retrieval).
Proof.
  unfold query.
  destruct (negb (RetrievalResult.has_sufficient_evidence _)); [discriminate|].
  destruct (negb (topic_presence_check _ _ _)); [discriminate|].
  cbn [response generated_from _last_retrieval]. intros _.
  eexists. split; [reflexivity|]. split; [reflexivity|].
  intros cite Hcite. rewrite entity_check_citations in Hcite.
  apply verify_citations_members in Hcite.
  unfold RetrievalResult.chunk_ids in Hcite. now apply elem_of_list_to_set in Hcite.
Qed.

End PipelineFacts.

Lemma citation_soundness_witness :
  exists retrieval,
    RAGPipeline.generated_from
      (@RAGPipeline.query _ QFloat.instance elements_order
         Demo.pipeline Demo.question None None) = Some retrieval /\
    RAGPipeline._last_retrieval
      (@RAGPipeline.query _ QFloat.instance elements_order
         Demo.pipeline Demo.question None None) = retrieval /\
    forall cite,
      cite ∈ RAGResponse.citations
               (RAGPipeline.response
                  (@RAGPipeline.query _ QFloat.instance elements_order
                     Demo.pipeline Demo.question None None)) ->
      Citation.chunk_id cite
        ∈ map RetrievedChunk.chunk_id (RetrievalResult.chunks retrieval).
Proof.
  apply (@citation_soundness _ QFloat.instance elements_order
           Demo.pipeline Demo.question None None).
  vm_compute. reflexivity.
Defined.

(** * Further properties *)

(** ** Citation verifier: verdicts, report and iteration order *)

Section VerdictFacts.
Import PyStr Guardrails.

Lemma endswith_nil_l (raw : string) : endswith "" raw = true -> raw = "".
Proof.
  unfold endswith. simpl. destruct raw as [|c raw]; [reflexivity|].
  intros Hp. exfalso.
  assert (Hlen : length (rev (chars (String c raw))) = S (length (chars raw))).
  { rewrite length_rev. reflexivity. }
  destruct (rev (chars (String c raw))); [discriminate Hlen | discriminate Hp].
Qed.

(** the verdict on one citation: whether it is kept *)
Lemma resolve_verdict `{SetOrder} (raw : string) (ids : gset string) :
  (exists rid, _resolve_chunk_id raw ids = Some rid /\ truthy rid = true) <->
  (exists rid, rid ∈ ids /\ endswith rid raw = true) /\ ~ (raw = "" /\ "" ∈ ids).
Proof.
  split.
  - intros (rid & Hres & Ht). split.
    + exists rid. now apply resolve_some.
    + intros [-> Hin]. rewrite (resolve_member _ _ Hin) in Hres.
      injection Hres as <-. discriminate Ht.
  - intros [(rid0 & Hin0 & Hend0) Hnot].
    destruct (_resolve_chunk_id raw ids) as [rid|] eqn:E.
    + exists rid. split; [reflexivity|]. apply truthy_true. intros ->.
      apply resolve_some in E as [Hin Hend].
      apply endswith_nil_l in Hend. now apply Hnot.
    + exfalso. destruct (proj1 (resolve_none raw ids) E rid0 Hin0) as [_ Hf]. congruence.
Qed.

Lemma resolve_dropped `{SetOrder} (raw : string) (ids : gset string) :
  (forall rid, _resolve_chunk_id raw ids = Some rid -> truthy rid = false) <->
  (forall rid, rid ∈ ids -> endswith rid raw = false) \/ (raw = "" /\ "" ∈ ids).
Proof.
  split.
  - intros Hd.
    destruct (_resolve_chunk_id raw ids) as [rid|] eqn:E.
    + right. specialize (Hd rid eq_refl).
      assert (rid = "") as ->.
      { destruct (String.eqb_spec rid ""); [assumption|].
        unfold truthy in Hd. apply negb_false_iff, String.eqb_eq in Hd. assumption. }
      apply resolve_some in E as [Hin Hend]. apply endswith_nil_l in Hend. now split.
    + left. intros rid Hin. now destruct (proj1 (resolve_none raw ids) E rid Hin).
  - intros Hcase rid Hres. destruct (truthy rid) eqn:Ht; [|reflexivity]. exfalso.
    destruct (proj1 (resolve_verdict raw ids)) as [(rid0 & Hin0 & Hend0) Hnot];
      [now exists rid|].
    destruct Hcase as [Hall | Hempty]; [|now apply Hnot].
    rewrite (Hall rid0 Hin0) in Hend0. discriminate.
Qed.

(** the decision of the loop on one citation, as a boolean *)
Lemma kept_order (first second : SetOrder) (raw : string) (ids : gset string) :
  match @_resolve_chunk_id first raw ids with Some r => truthy r | None => false end
  = match @_resolve_chunk_id second raw ids with Some r => truthy r | None => false end.
Proof.
  pose proof (@resolve_verdict first raw ids) as H1.
  pose proof (@resolve_verdict second raw ids) as H2.
  destruct (@_resolve_chunk_id first raw ids) as [r1|] eqn:E1;
    destruct (@_resolve_chunk_id second raw ids) as [r2|] eqn:E2.
  - destruct (truthy r1) eqn:T1; destruct (truthy r2) eqn:T2; try reflexivity.
    + destruct (proj2 H2) as (r & [= <-] & Hr); [|congruence].
      apply H1. now exists r1.
    + destruct (proj2 H1) as (r & [= <-] & Hr); [|congruence].
      apply H2. now exists r2.
  - destruct (truthy r1) eqn:T1; [|reflexivity].
    destruct (proj2 H2) as (r & Hr & _); [|discriminate]. apply H1. now exists r1.
  - destruct (truthy r2) eqn:T2; [|reflexivity].
    destruct (proj2 H1) as (r & Hr & _); [|discriminate]. apply H2. now exists r2.
  - reflexivity.
Qed.

Lemma partition_lengths `{SetOrder} (ids : gset string) (cites : list Citation.t) :
  length (fst (partition_citations ids cites))
  + length (snd (partition_citations ids cites)) = length cites.
Proof.
  induction cites as [|cite rest IH]; [reflexivity|]. simpl.
  destruct (partition_citations ids rest) as [valid removed]. simpl in IH.
  destruct (_resolve_chunk_id _ _) as [r|]; [destruct (truthy r)|]; simpl; lia.
Qed.

Lemma partition_removed `{SetOrder} (ids : gset string) (cites : list Citation.t) :
  sublist (snd (partition_citations ids cites)) cites /\
  forall c, c ∈ cites ->
    (c ∈ snd (partition_citations ids cites) <->
     (forall rid, rid ∈ ids -> endswith rid (Citation.chunk_id c) = false) \/
     (Citation.chunk_id c = "" /\ "" ∈ ids)).
Proof.
  induction cites as [|cite rest [IHs IHm]]; simpl.
  - split; [constructor|]. intros c Hc. now apply elem_of_nil in Hc.
  - pose proof (resolve_dropped (Citation.chunk_id cite) ids) as Hd.
    destruct (partition_citations ids rest) as [valid removed]. simpl in *.
    assert (Hkept : forall r, _resolve_chunk_id (Citation.chunk_id cite) ids = Some r ->
              truthy r = true ->
              forall c, c ∈ cite :: rest ->
                c ∈ removed <->
                (forall rid, rid ∈ ids -> endswith rid (Citation.chunk_id c) = false) \/
                (Citation.chunk_id c = "" /\ "" ∈ ids)).
    { intros r Hr Ht c Hc. apply elem_of_cons in Hc as [-> | Hc]; [|now apply IHm].
      split.
      - intros Hin. apply Hd. intros r' Hr'.
        exfalso.
        assert (Hcr : cite ∈ rest) by (eapply elem_of_sublist; eassumption).
        apply (IHm cite Hcr) in Hin. pose proof (proj2 Hd Hin r Hr). congruence.
      - intros Hcase. exfalso. pose proof (proj2 Hd Hcase r Hr). congruence. }
    assert (Hdrop : (forall r, _resolve_chunk_id (Citation.chunk_id cite) ids = Some r ->
                       truthy r = false) ->
              forall c, c ∈ cite :: rest ->
                c ∈ cite :: removed <->
                (forall rid, rid ∈ ids -> endswith rid (Citation.chunk_id c) = false) \/
                (Citation.chunk_id c = "" /\ "" ∈ ids)).
    { intros Hall c Hc. apply elem_of_cons in Hc as [-> | Hc].
      - split; [intros _; now apply Hd | intros _; left].
      - rewrite elem_of_cons, <- (IHm c Hc). split; [|now right].
        intros [-> | Hin]; [|exact Hin].
        apply IHm; [exact Hc|]. now apply Hd. }
    destruct (_resolve_chunk_id (Citation.chunk_id cite) ids) as [r|] eqn:E.
    + destruct (truthy r) eqn:Ht; simpl.
      * split; [now apply sublist_cons | now apply (Hkept r)].
      * split; [now apply sublist_skip|]. apply Hdrop. now intros r' [= <-].
    + simpl. split; [now apply sublist_skip|]. apply Hdrop. discriminate.
Qed.

Lemma partition_kept `{SetOrder} (ids : gset string) (cites : list Citation.t) :
  exists kept,
    sublist kept cites /\
    Forall2
      (fun new old =>
         Citation.source_id new = Citation.source_id old /\
         Citation.relevant_quote new = Citation.relevant_quote old /\
         endswith (Citation.chunk_id new) (Citation.chunk_id old) = true /\
         (Citation.chunk_id old ∈ ids -> new = old))
      (fst (partition_citations ids cites)) kept.
Proof.
  induction cites as [|cite rest (kept & Hsub & Hall)]; simpl.
  - exists []. split; constructor.
  - destruct (partition_citations ids rest) as [valid removed]. simpl in *.
    destruct (_resolve_chunk_id (Citation.chunk_id cite) ids) as [r|] eqn:E;
      [destruct (truthy r) eqn:Ht|]; simpl.
    + exists (cite :: kept). split; [now apply sublist_skip|].
      constructor; [|exact Hall]. simpl. repeat split.
      * now apply resolve_some in E as [_ ?].
      * intros Hin. rewrite (resolve_member _ _ Hin) in E. injection E as <-.
        now destruct cite.
    + exists kept. split; [now apply sublist_cons | exact Hall].
    + exists kept. split; [now apply sublist_cons | exact Hall].
Qed.

Lemma partition_order (first second : SetOrder) (ids : gset string)
    (cites : list Citation.t) :
  snd (@partition_citations first ids cites) = snd (@partition_citations second ids cites) /\
  Forall2
    (fun a b =>
       Citation.source_id a = Citation.source_id b /\
       Citation.relevant_quote a = Citation.relevant_quote b)
    (fst (@partition_citations first ids cites))
    (fst (@partition_citations second ids cites)).
Proof.
  induction cites as [|cite rest [IHr IHk]]; simpl; [split; [reflexivity | constructor]|].
  pose proof (kept_order first second (Citation.chunk_id cite) ids) as Hk.
  destruct (@partition_citations first ids rest) as [v1 r1].
  destruct (@partition_citations second ids rest) as [v2 r2]. simpl in *. subst r2.
  destruct (@_resolve_chunk_id first _ _) as [a|];
    destruct (@_resolve_chunk_id second _ _) as [b|];
    try (destruct (truthy a)); try (destruct (truthy b)); try discriminate Hk; simpl;
    (split; [reflexivity|]); try exact IHk.
  constructor; [|exact IHk]. split; reflexivity.
Qed.

End VerdictFacts.

Section VerifierProperties.
Context `{SetOrder} {F : Type}.
Import PyStr Guardrails.

(** X1.  The citation verifier returns the response untouched -- no
    caveat, no downgrade, no identifier rewritten -- exactly when every
    citation already carries a retrieved, non-empty identifier. *)
Theorem verify_citations_unchanged_iff (response : RAGResponse.t)
    (retrieval : RetrievalResult.t F) :
  verify_citations response retrieval = response <->
  Forall (fun c => Citation.chunk_id c ∈ RetrievalResult.chunk_ids retrieval /\
                   Citation.chunk_id c <> "")
    (RAGResponse.citations response).
Proof.
  split.
  - intros E.
    pose proof (partition_valid (RetrievalResult.chunk_ids retrieval)
                  (RAGResponse.citations response)) as Hv.
    apply (f_equal RAGResponse.citations) in E. unfold verify_citations in E.
    destruct (partition_citations _ _) as [valid removed].
    cbn [RAGResponse.citations RAGResponse.set_citations fst] in *. now subst valid.
  - intros Hall. unfold verify_citations. rewrite (partition_fixed _ _ Hall).
    now destruct response.
Qed.

(** X2.  What the verifier reports.  The dropped citations are those
    whose identifier no retrieved identifier ends with, and those with an
    empty identifier when the empty identifier is itself retrieved.  The
    kept and the dropped citations together are the original ones.  When
    nothing is dropped, caveats and confidence are untouched; otherwise
    exactly one caveat is appended, which counts and lists the dropped
    identifiers in their original order, and a high confidence becomes
    medium.  Answer, evidence quality and the no-evidence flag never
    change. *)
Theorem verify_citations_report (response : RAGResponse.t)
    (retrieval : RetrievalResult.t F) :
  exists removed,
    sublist removed (RAGResponse.citations response) /\
    (forall c, c ∈ RAGResponse.citations response ->
       (c ∈ removed <->
        (forall rid, rid ∈ RetrievalResult.chunk_ids retrieval ->
           endswith rid (Citation.chunk_id c) = false) \/
        (Citation.chunk_id c = "" /\ "" ∈ RetrievalResult.chunk_ids retrieval))) /\
    length (RAGResponse.citations (verify_citations response retrieval)) + length removed
      = length (RAGResponse.citations response) /\
    RAGResponse.caveats (verify_citations response retrieval)
      = RAGResponse.caveats response
        ++ match removed with [] => [] | _ :: _ => [removed_caveat removed] end /\
    RAGResponse.confidence (verify_citations response retrieval)
      = match removed with
        | [] => RAGResponse.confidence response
        | _ :: _ =>
            if String.eqb (RAGResponse.confidence response) "high" then "medium"
            else RAGResponse.confidence response
        end /\
    RAGResponse.answer (verify_citations response retrieval) = RAGResponse.answer response /\
    RAGResponse.evidence_quality (verify_citations response retrieval)
      = RAGResponse.evidence_quality response /\
    RAGResponse.no_evidence (verify_citations response retrieval)
      = RAGResponse.no_evidence response.
Proof.
  pose proof (partition_removed (RetrievalResult.chunk_ids retrieval)
                (RAGResponse.citations response)) as [Hsub Hmem].
  pose proof (partition_lengths (RetrievalResult.chunk_ids retrieval)
                (RAGResponse.citations response)) as Hlen.
  unfold verify_citations.
  destruct (partition_citations _ _) as [valid removed]. cbn [fst snd] in *.
  exists removed. split; [exact Hsub|]. split; [exact Hmem|].
  destruct removed as [|c removed].
  - cbn. rewrite app_nil_r. repeat split; try reflexivity. exact Hlen.
  - unfold downgrade. cbn [RAGResponse.confidence RAGResponse.append_caveat].
    destruct (String.eqb (RAGResponse.confidence response) "high");
      cbn; repeat split; try reflexivity; exact Hlen.
Qed.

(** X3.  What the verifier keeps.  The kept citations are original
    citations, in their original order, in which nothing but [chunk_id]
    may differ; the new identifier is a retrieved, non-empty identifier
    that ends with the cited one, and a citation whose identifier is
    itself retrieved is kept as it is. *)
Theorem verify_citations_kept (response : RAGResponse.t)
    (retrieval : RetrievalResult.t F) :
  exists kept,
    sublist kept (RAGResponse.citations response) /\
    Forall2
      (fun new old =>
         Citation.source_id new = Citation.source_id old /\
         Citation.relevant_quote new = Citation.relevant_quote old /\
         Citation.chunk_id new ∈ RetrievalResult.chunk_ids retrieval /\
         Citation.chunk_id new <> "" /\
         endswith (Citation.chunk_id new) (Citation.chunk_id old) = true /\
         (Citation.chunk_id old ∈ RetrievalResult.chunk_ids retrieval -> new = old))
      (RAGResponse.citations (verify_citations response retrieval)) kept.
Proof.
  destruct (partition_kept (RetrievalResult.chunk_ids retrieval)
              (RAGResponse.citations response)) as (kept & Hsub & Hall).
  pose proof (partition_valid (RetrievalResult.chunk_ids retrieval)
                (RAGResponse.citations response)) as Hv.
  unfold verify_citations.
  destruct (partition_citations _ _) as [valid removed]. cbn [fst snd] in *.
  exists kept. split; [exact Hsub|].
  cbn [RAGResponse.citations RAGResponse.set_citations].
  clear Hsub. induction Hall as [|new old valid kept (Hs & Hq & He & Hx) Hall IH];
    [constructor|].
  apply Forall_cons in Hv as [[Hin Hne] Hv].
  constructor; [|now apply IH]. repeat split; assumption.
Qed.

End VerifierProperties.

Section VerifierOrder.
Import PyStr Guardrails.

(** X4.  The iteration order of the set of retrieved identifiers can
    show in one place only: the identifier a kept citation is rewritten
    to.  The same citations are kept, and the caveats, the confidence and
    every other field are the same, for any two orders. *)
Theorem verify_citations_order (first second : SetOrder) {F : Type}
    (response : RAGResponse.t) (retrieval : RetrievalResult.t F) :
  Forall2
    (fun a b =>
       Citation.source_id a = Citation.source_id b /\
       Citation.relevant_quote a = Citation.relevant_quote b)
    (RAGResponse.citations (@verify_citations first F response retrieval))
    (RAGResponse.citations (@verify_citations second F response retrieval)) /\
  RAGResponse.caveats (@verify_citations first F response retrieval)
    = RAGResponse.caveats (@verify_citations second F response retrieval) /\
  RAGResponse.confidence (@verify_citations first F response retrieval)
    = RAGResponse.confidence (@verify_citations second F response retrieval) /\
  RAGResponse.answer (@verify_citations first F response retrieval)
    = RAGResponse.answer (@verify_citations second F response retrieval) /\
  RAGResponse.evidence_quality (@verify_citations first F response retrieval)
    = RAGResponse.evidence_quality (@verify_citations second F response retrieval) /\
  RAGResponse.no_evidence (@verify_citations first F response retrieval)
    = RAGResponse.no_evidence (@verify_citations second F response retrieval).
Proof.
  destruct (partition_order first second (RetrievalResult.chunk_ids retrieval)
              (RAGResponse.citations response)) as [Hr Hk].
  unfold verify_citations.
  destruct (@partition_citations first _ _) as [v1 r1].
  destruct (@partition_citations second _ _) as [v2 r2]. cbn [fst snd] in *. subst r2.
  split; [exact Hk|]. repeat split; reflexivity.
Qed.

(** X5.  An abbreviated identifier that several retrieved identifiers
    end with is ambiguous: when the raw identifier is not itself
    retrieved, every retrieved identifier that ends with it is the
    resolution under some iteration order of the set. *)
Theorem resolve_chunk_id_ambiguous (raw rid : string) (ids : gset string) :
  raw ∉ ids -> rid ∈ ids -> endswith rid raw = true ->
  exists order : SetOrder, @_resolve_chunk_id order raw ids = Some rid.
Proof.
  intros Hraw Hrid Hend.
  assert (Hperm : forall s : gset string,
            (if bool_decide (rid ∈ s) then rid :: elements (s ∖ {[ rid ]}) else elements s)
            ≡ₚ elements s).
  { intros s. case_bool_decide as Hin; [|reflexivity].
    rewrite <- elements_union_singleton
      by (intros [_ Hx]%elem_of_difference; apply Hx, elem_of_singleton; reflexivity).
    apply elements_proper. intros x. rewrite elem_of_union, elem_of_singleton,
      elem_of_difference, elem_of_singleton.
    destruct (decide (x = rid)) as [->|]; tauto. }
  exists {| set_iter := fun s =>
              if bool_decide (rid ∈ s) then rid :: elements (s ∖ {[ rid ]}) else elements s;
            set_iter_perm := Hperm |}.
  unfold _resolve_chunk_id. rewrite bool_decide_eq_false_2 by exact Hraw.
  cbn [set_iter]. rewrite bool_decide_eq_true_2 by exact Hrid.
  cbn [List.find]. now rewrite Hend, orb_true_r.
Qed.

End VerifierOrder.

Lemma resolve_chunk_id_ambiguous_witness :
  let ids : gset string := {[ "a__body__001"; "b__body__001" ]} in
  (exists order : SetOrder,
      @Guardrails._resolve_chunk_id order "body__001" ids = Some "a__body__001") /\
  (exists order : SetOrder,
      @Guardrails._resolve_chunk_id order "body__001" ids = Some "b__body__001").
Proof.
  intros ids. split.
  - apply (resolve_chunk_id_ambiguous "body__001" "a__body__001" ids).
    + intros Hin.
      apply elem_of_union in Hin as [Hin|Hin]; apply elem_of_singleton in Hin; discriminate.
    + apply elem_of_union_l, elem_of_singleton. reflexivity.
    + reflexivity.
  - apply (resolve_chunk_id_ambiguous "body__001" "b__body__001" ids).
    + intros Hin.
      apply elem_of_union in Hin as [Hin|Hin]; apply elem_of_singleton in Hin; discriminate.
    + apply elem_of_union_r, elem_of_singleton. reflexivity.
    + reflexivity.
Defined.

(** ** The two guardrails in sequence *)

Section GuardrailFacts.
Import PyStr Guardrails Spec.

Lemma downgrade_evidence_quality r :
  RAGResponse.evidence_quality (downgrade r) = RAGResponse.evidence_quality r.
Proof. unfold downgrade. now destruct (String.eqb _ _). Qed.

(** a confidence after the downgrade is never ["high"] *)
Lemma downgrade_not_high r : RAGResponse.confidence (downgrade r) <> "high".
Proof.
  rewrite downgrade_confidence.
  destruct (String.eqb_spec (RAGResponse.confidence r) "high"); [discriminate | assumption].
Qed.

Lemma downgrade_lowers r :
  RAGResponse.confidence (downgrade r) = RAGResponse.confidence r \/
  (RAGResponse.confidence r = "high" /\ RAGResponse.confidence (downgrade r) = "medium").
Proof.
  rewrite downgrade_confidence.
  destruct (String.eqb_spec (RAGResponse.confidence r) "high"); [now right | now left].
Qed.

(** one step of the entity check: nothing, or one caveat and a downgrade *)
Lemma entity_check_step (response : RAGResponse.t) (context_text : string) :
  entity_check response context_text = response \/
  ((exists caveat,
       RAGResponse.caveats (entity_check response context_text)
       = RAGResponse.caveats response ++ [caveat]) /\
   RAGResponse.confidence (entity_check response context_text) <> "high" /\
   (RAGResponse.confidence (entity_check response context_text)
      = RAGResponse.confidence response \/
    (RAGResponse.confidence response = "high" /\
     RAGResponse.confidence (entity_check response context_text) = "medium")) /\
   RAGResponse.evidence_quality (entity_check response context_text)
     = RAGResponse.evidence_quality response).
Proof.
  destruct (entity_check_cases response context_text) as [-> | (_ & _ & ->)];
    [now left | right].
  unfold after_detection.
  rewrite downgrade_caveats, downgrade_evidence_quality.
  split; [|split; [apply downgrade_not_high | split]].
  - destruct (keeps_enough _ _); eexists; reflexivity.
  - destruct (downgrade_lowers
                (if keeps_enough (cleaned_answer_of response context_text)
                      (RAGResponse.answer response)
                 then RAGResponse.append_caveat
                        (RAGResponse.set_answer response
                           (cleaned_answer_of response context_text))
                        (removed_sentences_caveat
                           (stripped_sentences_of response context_text)
                           (ungrounded_of response context_text))
                 else RAGResponse.append_caveat response
                        (flagged_terms_caveat (ungrounded_of response context_text))))
      as [E | [E1 E2]].
    + left. rewrite E. now destruct (keeps_enough _ _).
    + right. split; [|exact E2]. rewrite <- E1. now destruct (keeps_enough _ _).
  - now destruct (keeps_enough _ _).
Qed.

(** one step of the citation verifier: the citations apart, nothing, or
    one caveat and a downgrade *)
Lemma verify_citations_step `{SetOrder} {F : Type} (response : RAGResponse.t)
    (retrieval : RetrievalResult.t F) :
  RAGResponse.answer (verify_citations response retrieval) = RAGResponse.answer response /\
  RAGResponse.evidence_quality (verify_citations response retrieval)
    = RAGResponse.evidence_quality response /\
  RAGResponse.no_evidence (verify_citations response retrieval)
    = RAGResponse.no_evidence response /\
  ((RAGResponse.caveats (verify_citations response retrieval) = RAGResponse.caveats response /\
    RAGResponse.confidence (verify_citations response retrieval)
      = RAGResponse.confidence response /\
    length (RAGResponse.citations (verify_citations response retrieval))
      = length (RAGResponse.citations response)) \/
   ((exists caveat,
        RAGResponse.caveats (verify_citations response retrieval)
        = RAGResponse.caveats response ++ [caveat]) /\
    RAGResponse.confidence (verify_citations response retrieval) <> "high" /\
    (RAGResponse.confidence (verify_citations response retrieval)
       = RAGResponse.confidence response \/
     (RAGResponse.confidence response = "high" /\
      RAGResponse.confidence (verify_citations response retrieval) = "medium")))).
Proof.
  pose proof (partition_lengths (RetrievalResult.chunk_ids retrieval)
                (RAGResponse.citations response)) as Hlen.
  unfold verify_citations.
  destruct (partition_citations _ _) as [valid removed]. cbn [fst snd] in Hlen.
  destruct removed as [|c removed].
  - cbn. repeat split; try reflexivity. left. repeat split.
    simpl in Hlen. lia.
  - set (r' := RAGResponse.append_caveat response (removed_caveat (c :: removed))).
    cbn [RAGResponse.answer RAGResponse.evidence_quality RAGResponse.no_evidence
         RAGResponse.caveats RAGResponse.confidence RAGResponse.citations
         RAGResponse.set_citations].
    rewrite downgrade_answer, downgrade_evidence_quality, downgrade_no_evidence,
      downgrade_caveats.
    repeat split; try reflexivity. right.
    split; [eexists; reflexivity|]. split; [apply downgrade_not_high|].
    apply (downgrade_lowers r').
Qed.

End GuardrailFacts.

Section GuardrailProperties.
Context `{SetOrder} {F : Type}.
Import PyStr Guardrails Spec.

(** X6.  Through citation verification followed by the entity check,
    as the pipeline runs them, a response only loses: the caveats it had
    are kept in front and at most two are appended, the confidence is
    unchanged or goes from high to medium, and the evidence quality, the
    no-evidence flag and (after verification) the citations are left
    alone. *)
Theorem guardrails_only_lower (response : RAGResponse.t)
    (retrieval : RetrievalResult.t F) (context_text : string) :
  (exists added,
      RAGResponse.caveats (entity_check (verify_citations response retrieval) context_text)
      = RAGResponse.caveats response ++ added /\ length added <= 2) /\
  (RAGResponse.confidence (entity_check (verify_citations response retrieval) context_text)
     = RAGResponse.confidence response \/
   (RAGResponse.confidence response = "high" /\
    RAGResponse.confidence (entity_check (verify_citations response retrieval) context_text)
      = "medium")) /\
  RAGResponse.evidence_quality (entity_check (verify_citations response retrieval) context_text)
    = RAGResponse.evidence_quality response /\
  RAGResponse.no_evidence (entity_check (verify_citations response retrieval) context_text)
    = RAGResponse.no_evidence response /\
  RAGResponse.citations (entity_check (verify_citations response retrieval) context_text)
    = RAGResponse.citations (verify_citations response retrieval).
Proof.
  destruct (verify_citations_step response retrieval) as (_ & Hq & Hn & Hv).
  set (verified := verify_citations response retrieval) in *.
  rewrite entity_check_no_evidence, entity_check_citations, Hn.
  destruct (entity_check_step verified context_text) as [-> | ([c2 Hc2] & Hnh & Hl & Hq2)].
  - split; [|split; [|repeat split; [exact Hq..]]].
    + destruct Hv as [(-> & _) | ([c1 ->] & _)];
        [exists []; rewrite app_nil_r; split; [reflexivity | simpl; lia]
        | exists [c1]; split; [reflexivity | simpl; lia]].
    + destruct Hv as [(_ & -> & _) | (_ & _ & Hl)]; [now left | exact Hl].
  - rewrite Hq2, Hc2. split; [|split; [|repeat split; [exact Hq..]]].
    + destruct Hv as [(-> & _) | ([c1 ->] & _)];
        [exists [c2]; split; [reflexivity | simpl; lia]
        | exists [c1; c2]; rewrite <- app_assoc; split; [reflexivity | simpl; lia]].
    + destruct Hv as [(_ & Hcv & _) | (_ & Hnh1 & Hl1)].
      * rewrite <- Hcv. exact Hl.
      * destruct Hl as [-> | [Hhigh _]]; [exact Hl1 | contradiction].
Qed.

(** X7.  A response that leaves the two guardrails with confidence
    ["high"] went through untouched but for repaired identifiers: no
    citation was dropped, no sentence stripped, no caveat added. *)
Theorem high_confidence_untouched (response : RAGResponse.t)
    (retrieval : RetrievalResult.t F) (context_text : string) :
  RAGResponse.confidence (entity_check (verify_citations response retrieval) context_text)
    = "high" ->
  RAGResponse.confidence response = "high" /\
  RAGResponse.answer (entity_check (verify_citations response retrieval) context_text)
    = RAGResponse.answer response /\
  RAGResponse.caveats (entity_check (verify_citations response retrieval) context_text)
    = RAGResponse.caveats response /\
  length (RAGResponse.citations
            (entity_check (verify_citations response retrieval) context_text))
    = length (RAGResponse.citations response).
Proof.
  intros Hhigh.
  destruct (verify_citations_step response retrieval) as (Ha & _ & _ & Hv).
  set (verified := verify_citations response retrieval) in *.
  destruct (entity_check_step verified context_text) as [E | (_ & Hnh & _)];
    [|contradiction].
  rewrite E in *. rewrite Ha.
  destruct Hv as [(Hc & Hcf & Hl) | (_ & Hnh & _)]; [|contradiction].
  rewrite <- Hcf. repeat split; assumption.
Qed.

End GuardrailProperties.

Lemma high_confidence_untouched_witness :
  let retrieval :=
    Demo.retrieval_of
      [Demo.chunk "cells_2022__body__001" "Sirtuin activation extends lifespan in mice."
         (QArith_base.Qmake 1 2)] in
  let response :=
    RAGResponse.mk "Sirtuin activation extends lifespan in mice."
      [Demo.cite "cells_2022" "body__001"] "high" "direct" false [] in
  let out :=
    Guardrails.entity_check
      (@Guardrails.verify_citations elements_order _ response retrieval)
      "Sirtuin activation extends lifespan in mice." in
  RAGResponse.confidence response = "high" /\
  RAGResponse.answer out = RAGResponse.answer response /\
  RAGResponse.caveats out = RAGResponse.caveats response /\
  length (RAGResponse.citations out) = length (RAGResponse.citations response).
Proof.
  intros retrieval response out.
  apply (@high_confidence_untouched elements_order _ response retrieval
           "Sirtuin activation extends lifespan in mice.").
  vm_compute. reflexivity.
Defined.

(** ** The ways out of a query *)

Section QueryFacts.
Context {F : Type} `{PyFloat F} `{SetOrder}.
Import PyStr Guardrails RAGPipeline.

Lemma expand_chunks_flag (self : HybridRetriever.t F) (retrieval : RetrievalResult.t F) :
  RetrievalResult.has_sufficient_evidence (HybridRetriever.expand_chunks self retrieval)
  = RetrievalResult.has_sufficient_evidence retrieval.
Proof.
  unfold HybridRetriever.expand_chunks.
  destruct (_ || _); [reflexivity|].
  now destruct (HybridRetriever.expand_loop _ _ _).
Qed.

Lemma retrieve_flag (self : HybridRetriever.t F) (query : string)
    (vector_weight bm25_weight : option F) (top_k : option Z) :
  RetrievalResult.has_sufficient_evidence
    (HybridRetriever.retrieve self query vector_weight bm25_weight top_k) = false <->
  RetrievalResult.chunks
    (HybridRetriever.retrieve self query vector_weight bm25_weight top_k) = [].
Proof.
  unfold HybridRetriever.retrieve.
  cbn [RetrievalResult.has_sufficient_evidence RetrievalResult.chunks].
  destruct (slice_to _ _) as [|c l]; cbn [length Nat.ltb Nat.leb];
    split; intros; congruence.
Qed.

Lemma query_cases (self : RAGPipeline.t F) (question : string)
    (vector_weight bm25_weight : option F) :
  let run := query self question vector_weight bm25_weight in
  let last := _last_retrieval run in
  (last = HybridRetriever.retrieve (retriever self) question vector_weight bm25_weight None /\
   RetrievalResult.chunks last = [] /\
   RetrievalResult.has_sufficient_evidence last = false /\
   generated_from run = None /\
   response run = _no_evidence_response None) \/
  (topic_presence_check question (RetrievalResult.chunks last) 2 = false /\
   RetrievalResult.has_sufficient_evidence last = false /\
   generated_from run = None /\
   response run = _no_evidence_response (Some gate_reason)) \/
  (topic_presence_check question (RetrievalResult.chunks last) 2 = true /\
   RetrievalResult.has_sufficient_evidence last = true /\
   generated_from run = Some last /\
   response run
   = entity_check
       (verify_citations (generator self question last) last)
       (join LLMReranker.newline (map RetrievedChunk.text (RetrievalResult.chunks last)))).
Proof.
  cbv zeta. unfold query.
  destruct (RetrievalResult.has_sufficient_evidence
              (HybridRetriever.retrieve (retriever self) question vector_weight
                 bm25_weight None)) eqn:Hflag; cbn [negb].
  2:{ left. cbn [_last_retrieval generated_from response].
      repeat split; try assumption. now apply retrieve_flag. }
  right.
  match goal with
  | |- context [HybridRetriever.expand_chunks ?s ?r] =>
      set (expanded := HybridRetriever.expand_chunks s r);
      assert (Hexp : RetrievalResult.has_sufficient_evidence expanded = true)
        by (unfold expanded; rewrite expand_chunks_flag; exact Hflag)
  end.
  destruct (topic_presence_check question (RetrievalResult.chunks expanded) 2) eqn:Hgate;
    cbn [negb _last_retrieval generated_from response].
  - right. repeat split; try assumption.
    unfold RAGGenerator.generate. now rewrite Hexp.
  - left. repeat split; assumption.
Qed.

End QueryFacts.

Section QueryProperties.
Context {F : Type} `{PyFloat F} `{SetOrder}.
Import PyStr Guardrails RAGPipeline.

(** X8.  A query ends in one of three ways.  Retrieval returned no
    chunk: the retrieval result is left as it is and the canned
    no-evidence response is returned.  The evidence gate rejected the
    chunks left after reranking and expansion: [has_sufficient_evidence]
    is set to false and the canned response carries the explanation of the
    gate as its answer.  Otherwise the language model is called on the
    retrieval result that is left in [_last_retrieval] -- the generator's
    own shortcut for insufficient evidence is never taken, the flag being
    true -- and its response goes through citation verification and the
    entity check, the context being the chunk texts joined by newlines.
    So the generator is called exactly when the flag that is left behind
    is true. *)
Theorem query_exits (self : RAGPipeline.t F) (question : string)
    (vector_weight bm25_weight : option F) :
  let run := query self question vector_weight bm25_weight in
  let last := _last_retrieval run in
  (last = HybridRetriever.retrieve (retriever self) question vector_weight bm25_weight None /\
   RetrievalResult.chunks last = [] /\
   RetrievalResult.has_sufficient_evidence last = false /\
   generated_from run = None /\
   response run = _no_evidence_response None) \/
  (topic_presence_check question (RetrievalResult.chunks last) 2 = false /\
   RetrievalResult.has_sufficient_evidence last = false /\
   generated_from run = None /\
   response run = _no_evidence_response (Some gate_reason)) \/
  (topic_presence_check question (RetrievalResult.chunks last) 2 = true /\
   RetrievalResult.has_sufficient_evidence last = true /\
   generated_from run = Some last /\
   response run
   = entity_check
       (verify_citations (generator self question last) last)
       (join LLMReranker.newline (map RetrievedChunk.text (RetrievalResult.chunks last)))).
Proof. exact (query_cases self question vector_weight bm25_weight). Qed.

(** X9.  When the generator is not called the response is the canned
    one: [no_evidence] true, no citation, confidence ["low"], no caveat,
    and a non-empty answer. *)
Theorem no_generation_response (self : RAGPipeline.t F) (question : string)
    (vector_weight bm25_weight : option F) :
  generated_from (query self question vector_weight bm25_weight) = None ->
  RAGResponse.no_evidence (response (query self question vector_weight bm25_weight)) = true /\
  RAGResponse.citations (response (query self question vector_weight bm25_weight)) = [] /\
  RAGResponse.confidence (response (query self question vector_weight bm25_weight)) = "low" /\
  RAGResponse.caveats (response (query self question vector_weight bm25_weight)) = [] /\
  RAGResponse.answer (response (query self question vector_weight bm25_weight)) <> "" /\
  RetrievalResult.has_sufficient_evidence
    (_last_retrieval (query self question vector_weight bm25_weight)) = false.
Proof.
  intros Hgen.
  destruct (query_cases self question vector_weight bm25_weight)
    as [(_ & _ & Hf & _ & ->) | [(_ & Hf & _ & ->) | (_ & _ & Hg & _)]].
  - repeat split; try reflexivity; [discriminate | exact Hf].
  - repeat split; try reflexivity; [discriminate | exact Hf].
  - rewrite Hg in Hgen. discriminate.
Qed.

End QueryProperties.

Lemma no_generation_response_witness :
  let self : RAGPipeline.t QArith_base.Q :=
    RAGPipeline.mk Demo.retriever (fun _ => None) (fun _ _ => Demo.generated) in
  let run :=
    @RAGPipeline.query _ QFloat.instance elements_order self
      "Which battery chemistry is cheapest?" None None in
  RAGResponse.no_evidence (RAGPipeline.response run) = true /\
  RAGResponse.citations (RAGPipeline.response run) = [] /\
  RAGResponse.confidence (RAGPipeline.response run) = "low" /\
  RAGResponse.caveats (RAGPipeline.response run) = [] /\
  RAGResponse.answer (RAGPipeline.response run) <> "" /\
  RetrievalResult.has_sufficient_evidence (RAGPipeline._last_retrieval run) = false.
Proof.
  intros self run.
  apply (@no_generation_response _ QFloat.instance elements_order self
           "Which battery chemistry is cheapest?" None None).
  vm_compute. reflexivity.
Defined.

(** ** Evaluation of a query *)

Section EvaluatorProperties.
Context {F : Type} `{PyFloat F} `{SetOrder}.
Import PyStr Guardrails RAGPipeline.

Lemma filter_all {A} (f : A -> bool) (l : list A) :
  (forall x, x ∈ l -> f x = true) -> List.filter f l = l.
Proof.
  induction l as [|x l IH]; intros Hall; [reflexivity|]. simpl.
  rewrite (Hall x) by left. f_equal. apply IH. intros y Hy. apply Hall. now right.
Qed.

Lemma query_citations_retrieved (self : RAGPipeline.t F) (question : string)
    (vector_weight bm25_weight : option F) (cite : Citation.t) :
  cite ∈ RAGResponse.citations (response (query self question vector_weight bm25_weight)) ->
  Citation.chunk_id cite
    ∈ RetrievalResult.chunk_ids
        (_last_retrieval (query self question vector_weight bm25_weight)).
Proof.
  destruct (query_cases self question vector_weight bm25_weight)
    as [(_ & _ & _ & _ & ->) | [(_ & _ & _ & ->) | (_ & _ & _ & ->)]].
  - intros Hc. now apply elem_of_nil in Hc.
  - intros Hc. now apply elem_of_nil in Hc.
  - rewrite entity_check_citations. apply verify_citations_members.
Qed.

(** X10.  Scored by the evaluator against the chunks of
    [_last_retrieval], as [evaluate_single] does, a response of the
    pipeline has no invalid citation: the count of valid citations is the
    count of citations.  The precision is therefore [n / n] for a response
    with [n > 0] citations, 1.0 for a no-evidence response without
    citation and 0.0 for any other response without citation; it is 1.0
    whenever the generator was not called. *)
Theorem query_citation_precision (self : RAGPipeline.t F) (question : string)
    (expected_no_evidence : bool) (vector_weight bm25_weight : option F) :
  let run := query self question vector_weight bm25_weight in
  let n := length (RAGResponse.citations (response run)) in
  Evaluator.valid_citations (response run)
    (RetrievalResult.chunk_ids (_last_retrieval run)) = n /\
  fst (Evaluator.evaluate_single self question expected_no_evidence
         vector_weight bm25_weight)
    = (match n with
       | O => if RAGResponse.no_evidence (response run) then f1 else f0
       | S _ => fdiv (f_of_nat n) (f_of_nat n)
       end) /\
  (generated_from run = None ->
   fst (Evaluator.evaluate_single self question expected_no_evidence
          vector_weight bm25_weight) = f1).
Proof.
  cbv zeta.
  assert (Hvalid :
    Evaluator.valid_citations (response (query self question vector_weight bm25_weight))
      (RetrievalResult.chunk_ids
         (_last_retrieval (query self question vector_weight bm25_weight)))
    = length (RAGResponse.citations
                (response (query self question vector_weight bm25_weight)))).
  { unfold Evaluator.valid_citations. rewrite filter_all; [reflexivity|].
    intros c Hc. apply bool_decide_eq_true_2. now apply query_citations_retrieved. }
  assert (Hcp :
    fst (Evaluator.evaluate_single self question expected_no_evidence
           vector_weight bm25_weight)
    = match length (RAGResponse.citations
                      (response (query self question vector_weight bm25_weight))) with
      | O => if RAGResponse.no_evidence
                  (response (query self question vector_weight bm25_weight))
             then f1 else f0
      | S _ =>
          fdiv (f_of_nat (length (RAGResponse.citations
                                    (response (query self question vector_weight
                                                 bm25_weight)))))
               (f_of_nat (length (RAGResponse.citations
                                    (response (query self question vector_weight
                                                 bm25_weight)))))
      end).
  { unfold Evaluator.evaluate_single. cbn [fst]. unfold Evaluator.citation_precision.
    rewrite Hvalid.
    now destruct (RAGResponse.citations
                    (response (query self question vector_weight bm25_weight))). }
  split; [exact Hvalid|]. split; [exact Hcp|].
  intros Hgen. rewrite Hcp.
  destruct (query_cases self question vector_weight bm25_weight)
    as [(_ & _ & _ & _ & ->) | [(_ & _ & _ & ->) | (_ & _ & Hg & _)]];
    [reflexivity | reflexivity | rewrite Hg in Hgen; discriminate].
Qed.

End EvaluatorProperties.

(** ** What retrieval returns *)

Section RetrieveFacts.
Context {F : Type} `{PyFloat F} `{SetOrder}.
Import HybridRetriever Spec.

Lemma slice_to_sublist {A} (k : Z) (l : list A) : sublist (PyStr.slice_to k l) l.
Proof. unfold PyStr.slice_to. destruct (0 <=? k)%Z; apply sublist_take. Qed.

Lemma slice_to_length_exact {A} (k : Z) (l : list A) :
  length (PyStr.slice_to k l)
  = if (0 <=? k)%Z then Nat.min (Z.to_nat k) (length l)
    else length l - Z.to_nat (- k).
Proof.
  unfold PyStr.slice_to. destruct (0 <=? k)%Z; rewrite length_take; lia.
Qed.

Lemma bool_filter_sublist {A} (f : A -> bool) (l : list A) : sublist (List.filter f l) l.
Proof. rewrite bool_filter_as_filter. apply sublist_filter. Qed.

Lemma sublist_StronglySorted {A} (R : A -> A -> Prop) (l1 l2 : list A) :
  sublist l1 l2 -> StronglySorted R l2 -> StronglySorted R l1.
Proof.
  induction 1 as [|x l1 l2 Hsub IH|x l1 l2 Hsub IH]; intros Hs.
  - constructor.
  - apply StronglySorted_inv in Hs as [Hs Hx]. constructor; [now apply IH|].
    rewrite Forall_forall in *. intros y Hy. apply Hx.
    eapply elem_of_sublist; eassumption.
  - apply StronglySorted_inv in Hs as [Hs _]. now apply IH.
Qed.

Lemma dom_vector_scored (vector_results : list (Document.t * F)) :
  dom (vector_scored vector_results) = list_to_set (semantic_ids vector_results).
Proof.
  apply set_eq. intros cid.
  now rewrite elem_of_dom, vector_scored_dom, elem_of_list_to_set.
Qed.

Lemma dom_bm25_scored (bm25_results : list Document.t) :
  dom (bm25_scored bm25_results) = list_to_set (lexical_ids bm25_results).
Proof.
  apply set_eq. intros cid.
  now rewrite elem_of_dom, bm25_scored_dom, elem_of_list_to_set.
Qed.

Lemma fuse_ids (vw bw : F) (vector_results : list (Document.t * F))
    (bm25_results : list Document.t) :
  map RetrievedChunk.chunk_id (fuse vw bw vector_results bm25_results)
  ≡ₚ elements (list_to_set (semantic_ids vector_results ++ lexical_ids bm25_results)
                 : gset string).
Proof.
  rewrite fuse_ids_perm, dom_vector_scored, dom_bm25_scored.
  now rewrite list_to_set_app_L.
Qed.

Lemma retrieve_chunks_sublist (self : HybridRetriever.t F) (query : string)
    (vector_weight bm25_weight : option F) (top_k : option Z) :
  sublist
    (RetrievalResult.chunks (retrieve self query vector_weight bm25_weight top_k))
    (fuse (default (Config.vector_weight (config self)) vector_weight)
          (default (Config.bm25_weight (config self)) bm25_weight)
          (vectorstore self query (Config.vector_k (config self)))
          (bm25_retriever self query)).
Proof.
  unfold retrieve. cbn [RetrievalResult.chunks].
  etransitivity; [apply slice_to_sublist | apply bool_filter_sublist].
Qed.

Lemma retrieve_nodup (self : HybridRetriever.t F) (query : string)
    (vector_weight bm25_weight : option F) (top_k : option Z) :
  NoDup (map RetrievedChunk.chunk_id
           (RetrievalResult.chunks
              (retrieve self query vector_weight bm25_weight top_k))).
Proof.
  eapply sublist_NoDup;
    [|apply fmap_sublist, (retrieve_chunks_sublist self query vector_weight bm25_weight top_k)].
  rewrite fuse_ids. apply NoDup_elements.
Qed.

Lemma retrieve_above_threshold (self : HybridRetriever.t F) (query : string)
    (vector_weight bm25_weight : option F) (top_k : option Z) (c : RetrievedChunk.t F) :
  c ∈ RetrievalResult.chunks (retrieve self query vector_weight bm25_weight top_k) ->
  fge (RetrievedChunk.vector_score c) (Config.similarity_threshold (config self)) = true.
Proof.
  unfold retrieve. cbn [RetrievalResult.chunks]. intros Hc.
  now apply slice_to_subset, bool_filter_elem in Hc as [_ Hge].
Qed.

End RetrieveFacts.

Section RetrieveProperties.
Context {F : Type} `{PyFloat F} `{SetOrder}.
Import HybridRetriever Spec.

(** X11.  The bookkeeping of [retrieve].  [all_candidates] is the
    number of distinct identifiers in the semantic and lexical results
    together, [above_threshold] is at most that, and the number of chunks
    returned is [min(k, above_threshold)] for a limit [k >= 0] (for
    [k < 0] the slice drops the last [-k]).  [has_sufficient_evidence]
    is true exactly when a chunk is returned.  The chunks returned have
    pairwise different identifiers, all among the candidates. *)
Theorem retrieve_counts (self : HybridRetriever.t F) (query : string)
    (vector_weight bm25_weight : option F) (top_k : option Z) :
  let result := retrieve self query vector_weight bm25_weight top_k in
  let k := default (Config.rerank_candidates (config self)) top_k in
  let candidates : gset string :=
    list_to_set
      (semantic_ids (vectorstore self query (Config.vector_k (config self)))
       ++ lexical_ids (bm25_retriever self query)) in
  RetrievalResult.query result = query /\
  RetrievalResult.all_candidates result = size candidates /\
  RetrievalResult.above_threshold result <= RetrievalResult.all_candidates result /\
  length (RetrievalResult.chunks result)
    = (if (0 <=? k)%Z then Nat.min (Z.to_nat k) (RetrievalResult.above_threshold result)
       else RetrievalResult.above_threshold result - Z.to_nat (- k)) /\
  (RetrievalResult.has_sufficient_evidence result = true <->
   RetrievalResult.chunks result <> []) /\
  NoDup (map RetrievedChunk.chunk_id (RetrievalResult.chunks result)) /\
  (forall c, c ∈ RetrievalResult.chunks result -> RetrievedChunk.chunk_id c ∈ candidates).
Proof.
  cbv zeta.
  pose proof (retrieve_chunks_sublist self query vector_weight bm25_weight top_k) as Hsub.
  pose proof (fuse_ids (default (Config.vector_weight (config self)) vector_weight)
                (default (Config.bm25_weight (config self)) bm25_weight)
                (vectorstore self query (Config.vector_k (config self)))
                (bm25_retriever self query)) as Hids.
  split; [reflexivity|]. split; [|split; [|split; [|split; [|split]]]].
  - unfold retrieve. cbn [RetrievalResult.all_candidates].
    rewrite <- (length_map RetrievedChunk.chunk_id), Hids. reflexivity.
  - unfold retrieve. cbn [RetrievalResult.all_candidates RetrievalResult.above_threshold].
    apply sublist_length, bool_filter_sublist.
  - unfold retrieve. cbn [RetrievalResult.chunks RetrievalResult.above_threshold].
    apply slice_to_length_exact.
  - unfold retrieve.
    cbn [RetrievalResult.chunks RetrievalResult.has_sufficient_evidence].
    destruct (PyStr.slice_to _ _) as [|c l]; cbn [length Nat.ltb Nat.leb];
      split; intros; congruence.
  - apply retrieve_nodup.
  - intros c Hc. apply elem_of_elements. rewrite <- Hids.
    apply list_elem_of_fmap. exists c. split; [reflexivity|].
    eapply elem_of_sublist; eassumption.
Qed.

(** The order of the chunks.  The comparison of scores is assumed to be
    a strict weak order, as [<] is on floats that are not NaN. *)
Hypothesis flt_asym : forall a b : F, flt a b = true -> flt b a = false.
Hypothesis flt_negtrans :
  forall a b c : F, flt a b = false -> flt b c = false -> flt a c = false.

(** X12.  [retrieve] returns its chunks in descending order of
    [combined_score]: no chunk is followed, at any distance, by a chunk
    with a greater combined score. *)
Theorem retrieve_sorted (self : HybridRetriever.t F) (query : string)
    (vector_weight bm25_weight : option F) (top_k : option Z) :
  StronglySorted
    (fun a b =>
       flt (RetrievedChunk.combined_score a) (RetrievedChunk.combined_score b) = false)
    (RetrievalResult.chunks (retrieve self query vector_weight bm25_weight top_k)).
Proof.
  eapply sublist_StronglySorted; [apply retrieve_chunks_sublist|].
  unfold fuse. apply sort_desc_sorted.
  - intros a b c. apply flt_negtrans.
  - intros a b. apply flt_asym.
  - intros a b Hab. exact Hab.
Qed.

End RetrieveProperties.

Section QFloatFacts.
Import QArith_base.

Lemma QFloat_lt_asym (a b : Q) : QFloat.lt a b = true -> QFloat.lt b a = false.
Proof.
  unfold QFloat.lt. rewrite negb_true_iff, negb_false_iff. intros Hba.
  apply Qle_bool_iff. destruct (Qlt_le_dec a b) as [Hlt | Hle].
  - now apply Qlt_le_weak.
  - apply Qle_bool_iff in Hle. congruence.
Qed.

Lemma QFloat_lt_negtrans (a b c : Q) :
  QFloat.lt a b = false -> QFloat.lt b c = false -> QFloat.lt a c = false.
Proof.
  unfold QFloat.lt. rewrite !negb_false_iff, !Qle_bool_iff. intros Hba Hcb.
  now apply (Qle_trans c b a).
Qed.

End QFloatFacts.

Lemma retrieve_sorted_witness :
  StronglySorted
    (fun a b =>
       QFloat.lt (RetrievedChunk.combined_score a) (RetrievedChunk.combined_score b) = false)
    (RetrievalResult.chunks
       (@HybridRetriever.retrieve _ QFloat.instance elements_order
          Demo.retriever Demo.question None None None)).
Proof.
  apply (@retrieve_sorted _ QFloat.instance elements_order
           QFloat_lt_asym QFloat_lt_negtrans Demo.retriever Demo.question None None None).
Defined.

(** ** What the expander adds *)

Section ExpansionFacts.
Context {F : Type} `{PyFloat F}.
Import HybridRetriever Expansion.

Lemma range_bounds (lo hi x : Z) : x ∈ range lo hi -> (lo <= x < hi)%Z.
Proof.
  unfold range. intros Hx. apply list_elem_of_fmap in Hx as (i & -> & Hi).
  apply list_elem_of_In, in_seq in Hi. lia.
Qed.

Lemma invariant_start (self : HybridRetriever.t F) (retrieval : RetrievalResult.t F) :
  invariant self (RetrievalResult.chunks retrieval)
    (RetrievalResult.chunk_ids retrieval, RetrievalResult.chunks retrieval).
Proof.
  unfold invariant, RetrievalResult.chunk_ids. cbn [fst snd].
  split; [reflexivity|]. split; [|split; [auto|]].
  - intros c Hc. apply elem_of_list_to_set, list_elem_of_fmap. now exists c.
  - apply Forall_forall. intros c Hc. now left.
Qed.

Lemma add_neighbour_invariant (self : HybridRetriever.t F)
    (originals : list (RetrievedChunk.t F)) (chunk : RetrievedChunk.t F)
    (source_id section : string) (num offset : Z)
    (st : gset string * list (RetrievedChunk.t F)) :
  chunk ∈ originals ->
  _parse_chunk_id (RetrievedChunk.chunk_id chunk) = Some (source_id, section, num) ->
  (- Config.chunk_expand_window (config self) <= offset
   <= Config.chunk_expand_window (config self))%Z ->
  invariant self originals st ->
  invariant self originals
    (add_neighbour (_chunk_index self) chunk source_id section num st offset).
Proof.
  intros Hchunk Hparse Hoff Hinv. unfold add_neighbour.
  destruct st as [existing expanded].
  destruct (offset =? 0)%Z eqn:E0; [exact Hinv|]. apply Z.eqb_neq in E0.
  case_bool_decide as Hseen; [exact Hinv|].
  destruct (_chunk_index self !! _) as [adj_data|] eqn:Hidx; [|exact Hinv].
  destruct Hinv as (Hids & Horig & Hnodup & Hall). cbn [fst snd] in *.
  unfold invariant. cbn [fst snd].
  split; [|split; [|split]].
  - rewrite map_app, list_to_set_app_L, <- Hids. cbn [map RetrievedChunk.chunk_id].
    now rewrite list_to_set_cons, list_to_set_nil, (right_id_L ∅ (∪)).
  - intros c Hc. apply elem_of_union_l. now apply Horig.
  - intros Hnd. rewrite map_app. apply NoDup_app. split; [now apply Hnodup|]. split.
    + intros x Hx Hx'. cbn in Hx'. apply list_elem_of_singleton in Hx'. subst x.
      apply Hseen. rewrite Hids. now apply elem_of_list_to_set.
    + cbn. apply NoDup_singleton.
  - apply Forall_app. split; [exact Hall|]. apply Forall_singleton. right. split.
    + cbn [RetrievedChunk.chunk_id]. intros Hin. apply Hseen.
      apply list_elem_of_fmap in Hin as (c & -> & Hc). now apply Horig.
    + exists chunk. split; [exact Hchunk|].
      exists source_id, section, num, offset, adj_data.
      cbn [RetrievedChunk.chunk_id]. repeat split; try assumption; lia.
Qed.

Lemma fold_neighbours_invariant (self : HybridRetriever.t F)
    (originals : list (RetrievedChunk.t F)) (chunk : RetrievedChunk.t F)
    (source_id section : string) (num : Z) (offsets : list Z)
    (st : gset string * list (RetrievedChunk.t F)) :
  chunk ∈ originals ->
  _parse_chunk_id (RetrievedChunk.chunk_id chunk) = Some (source_id, section, num) ->
  Forall (fun offset =>
            (- Config.chunk_expand_window (config self) <= offset
             <= Config.chunk_expand_window (config self))%Z) offsets ->
  invariant self originals st ->
  invariant self originals
    (fold_left (add_neighbour (_chunk_index self) chunk source_id section num) offsets st).
Proof.
  intros Hchunk Hparse Hoffs. revert st.
  induction Hoffs as [|offset offsets Hoff _ IH]; intros st Hinv; [exact Hinv|].
  cbn [fold_left]. apply IH. now apply add_neighbour_invariant.
Qed.

Lemma window_offsets (w : Z) :
  Forall (fun offset => (- w <= offset <= w)%Z) (range (- w) (w + 1)).
Proof.
  apply Forall_forall. intros x Hx. apply range_bounds in Hx. lia.
Qed.

Lemma expand_loop_invariant (self : HybridRetriever.t F)
    (originals todo : list (RetrievedChunk.t F))
    (st : gset string * list (RetrievedChunk.t F)) :
  (forall c, c ∈ todo -> c ∈ originals) ->
  invariant self originals st ->
  invariant self originals (expand_loop self todo st).
Proof.
  revert st. induction todo as [|chunk rest IH]; intros st Htodo Hinv; [exact Hinv|].
  cbn [expand_loop].
  assert (Hrest : forall c, c ∈ rest -> c ∈ originals)
    by (intros c Hc; apply Htodo; now right).
  destruct (_parse_chunk_id (RetrievedChunk.chunk_id chunk))
    as [[[source_id section] num]|] eqn:Hparse; [|now apply IH].
  assert (Hfold :
    invariant self originals
      (fold_left (add_neighbour (_chunk_index self) chunk source_id section num)
         (range (- Config.chunk_expand_window (config self))
                (Config.chunk_expand_window (config self) + 1)) st)).
  { apply fold_neighbours_invariant; try assumption.
    - apply Htodo. left.
    - apply window_offsets. }
  destruct (_ <=? _)%Z; [exact Hfold | now apply IH].
Qed.

Lemma slice_to_Forall {A} (P : A -> Prop) (k : Z) (l : list A) :
  Forall P l -> Forall P (PyStr.slice_to k l).
Proof.
  rewrite !Forall_forall. intros Hall x Hx. apply Hall.
  eapply elem_of_sublist; [exact Hx|].
  unfold PyStr.slice_to. destruct (0 <=? k)%Z; apply sublist_take.
Qed.

Lemma expand_chunks_invariant (self : HybridRetriever.t F)
    (retrieval : RetrievalResult.t F) :
  Forall (expanded_from self (RetrievalResult.chunks retrieval))
    (RetrievalResult.chunks (expand_chunks self retrieval)) /\
  (NoDup (map RetrievedChunk.chunk_id (RetrievalResult.chunks retrieval)) ->
   NoDup (map RetrievedChunk.chunk_id
            (RetrievalResult.chunks (expand_chunks self retrieval)))).
Proof.
  unfold expand_chunks.
  destruct (_ || _).
  { split; [|auto]. apply Forall_forall. intros c Hc. now left. }
  pose proof (expand_loop_invariant self (RetrievalResult.chunks retrieval)
                (RetrievalResult.chunks retrieval)
                (RetrievalResult.chunk_ids retrieval, RetrievalResult.chunks retrieval)
                (fun c Hc => Hc) (invariant_start self retrieval))
    as (_ & _ & Hnodup & Hall).
  destruct (expand_loop _ _ _) as [ids expanded]. cbn [fst snd] in *.
  cbn [RetrievalResult.chunks RetrievalResult.set_chunks]. split.
  - now apply slice_to_Forall.
  - intros Hnd. eapply sublist_NoDup; [apply Hnodup, Hnd|].
    apply fmap_sublist. unfold PyStr.slice_to. destruct (0 <=? _)%Z; apply sublist_take.
Qed.

End ExpansionFacts.

Section ExpansionProperties.
Context {F : Type} `{PyFloat F}.
Import HybridRetriever Expansion.

(** X13.  Every chunk that the expander returns is one of the chunks
    it was given, or a neighbour of one of them: a chunk of the store
    whose identifier is the one of its parent with the number moved by a
    non-zero offset within the window, under an identifier that no given
    chunk has, with [vector_score] and [combined_score] at 0.8 of the
    parent's and [bm25_score] 0.  A neighbour is never the parent of
    another neighbour. *)
Theorem expand_chunks_members (self : HybridRetriever.t F)
    (retrieval : RetrievalResult.t F) (c : RetrievedChunk.t F) :
  c ∈ RetrievalResult.chunks (expand_chunks self retrieval) ->
  c ∈ RetrievalResult.chunks retrieval \/
  ((RetrievedChunk.chunk_id c
      ∉ map RetrievedChunk.chunk_id (RetrievalResult.chunks retrieval)) /\
   RetrievedChunk.bm25_score c = f0 /\
   exists parent,
     parent ∈ RetrievalResult.chunks retrieval /\
     neighbour self parent c /\
     RetrievedChunk.vector_score c = fmul (RetrievedChunk.vector_score parent) f08 /\
     RetrievedChunk.combined_score c = fmul (RetrievedChunk.combined_score parent) f08).
Proof.
  intros Hc.
  destruct (expand_chunks_invariant self retrieval) as [Hall _].
  rewrite Forall_forall in Hall.
  destruct (Hall c Hc) as [Horig | (Hnew & parent & Hparent & Hn)]; [now left | right].
  pose proof Hn as (source_id & section & num & offset & adj_data & _ & _ & _ & _ & Heq).
  split; [exact Hnew|]. split; [now subst c|].
  exists parent. split; [exact Hparent|]. split; [exact Hn|]. now subst c.
Qed.

(** X14.  Expansion keeps the identifiers pairwise different: when no
    two of the given chunks share an identifier, no two of the returned
    chunks do. *)
Theorem expand_chunks_distinct (self : HybridRetriever.t F)
    (retrieval : RetrievalResult.t F) :
  NoDup (map RetrievedChunk.chunk_id (RetrievalResult.chunks retrieval)) ->
  NoDup (map RetrievedChunk.chunk_id
           (RetrievalResult.chunks (expand_chunks self retrieval))).
Proof. apply expand_chunks_invariant. Qed.

End ExpansionProperties.

Lemma expand_chunks_members_witness :
  let retrieval :=
    Demo.retrieval_of
      [Demo.chunk "cells_2022__body__001" "Sirtuin activation." (QArith_base.Qmake 1 2)] in
  let c :=
    RetrievedChunk.mk "cells_2022__body__002" "cells_2022" "body" 2 3
      "Sirtuin dosage is discussed." (QArith_base.Qmake 2 5) (QArith_base.Qmake 0 1)
      (QArith_base.Qmake 2 5) in
  c ∈ RetrievalResult.chunks retrieval \/
  ((RetrievedChunk.chunk_id c
      ∉ map RetrievedChunk.chunk_id (RetrievalResult.chunks retrieval)) /\
   RetrievedChunk.bm25_score c = @f0 _ QFloat.instance /\
   exists parent,
     parent ∈ RetrievalResult.chunks retrieval /\
     @Expansion.neighbour _ QFloat.instance Demo.retriever parent c /\
     RetrievedChunk.vector_score c
       = @fmul _ QFloat.instance (RetrievedChunk.vector_score parent) (@f08 _ QFloat.instance) /\
     RetrievedChunk.combined_score c
       = @fmul _ QFloat.instance (RetrievedChunk.combined_score parent)
           (@f08 _ QFloat.instance)).
Proof.
  intros retrieval c.
  apply (@expand_chunks_members _ QFloat.instance Demo.retriever retrieval c).
  vm_compute. right. left.
Defined.

Lemma expand_chunks_distinct_witness :
  let retrieval :=
    Demo.retrieval_of
      [Demo.chunk "cells_2022__body__001" "Sirtuin activation." (QArith_base.Qmake 1 2)] in
  NoDup (map RetrievedChunk.chunk_id
           (RetrievalResult.chunks
              (@HybridRetriever.expand_chunks _ QFloat.instance Demo.retriever retrieval))).
Proof.
  intros retrieval.
  apply (@expand_chunks_distinct _ QFloat.instance Demo.retriever retrieval).
  cbn. apply NoDup_singleton.
Defined.

(** ** Chunk identifiers: building and parsing *)

Section ChunkIdFacts.
Import PyStr.

Lemma chars_str (l : list ascii) : chars (str l) = l.
Proof. apply list_ascii_of_string_of_list_ascii. Qed.

Lemma str_chars (s : string) : str (chars s) = s.
Proof. apply string_of_list_ascii_of_string. Qed.

Lemma len_str (l : list ascii) : len (str l) = length l.
Proof. induction l as [|c l IH]; [reflexivity|]. simpl. now rewrite <- IH. Qed.

Lemma len_chars (s : string) : length (chars s) = len s.
Proof. rewrite <- (str_chars s) at 2. now rewrite len_str. Qed.

Lemma prefix_chars_spec (p l : list ascii) :
  prefix_chars p l = true <-> exists rest, l = p ++ rest.
Proof.
  revert l. induction p as [|a p IH]; intros l; simpl.
  - split; [intros _; now exists l | reflexivity].
  - destruct l as [|b l].
    + split; [discriminate | intros [rest Hr]; discriminate].
    + rewrite andb_true_iff, IH. split.
      * intros [Hab [rest ->]]. apply Ascii.eqb_eq in Hab. subst b. now exists rest.
      * intros [rest [= -> ->]]. split; [apply Ascii.eqb_refl | now exists rest].
Qed.

Lemma contains_chars_spec (sub l : list ascii) :
  contains_chars sub l = true <-> exists before after, l = before ++ sub ++ after.
Proof.
  induction l as [|c l IH].
  - simpl. rewrite orb_false_r, prefix_chars_spec. split.
    + intros [rest Hr]. now exists [], rest.
    + intros (before & after & Hl). destruct before; [|discriminate].
      now exists after.
  - cbn [contains_chars]. rewrite orb_true_iff, prefix_chars_spec, IH. split.
    + intros [[rest Hr] | (before & after & ->)].
      * now exists [], rest.
      * now exists (c :: before), after.
    + intros (before & after & Hl). destruct before as [|b before].
      * left. now exists after.
      * right. injection Hl as -> ->. now exists before, after.
Qed.

(** *** Decimal digits *)

Lemma digit_char_digit (d : nat) :
  d < 10 -> is_digit (digit_char d) = true /\ (code (digit_char d) - 48)%N = N.of_nat d.
Proof.
  intros Hd. do 10 (destruct d as [|d]; [split; reflexivity|]). lia.
Qed.

Lemma digit_not_space (c : ascii) : is_digit c = true -> is_int_space c = false.
Proof.
  unfold is_digit, is_int_space, between, is_code. intros Hd.
  apply andb_true_iff in Hd as [H1 H2]. apply N.leb_le in H1, H2.
  repeat rewrite orb_false_iff. repeat split.
  - apply andb_false_iff. right. apply N.leb_gt. lia.
  - apply N.eqb_neq. lia.
  - apply N.eqb_neq. lia.
  - apply N.eqb_neq. lia.
Qed.

Lemma digit_not_sign (c : ascii) :
  is_digit c = true ->
  is_code 45 c = false /\ is_code 43 c = false /\ is_code 95 c = false.
Proof.
  unfold is_digit, between, is_code. intros Hd.
  apply andb_true_iff in Hd as [H1 H2]. apply N.leb_le in H1, H2.
  repeat split; apply N.eqb_neq; lia.
Qed.

Lemma nat_digits_spec (fuel n : nat) (acc : list ascii) :
  n < fuel ->
  exists ds,
    ds <> [] /\ nat_digits fuel n acc = ds ++ acc /\
    Forall (fun c => is_digit c = true) ds /\
    forall a,
      fold_left (fun a c => (a * 10 + (code c - 48))%N) ds a
      = (a * 10 ^ N.of_nat (length ds) + N.of_nat n)%N.
Proof.
  revert n acc. induction fuel as [|fuel IH]; intros n acc Hn; [lia|].
  cbn [nat_digits].
  assert (Hmod : n mod 10 < 10) by (apply Nat.mod_upper_bound; lia).
  destruct (digit_char_digit (n mod 10) Hmod) as [Hd Hv].
  pose proof (Nat.div_mod_eq n 10) as Hdm.
  assert (Hlt : n / 10 <> 0 -> n / 10 < fuel).
  { intros Hq. pose proof (Nat.div_lt n 10). lia. }
  revert Hd Hv Hdm Hlt. generalize (digit_char (n mod 10)) as d.
  generalize (n mod 10) as r. generalize (n / 10) as q. intros q r d Hd Hv Hdm Hlt.
  destruct (q =? 0)%nat eqn:E.
  - apply Nat.eqb_eq in E. exists [d].
    split; [discriminate|]. split; [reflexivity|]. split; [now repeat constructor|].
    intros a. cbn [fold_left length]. rewrite Hv.
    change (10 ^ N.of_nat 1)%N with 10%N. lia.
  - apply Nat.eqb_neq in E.
    destruct (IH q (d :: acc) (Hlt E)) as (ds & Hne & -> & Hall & Hval).
    exists (ds ++ [d]).
    split; [destruct ds; discriminate|]. split; [now rewrite <- app_assoc|].
    split; [apply Forall_app; split; [exact Hall | now repeat constructor]|].
    intros a. rewrite fold_left_app, Hval. cbn [fold_left]. rewrite Hv.
    rewrite length_app. cbn [length].
    replace (N.of_nat (length ds + 1)) with (N.succ (N.of_nat (length ds))) by lia.
    rewrite N.pow_succ_r'. lia.
Qed.

(** a number below [10 ^ (k + 1)] has at most [k + 1] digits *)
Lemma nat_digits_length (fuel n : nat) (acc : list ascii) (k : nat) :
  n < fuel -> (Z.of_nat n < 10 ^ Z.of_nat (S k))%Z ->
  length (nat_digits fuel n acc) <= S k + length acc.
Proof.
  revert n acc k. induction fuel as [|fuel IH]; intros n acc k Hn Hk; [lia|].
  cbn [nat_digits].
  pose proof (Nat.div_mod_eq n 10) as Hdm.
  assert (Hmod : n mod 10 < 10) by (apply Nat.mod_upper_bound; lia).
  assert (Hlt : n / 10 <> 0 -> n / 10 < fuel).
  { intros Hq. pose proof (Nat.div_lt n 10). lia. }
  revert Hdm Hmod Hlt. generalize (digit_char (n mod 10)) as d.
  generalize (n mod 10) as r. generalize (n / 10) as q. intros q r d Hdm Hmod Hlt.
  destruct (q =? 0)%nat eqn:E; [cbn [length]; lia|].
  apply Nat.eqb_neq in E.
  destruct k as [|k].
  { change (10 ^ Z.of_nat 1)%Z with 10%Z in Hk. lia. }
  rewrite (IH q (d :: acc) k (Hlt E)); [cbn [length]; lia|].
  rewrite (Nat2Z.inj_succ (S k)), Z.pow_succ_r in Hk by lia. lia.
Qed.

Lemma of_nat_length (n k : nat) :
  (Z.of_nat n < 10 ^ Z.of_nat (S k))%Z -> len (of_nat n) <= S k.
Proof.
  intros Hk. unfold of_nat. rewrite len_str.
  pose proof (nat_digits_length (S n) n [] k ltac:(lia) Hk) as Hl.
  cbn [length] in Hl. lia.
Qed.

Lemma of_nat_digits (n : nat) :
  exists ds,
    ds <> [] /\ chars (of_nat n) = ds /\
    Forall (fun c => is_digit c = true) ds /\
    fold_left (fun a c => (a * 10 + (code c - 48))%N) ds 0%N = N.of_nat n.
Proof.
  destruct (nat_digits_spec (S n) n [] ltac:(lia)) as (ds & Hne & Hds & Hall & Hval).
  exists ds. split; [exact Hne|]. split.
  - unfold of_nat. rewrite Hds, app_nil_r. apply chars_str.
  - split; [exact Hall|]. rewrite Hval. lia.
Qed.

Lemma zeros_digits (k : nat) :
  Forall (fun c => is_digit c = true) (repeat "0"%char k) /\
  fold_left (fun a c => (a * 10 + (code c - 48))%N) (repeat "0"%char k) 0%N = 0%N.
Proof.
  induction k as [|k [IH1 IH2]]; [split; [constructor | reflexivity]|].
  split; [constructor; [reflexivity | exact IH1]|]. exact IH2.
Qed.

Lemma int_digits_all (l : list ascii) (acc : N) :
  Forall (fun c => is_digit c = true) l ->
  int_digits l false acc
  = Some (fold_left (fun a c => (a * 10 + (code c - 48))%N) l acc).
Proof.
  intros Hall. revert acc. induction Hall as [|c l Hc _ IH]; intros acc; [reflexivity|].
  cbn [int_digits fold_left]. rewrite Hc. apply IH.
Qed.

Lemma int_unsigned_all (l : list ascii) :
  l <> [] -> Forall (fun c => is_digit c = true) l ->
  int_unsigned l = Some (fold_left (fun a c => (a * 10 + (code c - 48))%N) l 0%N).
Proof.
  intros Hne Hall. destruct l as [|c l]; [contradiction|].
  apply Forall_cons in Hall as [Hc Hall]. cbn [int_unsigned fold_left].
  rewrite Hc. now apply int_digits_all.
Qed.

Lemma lstrip_int_id (l : list ascii) :
  Forall (fun c => is_int_space c = false) l -> lstrip_int l = l.
Proof. intros Hall. destruct Hall as [|c l Hc _]; [reflexivity|]. simpl. now rewrite Hc. Qed.

Lemma int_of_body (l : list ascii) :
  Forall (fun c => is_int_space c = false) l ->
  rev (lstrip_int (rev (lstrip_int l))) = l.
Proof.
  intros Hall. rewrite (lstrip_int_id l Hall), lstrip_int_id.
  - apply rev_involutive.
  - apply Forall_rev. exact Hall.
Qed.

(** the digits of [format_03d] *)
Lemma format_03d_chars (z : Z) :
  exists ds,
    ds <> [] /\ Forall (fun c => is_digit c = true) ds /\
    fold_left (fun a c => (a * 10 + (code c - 48))%N) ds 0%N = Z.to_N (Z.abs z) /\
    length ds <= Nat.max 3 (len (of_nat (Z.to_nat (Z.abs z)))) /\
    chars (format_03d z) = if (z <? 0)%Z then "-"%char :: ds else ds.
Proof.
  unfold format_03d. destruct (z <? 0)%Z eqn:E.
  - apply Z.ltb_lt in E. replace (Z.abs z) with (- z)%Z by lia.
    destruct (of_nat_digits (Z.to_nat (- z))) as (ds & Hne & Hds & Hall & Hval).
    destruct (zeros_digits (2 - len (of_nat (Z.to_nat (- z))))) as [Hz1 Hz2].
    exists (repeat "0"%char (2 - len (of_nat (Z.to_nat (- z)))) ++ ds).
    split; [destruct (repeat _ _); [exact Hne | discriminate]|].
    split; [now apply Forall_app|]. split; [|split].
    + rewrite fold_left_app, Hz2, Hval. lia.
    + rewrite length_app, repeat_length, <- Hds, len_chars. lia.
    + rewrite !chars_append. unfold zeros. rewrite chars_str, Hds. reflexivity.
  - apply Z.ltb_ge in E. replace (Z.abs z) with z by lia.
    destruct (of_nat_digits (Z.to_nat z)) as (ds & Hne & Hds & Hall & Hval).
    destruct (zeros_digits (3 - len (of_nat (Z.to_nat z)))) as [Hz1 Hz2].
    exists (repeat "0"%char (3 - len (of_nat (Z.to_nat z))) ++ ds).
    split; [destruct (repeat _ _); [exact Hne | discriminate]|].
    split; [now apply Forall_app|]. split; [|split].
    + rewrite fold_left_app, Hz2, Hval. lia.
    + rewrite length_app, repeat_length, <- Hds, len_chars. lia.
    + rewrite chars_append. unfold zeros. rewrite chars_str, Hds. reflexivity.
Qed.

Lemma digits_filter (ds : list ascii) :
  Forall (fun c => is_digit c = true) ds -> List.filter is_digit ds = ds.
Proof.
  induction 1 as [|c ds Hc _ IH]; [reflexivity|]. simpl. now rewrite Hc, IH.
Qed.

(** within the limit on the number of digits, [int] reads back what
    [03d] wrote *)
Lemma int_of_format_03d (z : Z) :
  (Z.abs z < 10 ^ 4300)%Z -> int_of (format_03d z) = Some z.
Proof.
  intros Hz.
  destruct (format_03d_chars z) as (ds & Hne & Hall & Hval & Hlen & Hchars).
  assert (Hsp : Forall (fun c => is_int_space c = false) ds).
  { eapply Forall_impl; [exact Hall|]. apply digit_not_space. }
  assert (Hmax : (int_max_str_digits <? length ds)%nat = false).
  { apply Nat.ltb_ge. unfold int_max_str_digits.
    assert (len (of_nat (Z.to_nat (Z.abs z))) <= 4300); [|lia].
    apply (of_nat_length _ 4299).
    change (Z.of_nat 4300) with 4300%Z. lia. }
  clear Hz Hlen.
  unfold int_of. rewrite Hchars. destruct (z <? 0)%Z eqn:E.
  - apply Z.ltb_lt in E.
    rewrite int_of_body by (constructor; [reflexivity | exact Hsp]).
    cbn [List.filter]. change (is_digit "-"%char) with false. cbn match.
    rewrite (digits_filter ds Hall), Hmax.
    change (is_code 45 "-"%char) with true. cbn match.
    rewrite (int_unsigned_all ds Hne Hall), Hval. cbn [option_map]. f_equal. lia.
  - apply Z.ltb_ge in E. rewrite (int_of_body ds Hsp), (digits_filter ds Hall), Hmax.
    destruct ds as [|c ds'] eqn:Eds; [contradiction|].
    assert (Hc : is_digit c = true) by (now apply Forall_cons in Hall as [? _]).
    destruct (digit_not_sign c Hc) as (-> & -> & _).
    rewrite (int_unsigned_all (c :: ds') Hne Hall), Hval. cbn [option_map]. f_equal. lia.
Qed.

Lemma format_03d_no_underscore (z : Z) :
  Forall (fun c => Ascii.eqb "_"%char c = false) (chars (format_03d z)).
Proof.
  destruct (format_03d_chars z) as (ds & _ & Hall & _ & _ & ->).
  assert (Hds : Forall (fun c => Ascii.eqb "_"%char c = false) ds).
  { eapply Forall_impl; [exact Hall|]. intros c Hc.
    destruct (digit_not_sign c Hc) as (_ & _ & H95).
    destruct (Ascii.eqb_spec "_"%char c) as [<-|]; [discriminate H95 | reflexivity]. }
  destruct (z <? 0)%Z; [constructor; [reflexivity | exact Hds] | exact Hds].
Qed.

(** *** Splitting from the right *)

Lemma lsplit_aux_rest (sep : list ascii) (seplen : nat) (l cur : list ascii) :
  lsplit_aux sep seplen l 0 0 cur = [rev cur ++ l].
Proof.
  revert cur. induction l as [|c l IH]; intros cur; simpl.
  - now rewrite app_nil_r.
  - rewrite IH. simpl. now rewrite <- app_assoc.
Qed.

Lemma lsplit_aux_no_sep (sep : list ascii) (seplen : nat) (pre rest : list ascii)
    (n : nat) (cur : list ascii) :
  (forall a c b, pre = a ++ c :: b -> prefix_chars sep (c :: b ++ rest) = false) ->
  lsplit_aux sep seplen (pre ++ rest) (S n) 0 cur
  = lsplit_aux sep seplen rest (S n) 0 (rev pre ++ cur).
Proof.
  revert cur. induction pre as [|c pre IH]; intros cur Hno; [reflexivity|].
  cbn [app lsplit_aux].
  rewrite (Hno [] c pre eq_refl).
  rewrite IH.
  - cbn [rev]. now rewrite <- app_assoc.
  - intros a c' b Hpre. apply (Hno (c :: a) c' b). now rewrite Hpre.
Qed.

Lemma lsplit_aux_at_sep (rest cur : list ascii) (n : nat) :
  lsplit_aux ["_"; "_"]%char 2 ("_"%char :: "_"%char :: rest) (S n) 0 cur
  = rev cur :: lsplit_aux ["_"; "_"]%char 2 rest n 0 [].
Proof. reflexivity. Qed.

Lemma rsplit_chunk_id (source_id section number : string) :
  Forall (fun c => Ascii.eqb "_"%char c = false) (chars number) ->
  contains "__" section = false ->
  (forall rest, section <> String "_"%char rest) ->
  rsplit "__" 2 (source_id +:+ "__" +:+ section +:+ "__" +:+ number)
  = [source_id; section; number].
Proof.
  intros Hnum Hsec Hstart. unfold rsplit.
  change (rev (chars "__")) with ["_"; "_"]%char. change (len "__") with 2.
  rewrite !chars_append. change (chars "__") with ["_"; "_"]%char.
  rewrite !rev_app_distr. change (rev ["_"; "_"]%char) with ["_"; "_"]%char.
  rewrite <- !app_assoc. cbn [app].
  rewrite lsplit_aux_no_sep.
  2:{ intros a c b Hpre. cbn [prefix_chars].
      assert (Hc : c ∈ rev (chars number)).
      { rewrite Hpre. apply elem_of_app. right. left. }
      apply list_elem_of_In, in_rev, list_elem_of_In in Hc.
      rewrite Forall_forall in Hnum. now rewrite (Hnum c Hc). }
  rewrite lsplit_aux_at_sep, app_nil_r, rev_involutive.
  rewrite lsplit_aux_no_sep.
  2:{ intros a c b Hpre.
      destruct (prefix_chars ["_"; "_"]%char (c :: b ++ "_"%char :: "_"%char :: rev (chars source_id)))
        eqn:Hp; [exfalso | reflexivity].
      apply prefix_chars_spec in Hp as [tail Htail]. cbn [app] in Htail.
      injection Htail as -> Htail.
      apply (f_equal (@rev ascii)) in Hpre. rewrite rev_involutive in Hpre.
      destruct b as [|d b].
      - rewrite rev_app_distr in Hpre. cbn in Hpre.
        apply (Hstart (str (rev a))).
        rewrite <- (str_chars section), Hpre. reflexivity.
      - cbn [app] in Htail. injection Htail as -> _.
        assert (Hc : contains "__" section = true); [|congruence].
        apply contains_chars_spec. exists (rev b), (rev a).
        rewrite Hpre, rev_app_distr. cbn [rev]. rewrite <- !app_assoc. reflexivity. }
  rewrite lsplit_aux_at_sep, app_nil_r, rev_involutive.
  rewrite lsplit_aux_rest. cbn [rev app map].
  now rewrite !rev_involutive, !str_chars.
Qed.

End ChunkIdFacts.

Section ChunkIdProperties.
Import PyStr HybridRetriever.

(** X15.  Building a chunk identifier and parsing it are inverse to
    each other: the identifier [source_id__section__NNN] that the expander
    builds for a neighbour (the number formatted with [03d], of either
    sign, of at most 4300 digits, beyond which Python converts no number)
    is parsed back into the same source, section and number, provided that
    the section name holds no double underscore and does not start with an
    underscore.  The source identifier may hold any characters, double
    underscores included. *)
Theorem parse_chunk_id_round_trip (source_id section : string) (num : Z) :
  (Z.abs num < 10 ^ 4300)%Z ->
  contains "__" section = false ->
  (forall rest, section <> String "_"%char rest) ->
  _parse_chunk_id (source_id +:+ "__" +:+ section +:+ "__" +:+ format_03d num)
  = Some (source_id, section, num).
Proof.
  intros Hnum Hsec Hstart. unfold _parse_chunk_id.
  rewrite (rsplit_chunk_id source_id section (format_03d num)
             (format_03d_no_underscore num) Hsec Hstart).
  now rewrite (int_of_format_03d num Hnum).
Qed.

End ChunkIdProperties.

Lemma parse_chunk_id_round_trip_witness :
  HybridRetriever._parse_chunk_id
    ("cells__2022" +:+ "__" +:+ "body_text" +:+ "__" +:+ PyStr.format_03d (-7))
  = Some ("cells__2022", "body_text", (-7)%Z).
Proof.
  apply (parse_chunk_id_round_trip "cells__2022" "body_text" (-7)).
  - vm_compute. reflexivity.
  - reflexivity.
  - intros rest. discriminate.
Defined.

(** ** Substrings *)

Section SubstringFacts.
Import PyStr Re.

Lemma contains_spec (sub s : string) :
  contains sub s = true <-> exists before after, chars s = before ++ chars sub ++ after.
Proof. apply contains_chars_spec. Qed.

Lemma contains_trans (a b c : string) :
  contains a b = true -> contains b c = true -> contains a c = true.
Proof.
  rewrite !contains_spec. intros (b1 & b2 & Hb) (c1 & c2 & Hc).
  exists (c1 ++ b1), (b2 ++ c2). rewrite Hc, Hb, <- !app_assoc. reflexivity.
Qed.

Lemma contains_chars_infix (sub before after : list ascii) :
  contains_chars sub (before ++ sub ++ after) = true.
Proof. apply contains_chars_spec. now exists before, after. Qed.

Lemma contains_empty (kw : string) : kw <> "" -> contains kw "" = false.
Proof.
  intros Hne. destruct (contains kw "") eqn:E; [|reflexivity]. exfalso.
  apply contains_spec in E as (before & after & Heq). apply Hne.
  rewrite <- (str_chars kw). change (chars "") with (@nil ascii) in Heq.
  symmetry in Heq. apply app_eq_nil in Heq as [_ Heq]. apply app_eq_nil in Heq as [-> _].
  reflexivity.
Qed.

Lemma lower_chars (s : string) : chars (lower s) = map lower_char (chars s).
Proof. unfold lower. apply chars_str. Qed.

Lemma contains_lower (a b : string) :
  contains a b = true -> contains (lower a) (lower b) = true.
Proof.
  rewrite !contains_spec. intros (before & after & Hb).
  exists (map lower_char before), (map lower_char after).
  now rewrite !lower_chars, Hb, !map_app.
Qed.

(** every match that [finditer] reports is a substring of the text *)
Lemma finditer_aux_substring (r : regex) (prev : option ascii) (s : list ascii)
    (skip : nat) (m : string) :
  m ∈ finditer_aux r prev s skip -> contains_chars (chars m) s = true.
Proof.
  revert prev skip. induction s as [|c s IH]; intros prev skip Hm.
  - now apply elem_of_nil in Hm.
  - assert (Htail : forall p k, m ∈ finditer_aux r p s k ->
                      contains_chars (chars m) (c :: s) = true).
    { intros p k Hin. cbn [contains_chars]. rewrite (IH p k Hin). apply orb_true_r. }
    cbn [finditer_aux] in Hm. destruct skip as [|n]; [|now apply (Htail (Some c) n)].
    destruct (match_at r prev (c :: s)) as [rest|]; [|now apply (Htail (Some c) 0)].
    destruct (length (c :: s) - length rest) as [|n'] eqn:En;
      [now apply (Htail (Some c) 0)|].
    apply elem_of_cons in Hm as [-> | Hm]; [|now apply (Htail (Some c) n')].
    rewrite chars_str. apply contains_chars_spec.
    exists [], (skipn (S n') (c :: s)). cbn [app]. symmetry. apply firstn_skipn.
Qed.

Lemma findall_substring (r : regex) (text m : string) :
  m ∈ findall r text -> contains m text = true.
Proof. apply finditer_aux_substring. Qed.

Lemma join_infix (sep : string) (before parts after : list string) :
  exists l r, chars (join sep (before ++ parts ++ after)) = l ++ chars (join sep parts) ++ r.
Proof.
  assert (Hpre : forall parts after,
            exists r, chars (join sep (parts ++ after)) = chars (join sep parts) ++ r).
  { clear. intros parts after. induction parts as [|p [|q parts] IH].
    - cbn. now exists (chars (join sep after)).
    - cbn [app join] in *. destruct after as [|a after].
      + exists []. now rewrite app_nil_r.
      + exists (chars (sep +:+ join sep (a :: after))). now rewrite chars_append.
    - destruct IH as [r Hr].
      change (join sep ((p :: q :: parts) ++ after))
        with (p +:+ sep +:+ join sep ((q :: parts) ++ after)).
      change (join sep (p :: q :: parts)) with (p +:+ sep +:+ join sep (q :: parts)).
      exists r. rewrite !chars_append, Hr, <- !app_assoc. reflexivity. }
  induction before as [|b before (l & r & IH)].
  - destruct (Hpre parts after) as [r Hr]. exists [], r. exact Hr.
  - cbn [app]. destruct (before ++ parts ++ after) as [|x rest] eqn:E.
    + destruct before; [|discriminate]. cbn [app] in E.
      apply app_eq_nil in E as [-> _]. exists (chars b), []. cbn.
      now rewrite app_nil_r.
    + change (join sep (b :: x :: rest)) with (b +:+ sep +:+ join sep (x :: rest)).
      exists (chars b ++ chars sep ++ l), r.
      rewrite !chars_append, IH, <- !app_assoc. reflexivity.
Qed.

End SubstringFacts.

(** ** Evidence gate: keywords and contexts *)

Section GateMoreFacts.
Import PyStr Guardrails Spec.

Lemma lower_char_idem (c : ascii) : lower_char (lower_char c) = lower_char c.
Proof. destruct c as [[] [] [] [] [] [] [] []]; reflexivity. Qed.

Lemma lower_idem (s : string) : lower (lower s) = lower s.
Proof.
  unfold lower at 1. rewrite lower_chars, map_map. unfold lower. f_equal.
  apply map_ext. intros c. apply lower_char_idem.
Qed.

Lemma keyword_token (query kw : string) :
  kw ∈ _extract_query_keywords query <->
  exists tok,
    tok ∈ Re.findall token_pattern query /\ kw = lower tok /\
    (kw ∉ _STOP_WORDS) /\ 3 <= len kw.
Proof.
  rewrite extract_query_keywords_spec. unfold gate_keywords.
  rewrite elem_of_list_to_set, !bool_filter_elem, list_elem_of_fmap,
    negb_true_iff, bool_decide_eq_false, Nat.leb_le.
  split.
  - intros [[(tok & -> & Htok) Hstop] Hlen]. now exists tok.
  - intros (tok & Htok & -> & Hstop & Hlen). repeat split; try assumption. now exists tok.
Qed.

Lemma keyword_nonempty (query kw : string) :
  kw ∈ _extract_query_keywords query -> kw <> "".
Proof.
  intros (tok & _ & _ & _ & Hlen)%keyword_token ->. simpl in Hlen. lia.
Qed.

Lemma filter_length_le {A} (f g : A -> bool) (l : list A) :
  (forall x, x ∈ l -> f x = true -> g x = true) ->
  length (List.filter f l) <= length (List.filter g l).
Proof.
  induction l as [|x l IH]; intros Himp; [reflexivity|]. simpl.
  assert (IH' : length (List.filter f l) <= length (List.filter g l))
    by (apply IH; intros y Hy; apply Himp; now right).
  destruct (f x) eqn:Ef.
  - rewrite (Himp x) by (left || exact Ef). simpl. lia.
  - destruct (g x); simpl; lia.
Qed.

Lemma filter_length_all {A} (f : A -> bool) (l : list A) :
  (forall x, x ∈ l -> f x = true) -> length (List.filter f l) = length l.
Proof.
  induction l as [|x l IH]; intros Hall; [reflexivity|]. simpl.
  rewrite (Hall x) by left. simpl. f_equal. apply IH. intros y Hy. apply Hall. now right.
Qed.

Lemma filter_length_none {A} (f : A -> bool) (l : list A) :
  (forall x, x ∈ l -> f x = false) -> length (List.filter f l) = 0.
Proof.
  induction l as [|x l IH]; intros Hall; [reflexivity|]. simpl.
  rewrite (Hall x) by left. apply IH. intros y Hy. apply Hall. now right.
Qed.

Lemma gate_context_infix {F} (before chunks after : list (RetrievedChunk.t F))
    (kw : string) :
  contains kw (join " " (map (fun c => lower (RetrievedChunk.text c)) chunks)) = true ->
  contains kw
    (join " " (map (fun c => lower (RetrievedChunk.text c)) (before ++ chunks ++ after)))
  = true.
Proof.
  intros Hkw. rewrite !map_app.
  destruct (join_infix " "
              (map (fun c => lower (RetrievedChunk.text c)) before)
              (map (fun c => lower (RetrievedChunk.text c)) chunks)
              (map (fun c => lower (RetrievedChunk.text c)) after)) as (l & r & Hj).
  apply contains_spec in Hkw as (k1 & k2 & Hk).
  apply contains_spec. exists (l ++ k1), (k2 ++ r).
  rewrite Hj, Hk, <- !app_assoc. reflexivity.
Qed.

End GateMoreFacts.

Section GateProperties.
Context {F : Type}.
Import PyStr Guardrails Spec.

(** X16.  For a query in Latin-1 text (every character below code
    point 256): every keyword that the gate extracts has at least 3
    characters, is not a stop word, is in lower case, and occurs in the
    lower-cased query.  (The last two parts rest on [lower] being a map on
    single characters, which it is on that range only.) *)
Theorem query_keywords_shape (query kw : string) :
  kw ∈ _extract_query_keywords query ->
  3 <= len kw /\ (kw ∉ _STOP_WORDS) /\ lower kw = kw /\
  contains kw (lower query) = true.
Proof.
  intros (tok & Htok & -> & Hstop & Hlen)%keyword_token.
  split; [exact Hlen|]. split; [exact Hstop|]. split; [apply lower_idem|].
  apply contains_lower. now apply findall_substring in Htok.
Qed.

(** X17.  On an empty list of chunks the gate passes only when it
    cannot judge: when the query has no keyword, or when
    [min_keyword_hits] is not positive. *)
Theorem topic_presence_check_no_chunks (query : string) (min_keyword_hits : Z) :
  topic_presence_check query (@nil (RetrievedChunk.t F)) min_keyword_hits = true <->
  _extract_query_keywords query = ∅ \/ (min_keyword_hits <= 0)%Z.
Proof.
  unfold topic_presence_check. case_bool_decide as Hk; [split; [now left | reflexivity]|].
  cbn [map join].
  rewrite filter_length_none.
  2:{ intros kw Hkw. apply contains_empty.
      apply elem_of_elements in Hkw. now apply keyword_nonempty in Hkw. }
  rewrite Z.leb_le. cbn [Z.of_nat].
  split; [intros Hle; right; lia | intros [He | Hm]; [contradiction | lia]].
Qed.

(** X18.  For a query and chunk texts in Latin-1 text (every character
    below code point 256): the gate passes whenever one of the chunks
    contains the query, up to the case of the letters.  (Beyond that
    range lower-casing depends on the neighbouring characters, and a
    keyword need not occur in the lower-cased text of a chunk that holds
    the query.) *)
Theorem topic_presence_check_quoted_query (query : string)
    (chunks : list (RetrievedChunk.t F)) (min_keyword_hits : Z) (c : RetrievedChunk.t F) :
  c ∈ chunks ->
  contains (lower query) (lower (RetrievedChunk.text c)) = true ->
  topic_presence_check query chunks min_keyword_hits = true.
Proof.
  intros Hc Hq. unfold topic_presence_check. case_bool_decide as Hk; [reflexivity|].
  apply list_elem_of_split in Hc as (before & after & ->).
  rewrite filter_length_all.
  2:{ intros kw Hkw. apply elem_of_elements in Hkw.
      apply (gate_context_infix before [c] after). cbn [map join].
      eapply contains_trans; [|exact Hq].
      destruct (proj1 (keyword_token query kw) Hkw) as (tok & Htok & -> & _ & _). apply contains_lower. now apply findall_substring in Htok. }
  apply Z.leb_le.
  assert (Hsize : size (_extract_query_keywords query) <> 0).
  { intros Hs. apply Hk. now apply size_empty_iff, leibniz_equiv in Hs. }
  change (length (elements (_extract_query_keywords query)))
    with (size (_extract_query_keywords query)).
  pose proof (Z.div_le_upper_bound (Z.of_nat (size (_extract_query_keywords query))) 3
                (Z.of_nat (size (_extract_query_keywords query)))).
  lia.
Qed.

(** X19.  More context never closes the gate: a query that passes on
    a list of chunks passes on every list that holds these chunks in
    sequence, whatever comes before and after them. *)
Theorem topic_presence_check_monotone (query : string)
    (before chunks after : list (RetrievedChunk.t F)) (min_keyword_hits : Z) :
  topic_presence_check query chunks min_keyword_hits = true ->
  topic_presence_check query (before ++ chunks ++ after) min_keyword_hits = true.
Proof.
  unfold topic_presence_check. case_bool_decide as Hk; [reflexivity|].
  rewrite !Z.leb_le. intros Hle.
  pose proof (filter_length_le
                (fun kw => contains kw
                   (join " " (map (fun c => lower (RetrievedChunk.text c)) chunks)))
                (fun kw => contains kw
                   (join " " (map (fun c => lower (RetrievedChunk.text c))
                                (before ++ chunks ++ after))))
                (elements (_extract_query_keywords query))
                (fun kw _ => gate_context_infix before chunks after kw)).
  lia.
Qed.

End GateProperties.

Lemma query_keywords_shape_witness :
  3 <= PyStr.len "sirtuin" /\ ("sirtuin" ∉ Guardrails._STOP_WORDS) /\
  PyStr.lower "sirtuin" = "sirtuin" /\
  PyStr.contains "sirtuin" (PyStr.lower Demo.question) = true.
Proof.
  apply (query_keywords_shape Demo.question "sirtuin").
  apply elem_of_elements. vm_compute. apply list_elem_of_In. simpl. tauto.
Defined.

Lemma topic_presence_check_quoted_query_witness :
  Guardrails.topic_presence_check Demo.question
    [Demo.chunk "faq__body__001" "Q: Does Sirtuin Activation extend lifespan? A: In mice."
       (QArith_base.Qmake 1 2)] 2 = true.
Proof.
  eapply topic_presence_check_quoted_query; [left | reflexivity].
Defined.

Lemma topic_presence_check_monotone_witness :
  Guardrails.topic_presence_check Demo.question
    ([Demo.chunk "volt_2019__intro__004" "Lifespan of batteries." (QArith_base.Qmake 1 3)]
     ++ [Demo.chunk "cells_2022__body__001" "Sirtuin activation extends lifespan in mice."
           (QArith_base.Qmake 1 2)]
     ++ [Demo.chunk "cells_2022__body__002" "Sirtuin dosage is discussed."
           (QArith_base.Qmake 2 5)]) 2 = true.
Proof.
  apply topic_presence_check_monotone. vm_compute. reflexivity.
Defined.

(** ** Entity grounding filter: what is flagged *)

Section EntityMoreFacts.
Import PyStr Guardrails Spec.

Lemma lstrip_chars_suffix (l : list ascii) : exists pre, l = pre ++ lstrip_chars l.
Proof.
  induction l as [|c l [pre IH]]; [now exists []|]. simpl.
  destruct (is_space c); [|now exists []].
  exists (c :: pre). simpl. now rewrite <- IH.
Qed.

Lemma contains_strip (s : string) : contains (strip s) s = true.
Proof.
  apply contains_spec. unfold strip. rewrite chars_str.
  destruct (lstrip_chars_suffix (chars s)) as [p1 H1].
  destruct (lstrip_chars_suffix (rev (lstrip_chars (chars s)))) as [p2 H2].
  exists p1, (rev p2).
  rewrite H1 at 1. f_equal.
  rewrite <- (rev_involutive (lstrip_chars (chars s))) at 1.
  rewrite H2 at 1. now rewrite rev_app_distr.
Qed.

Lemma fold_add_elem {A} (f : A -> string) (keep : A -> bool) (l : list A)
    (acc : gset string) (x : string) :
  x ∈ fold_left (fun ents m => if keep m then ents ∪ {[ f m ]} else ents) l acc ->
  x ∈ acc \/ exists m, m ∈ l /\ x = f m.
Proof.
  revert acc. induction l as [|m l IH]; intros acc Hx; [now left|].
  cbn [fold_left] in Hx. apply IH in Hx as [Hx | (m' & Hm' & ->)].
  - destruct (keep m); [|now left].
    apply elem_of_union in Hx as [Hx | Hx]; [now left|].
    apply elem_of_singleton in Hx. right. exists m. split; [left | exact Hx].
  - right. exists m'. split; [now right | reflexivity].
Qed.

Lemma extract_entities_match (text ent : string) :
  ent ∈ _extract_entities text ->
  exists m, ent = strip m /\
    (m ∈ Re.findall _NUMBER_PATTERN text \/ m ∈ Re.findall _GENE_PATTERN text \/
     m ∈ Re.findall _PROPER_NOUN_PATTERN text).
Proof.
  unfold _extract_entities. intros Hent.
  apply (fold_add_elem strip (fun _ => true)) in Hent as [Hent | (m & Hm & ->)];
    [|exists m; tauto].
  apply (fold_add_elem strip
           (fun m => (3 <=? len (strip m))%nat
                     && negb (bool_decide (strip m ∈ common_abbreviations))))
    in Hent as [Hent | (m & Hm & ->)]; [|exists m; tauto].
  apply (fold_add_elem strip (fun _ => true)) in Hent as [Hent | (m & Hm & ->)];
    [|exists m; tauto].
  now apply elem_of_empty in Hent.
Qed.

Lemma extract_entities_substring (text ent : string) :
  ent ∈ _extract_entities text -> contains ent text = true.
Proof.
  intros (m & -> & Hm)%extract_entities_match.
  apply (contains_trans _ m); [apply contains_strip|].
  destruct Hm as [Hm | [Hm | Hm]]; now apply findall_substring in Hm.
Qed.

Lemma ungrounded_entities_elem (answer context_text ent : string) :
  ent ∈ ungrounded_entities answer context_text <->
  ent ∈ _extract_entities answer /\
  contains ent context_text = false /\
  contains (lower ent) (lower context_text) = false.
Proof.
  unfold ungrounded_entities.
  rewrite elem_of_list_to_set, bool_filter_elem, elem_of_elements, andb_true_iff,
    !negb_true_iff.
  tauto.
Qed.

End EntityMoreFacts.

Section EntityProperties.
Import PyStr Guardrails Spec.

(** X20.  Every term that the entity check treats as ungrounded --
    and so every term a caveat lists -- is a piece of the answer itself,
    and occurs in the context neither as it is nor in lower case against
    the lower-cased context. *)
Theorem ungrounded_terms_sound (answer context_text ent : string) :
  ent ∈ ungrounded_entities answer context_text ->
  contains ent answer = true /\
  contains ent context_text = false /\
  contains (lower ent) (lower context_text) = false.
Proof.
  intros (Hent & Hc & Hl)%ungrounded_entities_elem.
  split; [now apply extract_entities_substring | now split].
Qed.

(** X21.  An answer that the context contains word for word passes
    the entity check untouched. *)
Theorem entity_check_quoted_answer (response : RAGResponse.t) (context_text : string) :
  contains (RAGResponse.answer response) context_text = true ->
  entity_check response context_text = response.
Proof.
  intros Hq.
  assert (Hu : ungrounded_entities (RAGResponse.answer response) context_text = ∅).
  { apply leibniz_equiv, elem_of_equiv_empty. intros ent Hent.
    apply ungrounded_entities_elem in Hent as (Hent & Hc & _).
    apply extract_entities_substring in Hent.
    rewrite (contains_trans _ _ _ Hent Hq) in Hc. discriminate. }
  unfold entity_check. destruct (RAGResponse.no_evidence response); [reflexivity|].
  case_bool_decide; [reflexivity|]. now rewrite bool_decide_eq_true_2.
Qed.

End EntityProperties.

Lemma ungrounded_terms_sound_witness :
  PyStr.contains "AMPK" "AMPK rocks." = true /\
  PyStr.contains "AMPK" "Sirtuin activation." = false /\
  PyStr.contains (PyStr.lower "AMPK") (PyStr.lower "Sirtuin activation.") = false.
Proof.
  apply (ungrounded_terms_sound "AMPK rocks." "Sirtuin activation." "AMPK").
  apply ungrounded_entities_elem. split; [|split; reflexivity].
  apply elem_of_elements. vm_compute. apply list_elem_of_In. simpl. tauto.
Defined.

Lemma entity_check_quoted_answer_witness :
  Guardrails.entity_check (Demo.response_of "AMPK rocks." "high")
    "It is known: AMPK rocks. See the Methods Section." 
  = Demo.response_of "AMPK rocks." "high".
Proof.
  apply entity_check_quoted_answer. reflexivity.
Defined.

(** ** Reranker: order and prompt *)

Section RerankMoreFacts.
Context {F : Type} `{PyFloat F}.
Import PyStr LLMReranker.

Lemma sort_desc_fixed {A} (klt : A -> A -> bool) (l : list A) :
  Sorted (fun a b => klt a b = false) l -> sort_desc klt l = l.
Proof.
  induction 1 as [|x l Hs IH Hhd]; [reflexivity|].
  cbn [sort_desc fold_right]. fold (sort_desc klt l). rewrite IH.
  destruct Hhd as [|y l Hxy]; [reflexivity|]. cbn [insert_desc]. now rewrite Hxy.
Qed.

Lemma rerank_perm (self : LLMReranker.t) (query : string)
    (chunks : list (RetrievedChunk.t F)) :
  fst (rerank self query chunks) ≡ₚ chunks.
Proof.
  unfold rerank. destruct (length chunks <=? 1)%nat; [reflexivity|].
  destruct (self _); [apply sort_desc_perm | reflexivity].
Qed.

End RerankMoreFacts.

Section RerankProperties.
Context {F : Type} `{PyFloat F}.
Import PyStr LLMReranker.

(** X22.  Reranking is stable on an input that is already in order:
    when, under the scores of the response, no chunk is directly followed
    by a chunk with a greater key (relevance first, combined score
    second), the list comes back as it was given. *)
Theorem rerank_keeps_order (self : LLMReranker.t) (query : string)
    (chunks : list (RetrievedChunk.t F)) (scores : list ChunkScore.t) :
  self (build_prompt query chunks) = Some scores ->
  Sorted (fun a b => key_lt (score_map scores) a b = false) chunks ->
  fst (rerank self query chunks) = chunks.
Proof.
  intros Hsome Hsorted. unfold rerank.
  destruct (length chunks <=? 1)%nat; [reflexivity|].
  rewrite Hsome. cbn [fst]. now apply sort_desc_fixed.
Qed.

(** X23.  What the prompt shows of a passage: its identifier in
    brackets and a preview of its text of at most 400 characters in which
    every line break is replaced by a space; a text of at most 400
    characters without line break is shown as it is. *)
Theorem passage_line_preview (c : RetrievedChunk.t F) :
  exists preview,
    passage_line c = "[" +:+ RetrievedChunk.chunk_id c +:+ "]: " +:+ preview /\
    len preview = Nat.min 400 (len (RetrievedChunk.text c)) /\
    contains newline preview = false /\
    (len (RetrievedChunk.text c) <= 400 ->
     contains newline (RetrievedChunk.text c) = false ->
     preview = RetrievedChunk.text c).
Proof.
  unfold passage_line.
  set (text := RetrievedChunk.text c).
  exists (replace_char (ascii_of_nat 10) " "%char (str_slice_to 400 text)).
  split; [reflexivity|]. unfold replace_char, str_slice_to, slice_to.
  change (0 <=? 400)%Z with true. cbn match. change (Z.to_nat 400) with 400.
  rewrite chars_str. split; [|split].
  - rewrite len_str, length_map, length_take, len_chars. reflexivity.
  - destruct (contains newline _) eqn:E; [exfalso | reflexivity].
    apply contains_spec in E as (before & after & Heq). rewrite chars_str in Heq.
    assert (Hin : ascii_of_nat 10
                  ∈ map (fun ch => if Ascii.eqb ch (ascii_of_nat 10) then " "%char else ch)
                      (take 400 (chars text))).
    { rewrite Heq. apply elem_of_app. right. left. }
    apply list_elem_of_fmap in Hin as (ch & Hch & _).
    destruct (Ascii.eqb_spec ch (ascii_of_nat 10)) as [Heq'|Hne]; [discriminate Hch|].
    now apply Hne.
  - intros Hlen Hnl. rewrite take_ge by (rewrite len_chars; exact Hlen).
    rewrite <- (str_chars text) at 2. f_equal.
    rewrite <- (map_id (chars text)) at 2. apply map_ext_in. intros ch Hch.
    destruct (Ascii.eqb_spec ch (ascii_of_nat 10)) as [Heq'|]; [exfalso | reflexivity].
    subst ch. apply in_split in Hch as (before & after & Heq).
    assert (Hc : contains newline text = true); [|congruence].
    apply contains_spec. now exists before, after.
Qed.

End RerankProperties.

Lemma rerank_keeps_order_witness :
  let chunks :=
    [Demo.chunk "a__body__001" "alpha" (QArith_base.Qmake 1 2);
     Demo.chunk "b__body__001" "beta" (QArith_base.Qmake 1 3)] in
  let llm : LLMReranker.t := fun _ => Some [ChunkScore.mk "z__body__001" 9] in
  fst (@LLMReranker.rerank _ QFloat.instance llm "q" chunks) = chunks.
Proof.
  intros chunks llm.
  apply (@rerank_keeps_order _ QFloat.instance llm "q" chunks
           [ChunkScore.mk "z__body__001" 9]).
  - reflexivity.
  - repeat constructor.
Defined.

(** ** The chunks a query works with *)

Section QueryChunkFacts.
Context {F : Type} `{PyFloat F} `{SetOrder}.
Import PyStr Guardrails RAGPipeline.

Lemma last_retrieval_chunks (self : RAGPipeline.t F) (question : string)
    (vector_weight bm25_weight : option F) :
  let retrieved :=
    HybridRetriever.retrieve (retriever self) question vector_weight bm25_weight None in
  RetrievalResult.chunks
    (_last_retrieval (query self question vector_weight bm25_weight)) = [] \/
  exists kept,
    sublist kept
      (fst (LLMReranker.rerank (reranker self) question (RetrievalResult.chunks retrieved))) /\
    RetrievalResult.chunks
      (_last_retrieval (query self question vector_weight bm25_weight))
    = RetrievalResult.chunks
        (HybridRetriever.expand_chunks (retriever self)
           (RetrievalResult.set_chunks retrieved kept)).
Proof.
  cbv zeta. unfold query.
  destruct (RetrievalResult.has_sufficient_evidence
              (HybridRetriever.retrieve (retriever self) question vector_weight
                 bm25_weight None)) eqn:Hflag; cbn [negb].
  2:{ left. cbn [_last_retrieval]. now apply retrieve_flag. }
  right.
  exists (slice_to (Config.final_k (config self))
            (fst (LLMReranker.rerank (reranker self) question
                    (RetrievalResult.chunks
                       (HybridRetriever.retrieve (retriever self) question vector_weight
                          bm25_weight None))))).
  split; [apply slice_to_sublist|].
  destruct (topic_presence_check _ _ _); reflexivity.
Qed.

End QueryChunkFacts.

Section QueryChunkProperties.
Context {F : Type} `{PyFloat F} `{SetOrder}.
Import PyStr Guardrails RAGPipeline.

(** X24.  Where the chunks of a query come from.  Every chunk that
    [query] leaves in [_last_retrieval] -- the chunks the gate judges
    and the generator sees -- is a chunk that [retrieve] returned, with
    [vector_score >= similarity_threshold], or a neighbour that the
    expander added next to such a chunk, with scores at 0.8 of the
    parent's and [bm25_score] 0; a neighbour is not itself tested against
    the threshold. *)
Theorem query_chunks_provenance (self : RAGPipeline.t F) (question : string)
    (vector_weight bm25_weight : option F) (c : RetrievedChunk.t F) :
  c ∈ RetrievalResult.chunks
        (_last_retrieval (query self question vector_weight bm25_weight)) ->
  (c ∈ RetrievalResult.chunks
         (HybridRetriever.retrieve (retriever self) question vector_weight bm25_weight None) /\
   fge (RetrievedChunk.vector_score c) (Config.similarity_threshold (config self)) = true) \/
  (RetrievedChunk.bm25_score c = f0 /\
   exists parent,
     parent ∈ RetrievalResult.chunks
                (HybridRetriever.retrieve (retriever self) question vector_weight
                   bm25_weight None) /\
     fge (RetrievedChunk.vector_score parent)
         (Config.similarity_threshold (config self)) = true /\
     Expansion.neighbour (retriever self) parent c).
Proof.
  intros Hc.
  destruct (last_retrieval_chunks self question vector_weight bm25_weight)
    as [Hnil | (kept & Hsub & Heq)].
  { rewrite Hnil in Hc. now apply elem_of_nil in Hc. }
  rewrite Heq in Hc.
  assert (Hkept : forall x, x ∈ kept ->
            x ∈ RetrievalResult.chunks
                  (HybridRetriever.retrieve (retriever self) question vector_weight
                     bm25_weight None)).
  { intros x Hx. rewrite <- (rerank_perm (reranker self) question).
    eapply elem_of_sublist; eassumption. }
  destruct (expand_chunks_invariant (retriever self)
              (RetrievalResult.set_chunks
                 (HybridRetriever.retrieve (retriever self) question vector_weight
                    bm25_weight None) kept)) as [Hall _].
  rewrite Forall_forall in Hall.
  destruct (Hall c Hc) as [Horig | (_ & parent & Hparent & Hn)].
  - left. cbn [RetrievalResult.chunks RetrievalResult.set_chunks] in Horig.
    split; [now apply Hkept|].
    eapply retrieve_above_threshold. now apply Hkept.
  - right. cbn [RetrievalResult.chunks RetrievalResult.set_chunks] in Hparent.
    pose proof Hn as (source_id & section & num & offset & adj_data & _ & _ & _ & _ & Hrec).
    split; [now subst c|].
    exists parent. split; [now apply Hkept|]. split; [|exact Hn].
    eapply retrieve_above_threshold. now apply Hkept.
Qed.

(** X25.  The chunks that [query] leaves in [_last_retrieval] have
    pairwise different identifiers: fusion, filtering, reranking,
    truncation and expansion never produce two chunks under one
    identifier. *)
Theorem query_chunks_distinct (self : RAGPipeline.t F) (question : string)
    (vector_weight bm25_weight : option F) :
  NoDup (map RetrievedChunk.chunk_id
           (RetrievalResult.chunks
              (_last_retrieval (query self question vector_weight bm25_weight)))).
Proof.
  destruct (last_retrieval_chunks self question vector_weight bm25_weight)
    as [-> | (kept & Hsub & ->)]; [constructor|].
  apply expand_chunks_invariant. cbn [RetrievalResult.chunks RetrievalResult.set_chunks].
  eapply sublist_NoDup; [|apply fmap_sublist; exact Hsub].
  rewrite (rerank_perm (reranker self) question). apply retrieve_nodup.
Qed.

End QueryChunkProperties.

Lemma query_chunks_provenance_witness :
  let c :=
    RetrievedChunk.mk "cells_2022__body__002" "cells_2022" "body" 2 3
      "Sirtuin dosage is discussed." (QArith_base.Qmake 8 15) (QArith_base.Qmake 0 1)
      (QArith_base.Qmake 16 25) in
  let retrieved :=
    RetrievalResult.chunks
      (@HybridRetriever.retrieve _ QFloat.instance elements_order
         Demo.retriever Demo.question None None None) in
  (c ∈ retrieved /\
   QFloat.ge (RetrievedChunk.vector_score c) (QArith_base.Qmake 1 4) = true) \/
  (RetrievedChunk.bm25_score c = QArith_base.Qmake 0 1 /\
   exists parent,
     parent ∈ retrieved /\
     QFloat.ge (RetrievedChunk.vector_score parent) (QArith_base.Qmake 1 4) = true /\
     @Expansion.neighbour _ QFloat.instance Demo.retriever parent c).
Proof.
  intros c retrieved.
  apply (@query_chunks_provenance _ QFloat.instance elements_order
           Demo.pipeline Demo.question None None c).
  vm_compute. right. left.
Defined.

(** ** Identifiers that do not parse, and the size of the context *)

Section UnparsableFacts.
Context {F : Type} `{PyFloat F}.
Import PyStr HybridRetriever.

Lemma rsplit_no_sep (chunk_id : string) :
  contains "__" chunk_id = false -> rsplit "__" 2 chunk_id = [chunk_id].
Proof.
  intros Hno. unfold rsplit.
  change (rev (chars "__")) with ["_"; "_"]%char. change (len "__") with 2.
  rewrite <- (app_nil_r (rev (chars chunk_id))).
  rewrite lsplit_aux_no_sep.
  - cbn [lsplit_aux map rev app]. now rewrite !app_nil_r, !rev_involutive, str_chars.
  - intros a c b Hpre.
    destruct (prefix_chars ["_"; "_"]%char (c :: b ++ [])) eqn:Hp; [exfalso | reflexivity].
    apply prefix_chars_spec in Hp as [tail Htail]. rewrite app_nil_r in Htail.
    rewrite Htail in Hpre.
    apply (f_equal (@rev ascii)) in Hpre. rewrite rev_involutive in Hpre.
    assert (Hc : contains "__" chunk_id = true); [|congruence].
    apply contains_chars_spec. exists (rev tail), (rev a).
    rewrite Hpre, !rev_app_distr. cbn [rev app]. rewrite <- !app_assoc. reflexivity.
Qed.

Lemma parse_chunk_id_no_sep (chunk_id : string) :
  contains "__" chunk_id = false -> _parse_chunk_id chunk_id = None.
Proof. intros Hno. unfold _parse_chunk_id. now rewrite rsplit_no_sep. Qed.

Lemma expand_loop_unparsed (self : HybridRetriever.t F)
    (todo : list (RetrievedChunk.t F)) (st : gset string * list (RetrievedChunk.t F)) :
  Forall (fun c => _parse_chunk_id (RetrievedChunk.chunk_id c) = None) todo ->
  expand_loop self todo st = st.
Proof.
  induction 1 as [|c todo Hc _ IH]; [reflexivity|].
  cbn [expand_loop]. now rewrite Hc.
Qed.

Lemma expand_chunks_length (self : HybridRetriever.t F) (retrieval : RetrievalResult.t F) :
  (0 <= Config.max_chunks_after_expand (config self))%Z ->
  (Z.of_nat (length (RetrievalResult.chunks (expand_chunks self retrieval)))
   <= Z.max (Z.of_nat (length (RetrievalResult.chunks retrieval)))
        (Config.max_chunks_after_expand (config self)))%Z.
Proof.
  intros Hcap. unfold expand_chunks. destruct (_ || _); [lia|].
  destruct (expand_loop _ _ _) as [ids expanded].
  cbn [RetrievalResult.chunks RetrievalResult.set_chunks].
  pose proof (slice_to_length (Config.max_chunks_after_expand (config self)) expanded Hcap).
  lia.
Qed.

End UnparsableFacts.

Section UnparsableProperties.
Context {F : Type} `{PyFloat F} `{SetOrder}.
Import PyStr HybridRetriever.

(** X26.  An identifier without a double underscore does not parse,
    and chunks under such identifiers get no neighbours: the expander
    returns the chunks it was given, cut to [max_chunks_after_expand]
    when expansion is switched on. *)
Theorem expand_chunks_unparsable (self : HybridRetriever.t F)
    (retrieval : RetrievalResult.t F) :
  Forall (fun c => contains "__" (RetrievedChunk.chunk_id c) = false)
    (RetrievalResult.chunks retrieval) ->
  Forall (fun c => _parse_chunk_id (RetrievedChunk.chunk_id c) = None)
    (RetrievalResult.chunks retrieval) /\
  (RetrievalResult.chunks (expand_chunks self retrieval) = RetrievalResult.chunks retrieval \/
   RetrievalResult.chunks (expand_chunks self retrieval)
   = slice_to (Config.max_chunks_after_expand (config self))
       (RetrievalResult.chunks retrieval)).
Proof.
  intros Hall.
  assert (Hnone : Forall (fun c => _parse_chunk_id (RetrievedChunk.chunk_id c) = None)
                    (RetrievalResult.chunks retrieval)).
  { eapply Forall_impl; [exact Hall|]. intros c. apply parse_chunk_id_no_sep. }
  split; [exact Hnone|].
  unfold expand_chunks. destruct (_ || _); [now left | right].
  now rewrite (expand_loop_unparsed self _ _ Hnone).
Qed.

(** X27.  The size of the context.  With [final_k] and
    [max_chunks_after_expand] not negative, [query] never leaves more
    than [max(final_k, max_chunks_after_expand)] chunks in
    [_last_retrieval]. *)
Theorem query_chunks_bound (self : RAGPipeline.t F) (question : string)
    (vector_weight bm25_weight : option F) :
  (0 <= Config.final_k (RAGPipeline.config self))%Z ->
  (0 <= Config.max_chunks_after_expand (RAGPipeline.config self))%Z ->
  (Z.of_nat
     (length (RetrievalResult.chunks
                (RAGPipeline._last_retrieval
                   (RAGPipeline.query self question vector_weight bm25_weight))))
   <= Z.max (Config.final_k (RAGPipeline.config self))
        (Config.max_chunks_after_expand (RAGPipeline.config self)))%Z.
Proof.
  intros Hk Hcap. unfold RAGPipeline.query.
  destruct (RetrievalResult.has_sufficient_evidence
              (retrieve (RAGPipeline.retriever self) question vector_weight
                 bm25_weight None)) eqn:Hflag; cbn [negb].
  2:{ cbn [RAGPipeline._last_retrieval].
      apply retrieve_flag in Hflag. rewrite Hflag. simpl. lia. }
  match goal with
  | |- context [expand_chunks ?s ?r] =>
      pose proof (expand_chunks_length s r Hcap) as Hlen;
      assert (Hin : (Z.of_nat (length (RetrievalResult.chunks r))
                     <= Config.final_k (RAGPipeline.config self))%Z)
        by (cbn [RetrievalResult.chunks RetrievalResult.set_chunks];
            apply slice_to_length; exact Hk)
  end.
  destruct (Guardrails.topic_presence_check _ _ _);
    cbn [negb RAGPipeline._last_retrieval RetrievalResult.chunks
         RetrievalResult.set_has_sufficient_evidence];
    unfold RAGPipeline.config in *; lia.
Qed.

End UnparsableProperties.

Lemma expand_chunks_unparsable_witness :
  let retrieval :=
    Demo.retrieval_of [Demo.chunk "intro-1" "Sirtuin activation." (QArith_base.Qmake 1 2)] in
  Forall (fun c => HybridRetriever._parse_chunk_id (RetrievedChunk.chunk_id c) = None)
    (RetrievalResult.chunks retrieval) /\
  (RetrievalResult.chunks
     (@HybridRetriever.expand_chunks _ QFloat.instance Demo.retriever retrieval)
   = RetrievalResult.chunks retrieval \/
   RetrievalResult.chunks
     (@HybridRetriever.expand_chunks _ QFloat.instance Demo.retriever retrieval)
   = PyStr.slice_to 10 (RetrievalResult.chunks retrieval)).
Proof.
  intros retrieval.
  apply (@expand_chunks_unparsable _ QFloat.instance Demo.retriever retrieval).
  repeat constructor.
Defined.

Lemma query_chunks_bound_witness :
  (Z.of_nat
     (length (RetrievalResult.chunks
                (RAGPipeline._last_retrieval
                   (@RAGPipeline.query _ QFloat.instance elements_order
                      Demo.pipeline Demo.question None None))))
   <= Z.max 6 10)%Z.
Proof.
  apply (@query_chunks_bound _ QFloat.instance elements_order
           Demo.pipeline Demo.question None None); discriminate.
Defined.
